(** * Nightmare: player-modelling and scare-orchestration core

    A shallow embedding of the parts of the Go sources that the Observer,
    the Analyzer, the Director and the Player use to record gameplay events,
    to derive the fear and reactor profiles, and to decide about scare events.

    Conventions of the embedding.
    - A Go [float64] is an exact rational number ([Q]).  Every operation of
      the sources used here is a field operation or a comparison, so that the
      embedding computes; rounding, infinities and NaN are outside the model.
      Equalities between computed numbers are stated with [==] ([Qeq]).
    - A [time.Time] is a number of nanoseconds ([Z]); a [time.Duration] is a
      64-bit number of nanoseconds, and [time.Time.Sub] saturates.
    - A Go [interface{}] value is a value of the tagged union [Any]; a type
      assertion [x.(T)] is a partial projection.
    - A Go [map] is a [gmap]; a slice is a [list].
    - A nil-pointer dereference (a panic) is the result [None]. *)

From Stdlib Require Import ZArith QArith Qabs Qminmax Lqa Lia List Permutation.
From Stdlib Require Import Sorted Ascii DecimalString DecimalPos DecimalZ.
From stdpp Require Import gmap strings list fin_maps.

Open Scope Q_scope.

(** ** Enumerations ([iota] constants of the sources) *)

Inductive FearType :=
  | FearDarkness | FearCreatures | FearSuddenNoises | FearIsolation
  | FearChasing | FearGore | FearClaustrophobia | FearOpenSpaces | FearUnknown.

Inductive ReactorType :=
  | ReactorCautious | ReactorBold | ReactorPanic
  | ReactorMethodical | ReactorReckless | ReactorHesitant.

Inductive ActionType :=
  | ActionMove | ActionRun | ActionHide | ActionInteract
  | ActionAttack | ActionInvestigate | ActionRetreat | ActionFreeze.

Inductive ScareEventType :=
  | EventAmbientSound | EventSuddenNoise | EventCreatureAppearance
  | EventEnvironmentChange | EventHallucination | EventWhisper.

Inductive EventType :=
  | EventPlayerMoved | EventPlayerDamaged | EventPlayerInteracted
  | EventPlayerSanityChanged | EventCreatureSpawned | EventCreatureKilled
  | EventCreatureDetected | EventWorldChanged | EventScareTriggered
  | EventItemPickedUp | EventItemUsed | EventAmbientChanged
  | EventGameStateChanged | EventCustom.

(** The integer behind each constant, as [iota] assigns it. *)
Definition FearType_ord (f : FearType) : nat :=
  match f with
  | FearDarkness => 0 | FearCreatures => 1 | FearSuddenNoises => 2
  | FearIsolation => 3 | FearChasing => 4 | FearGore => 5
  | FearClaustrophobia => 6 | FearOpenSpaces => 7 | FearUnknown => 8
  end%nat.

Definition FearType_of_ord (n : nat) : option FearType :=
  match n with
  | 0 => Some FearDarkness | 1 => Some FearCreatures
  | 2 => Some FearSuddenNoises | 3 => Some FearIsolation
  | 4 => Some FearChasing | 5 => Some FearGore
  | 6 => Some FearClaustrophobia | 7 => Some FearOpenSpaces
  | 8 => Some FearUnknown | _ => None
  end%nat.

Definition ReactorType_ord (r : ReactorType) : nat :=
  match r with
  | ReactorCautious => 0 | ReactorBold => 1 | ReactorPanic => 2
  | ReactorMethodical => 3 | ReactorReckless => 4 | ReactorHesitant => 5
  end%nat.

Definition ReactorType_of_ord (n : nat) : option ReactorType :=
  match n with
  | 0 => Some ReactorCautious | 1 => Some ReactorBold
  | 2 => Some ReactorPanic | 3 => Some ReactorMethodical
  | 4 => Some ReactorReckless | 5 => Some ReactorHesitant | _ => None
  end%nat.

Definition ScareEventType_ord (s : ScareEventType) : nat :=
  match s with
  | EventAmbientSound => 0 | EventSuddenNoise => 1
  | EventCreatureAppearance => 2 | EventEnvironmentChange => 3
  | EventHallucination => 4 | EventWhisper => 5
  end%nat.

Definition ScareEventType_of_ord (n : nat) : option ScareEventType :=
  match n with
  | 0 => Some EventAmbientSound | 1 => Some EventSuddenNoise
  | 2 => Some EventCreatureAppearance | 3 => Some EventEnvironmentChange
  | 4 => Some EventHallucination | 5 => Some EventWhisper | _ => None
  end%nat.

#[global] Instance FearType_eq_dec : EqDecision FearType.
Proof. solve_decision. Defined.

#[global] Instance ReactorType_eq_dec : EqDecision ReactorType.
Proof. solve_decision. Defined.

#[global] Instance ActionType_eq_dec : EqDecision ActionType.
Proof. solve_decision. Defined.

#[global] Instance ScareEventType_eq_dec : EqDecision ScareEventType.
Proof. solve_decision. Defined.

#[global] Instance FearType_countable : Countable FearType.
Proof.
  refine (inj_countable FearType_ord FearType_of_ord _).
  intros f; destruct f; reflexivity.
Defined.

#[global] Instance ReactorType_countable : Countable ReactorType.
Proof.
  refine (inj_countable ReactorType_ord ReactorType_of_ord _).
  intros r; destruct r; reflexivity.
Defined.

#[global] Instance ScareEventType_countable : Countable ScareEventType.
Proof.
  refine (inj_countable ScareEventType_ord ScareEventType_of_ord _).
  intros s; destruct s; reflexivity.
Defined.

(** The loop [for fearType := FearDarkness; fearType <= FearUnknown; fearType++]. *)
Definition allFearTypes : list FearType :=
  [FearDarkness; FearCreatures; FearSuddenNoises; FearIsolation; FearChasing;
   FearGore; FearClaustrophobia; FearOpenSpaces; FearUnknown].

(** The loop [for reactorType := ReactorCautious; reactorType <= ReactorHesitant; reactorType++]. *)
Definition allReactorTypes : list ReactorType :=
  [ReactorCautious; ReactorBold; ReactorPanic;
   ReactorMethodical; ReactorReckless; ReactorHesitant].

(** ** Time *)

(** [time.Duration] is an [int64] count of nanoseconds. *)
Definition Duration := Z.

Definition Second : Duration := 1000000000%Z.

Definition maxDuration : Duration := (2 ^ 63 - 1)%Z.
Definition minDuration : Duration := (- 2 ^ 63)%Z.

(** [int64] arithmetic wraps around. *)
Definition wrap64 (z : Z) : Z := ((z + 2 ^ 63) mod 2 ^ 64 - 2 ^ 63)%Z.

(** [Time.Sub]: the difference of two instants, saturated to the range of
    a [Duration].  [time.Since t] is [time.Now().Sub(t)]. *)
Definition Time_Sub (t u : Z) : Duration :=
  let d := (t - u)%Z in
  if (maxDuration <? d)%Z then maxDuration
  else if (d <? minDuration)%Z then minDuration
  else d.

(** [Duration.Seconds]. *)
Definition Duration_Seconds (d : Duration) : Q := inject_Z d / inject_Z Second.

(** ** Numbers *)

(** Comparisons of [float64] values, as booleans. *)
Definition Qltb (x y : Q) : bool := negb (Qle_bool y x).
Definition Qgtb (x y : Q) : bool := Qltb y x.

(** [math.Max], [math.Min] and [math.Abs] on finite values. *)
Definition math_Max (x y : Q) : Q := if Qltb x y then y else x.
Definition math_Min (x y : Q) : Q := if Qltb y x then y else x.
Definition math_Abs (x : Q) : Q := Qabs x.

(** [float64(n)] for an [int] [n]. *)
Definition float64_of_int (n : Z) : Q := inject_Z n.

(** ** Entities *)

Record Vector2D := mkVector2D { X : Q; Y : Q }.

Definition zeroVector2D : Vector2D := mkVector2D 0 0.

Record Player := mkPlayer {
  Position : Vector2D;
  Health : Q;
  Sanity : Q
}.

(** [Player.ReduceSanity]. *)
Definition ReduceSanity (p : Player) (amount : Q) : Player :=
  let s := Sanity p - amount in
  mkPlayer (Position p) (Health p) (if Qltb s 0 then 0 else s).

(** ** Events *)

(** The dynamic values that an [interface{}] of an event payload holds:
    [Nil] is the nil interface, the other constructors name the dynamic
    type. *)
Inductive Any :=
  | Nil
  | Float64 (x : Q)
  | Int (n : Z)
  | Str (s : string)
  | EntityVector2D (v : Vector2D)
  | ScareType (s : ScareEventType)
  | CreaturePtr (id : Z)
  | PlayerPtr
  | Opaque (tag : string).

(** [v == nil]. *)
Definition isNil (v : Any) : bool :=
  match v with Nil => true | _ => false end.

(** [x, ok := v.(float64)]. *)
Definition asFloat64 (v : Any) : option Q :=
  match v with Float64 x => Some x | _ => None end.

(** [x, ok := v.(entity.Vector2D)]. *)
Definition asVector2D (v : Any) : option Vector2D :=
  match v with EntityVector2D p => Some p | _ => None end.

(** [x, ok := v.(ScareEventType)]. *)
Definition asScareEventType (v : Any) : option ScareEventType :=
  match v with ScareType s => Some s | _ => None end.

(** A [map[string]interface{}], which may be the nil map. *)
Definition CustomMap := option (gmap string Any).

(** [v, ok := m[k]]: reading the nil map finds nothing. *)
Definition mapGet (m : CustomMap) (k : string) : option Any :=
  match m with
  | Some g => g !! k
  | None => None
  end.

(** [m[k]]: the nil interface when the key is absent. *)
Definition mapIndex (m : CustomMap) (k : string) : Any :=
  match mapGet m k with Some v => v | None => Nil end.

Record EventData := mkEventData {
  Type_ : EventType;
  Source : Any;
  Target : Any;
  EPosition : Any;
  Value : Any;
  ETimestamp : Z;
  Custom : CustomMap
}.

(** [NewScareEvent]. *)
Definition NewScareEvent (scareType source position : Any) (intensity : Q)
    (now : Z) : EventData :=
  mkEventData EventScareTriggered source Nil position (Float64 intensity) now
    (Some {[ "scareType" := scareType ]}).

(** [NewPlayerMovedEvent]. *)
Definition NewPlayerMovedEvent (player oldPosition newPosition : Any) (now : Z) :
    EventData :=
  mkEventData EventPlayerMoved player Nil newPosition Nil now
    (Some {[ "oldPosition" := oldPosition ]}).

(** [NewPlayerSanityChangedEvent]. *)
Definition NewPlayerSanityChangedEvent (player : Any) (oldValue newValue : Q)
    (now : Z) : EventData :=
  mkEventData EventPlayerSanityChanged player Nil Nil
    (Float64 (newValue - oldValue)) now
    (Some {[ "oldValue" := Float64 oldValue; "newValue" := Float64 newValue ]}).

(** ** Observer: data *)

Record PlayerAction := mkPlayerAction {
  AType : ActionType;
  APosition : Vector2D;
  ADirection : Vector2D;
  ATarget : Any;
  ATimestamp : Z;
  AContext : gmap string Any
}.

Record FearResponse := mkFearResponse {
  RFearType : FearType;
  StrengthOfFear : Q;
  ActionsTaken : list ActionType;
  SanityLoss : Q;
  HeartRateChange : Q;
  ReactionTime : Duration;
  DistanceMoved : Q
}.

Record ObservationContext := mkObservationContext {
  LightLevel : Q;
  OpenSpace : Q;
  NearbyExits : Z;
  TimeSinceLastScare : Duration;
  CurrentSanity : Q;
  RecentSanityLoss : Q
}.

Record ScareRecommendation := mkScareRecommendation {
  ScareType_ : ScareEventType;
  FearTarget : FearType;
  Intensity : Q;
  RPosition : Vector2D;
  Timing : Duration;
  Priority : Q
}.

(** The fields of [ObserverSystem] that the recording and analysis code
    reads or writes.  [player] is the state of the object behind the
    [*entity.Player] pointer, [None] for the nil pointer. *)
Record ObserverSystem := mkObserverSystem {
  player : option Player;
  playerActions : list PlayerAction;
  fearResponses : gmap FearType (list FearResponse);
  reactorProfile : gmap ReactorType Q;
  fearProfile : gmap FearType Q;
  context : ObservationContext;
  recommendedScares : list ScareRecommendation
}.

Definition set_playerActions (o : ObserverSystem) (l : list PlayerAction) :=
  mkObserverSystem (player o) l (fearResponses o) (reactorProfile o)
    (fearProfile o) (context o) (recommendedScares o).

Definition set_fearResponses (o : ObserverSystem) (m : gmap FearType (list FearResponse)) :=
  mkObserverSystem (player o) (playerActions o) m (reactorProfile o)
    (fearProfile o) (context o) (recommendedScares o).

Definition set_reactorProfile (o : ObserverSystem) (m : gmap ReactorType Q) :=
  mkObserverSystem (player o) (playerActions o) (fearResponses o) m
    (fearProfile o) (context o) (recommendedScares o).

Definition set_fearProfile (o : ObserverSystem) (m : gmap FearType Q) :=
  mkObserverSystem (player o) (playerActions o) (fearResponses o)
    (reactorProfile o) m (context o) (recommendedScares o).

Definition set_context (o : ObserverSystem) (c : ObservationContext) :=
  mkObserverSystem (player o) (playerActions o) (fearResponses o)
    (reactorProfile o) (fearProfile o) c (recommendedScares o).

Definition set_recommendedScares (o : ObserverSystem) (l : list ScareRecommendation) :=
  mkObserverSystem (player o) (playerActions o) (fearResponses o)
    (reactorProfile o) (fearProfile o) (context o) l.

(** [NewObserverSystem], called with a player: the constructor reads
    [player.Sanity]. *)
Definition NewObserverSystem (p : Player) : ObserverSystem :=
  mkObserverSystem (Some p) [] ∅ ∅ ∅
    (mkObservationContext (1 # 2) (1 # 2) 2 (60 * Second)%Z (Sanity p) 0)
    [].

(** [ObserverSystem.Initialize]: both profiles start at the neutral 0.5. *)
Definition Initialize (o : ObserverSystem) : ObserverSystem :=
  let fp := fold_left (fun m f => <[f := 1#2]> m) allFearTypes (fearProfile o) in
  let rp := fold_left (fun m r => <[r := 1#2]> m) allReactorTypes (reactorProfile o) in
  set_reactorProfile (set_fearProfile o fp) rp.

(** [s[len(s)-n:]] for a slice longer than [n]. *)
Definition lastN {A} (n : nat) (l : list A) : list A :=
  drop (length l - n) l.

(** [ObserverSystem.addPlayerAction]. *)
Definition maxActions : nat := 1000.

Definition addPlayerAction (o : ObserverSystem) (action : PlayerAction) : ObserverSystem :=
  let l := playerActions o ++ [action] in
  set_playerActions o
    (if (maxActions <? length l)%nat then lastN maxActions l else l).

(** [ObserverSystem.recordFearResponse]. *)
Definition maxResponses : nat := 20.

Definition recordFearResponse (o : ObserverSystem) (response : FearResponse) : ObserverSystem :=
  let k := RFearType response in
  let m0 :=
    match fearResponses o !! k with
    | Some _ => fearResponses o
    | None => <[k := []]> (fearResponses o)
    end in
  let l := (match m0 !! k with Some l => l | None => [] end) ++ [response] in
  let m1 := <[k := l]> m0 in
  let m2 := if (maxResponses <? length l)%nat then <[k := lastN maxResponses l]> m1 else m1 in
  set_fearResponses o m2.

(** [ObserverSystem.determineFearType]: a type switch on the source. *)
Definition determineFearType (source : Any) : FearType :=
  match source with
  | CreaturePtr _ => FearCreatures
  | _ => FearUnknown
  end.

(** [ObserverSystem.mapScareEventToFearType]. *)
Definition mapScareEventToFearType (scareType : ScareEventType) : FearType :=
  match scareType with
  | EventAmbientSound => FearIsolation
  | EventSuddenNoise => FearSuddenNoises
  | EventCreatureAppearance => FearCreatures
  | EventEnvironmentChange => FearUnknown
  | EventHallucination => FearIsolation
  | EventWhisper => FearIsolation
  end.

(** ** Observer: event handlers *)

(** [ObserverSystem.recordMovement].  The speed threshold is 1.5. *)
Definition recordMovement (o : ObserverSystem) (data : EventData) : option ObserverSystem :=
  if isNil (EPosition data) then Some o
  else
    match asVector2D (EPosition data) with
    | None => Some o
    | Some position =>
        let oldPosition :=
          match mapGet (Custom data) "oldPosition" with
          | Some prevPos =>
              match asVector2D prevPos with
              | Some v => v
              | None => zeroVector2D
              end
          | None => zeroVector2D
          end in
        let direction :=
          mkVector2D (X position - X oldPosition) (Y position - Y oldPosition) in
        let actionType :=
          if isNil (Value data) then ActionMove
          else
            match asFloat64 (Value data) with
            | Some speed => if Qgtb speed (3 # 2) then ActionRun else ActionMove
            | None => ActionMove
            end in
        Some (addPlayerAction o
                (mkPlayerAction actionType position direction Nil (ETimestamp data) ∅))
    end.

(** [ObserverSystem.recordDamage]: reads [o.player.Position]. *)
Definition recordDamage (o : ObserverSystem) (data : EventData) : option ObserverSystem :=
  if isNil (Source data) then Some o
  else
    match player o with
    | None => None
    | Some p =>
        Some (addPlayerAction o
                (mkPlayerAction ActionFreeze (Position p) zeroVector2D (Source data)
                   (ETimestamp data) {[ "damageAmount" := Value data ]}))
    end.

(** [ObserverSystem.recordSanityChange].  The strength is [|change| / 20]. *)
Definition recordSanityChange (o : ObserverSystem) (data : EventData) : option ObserverSystem :=
  if isNil (Value data) then Some o
  else
    match asFloat64 (Value data) with
    | None => Some o
    | Some sanityChange =>
        if Qltb sanityChange 0 then
          let oldValue :=
            match asFloat64 (mapIndex (Custom data) "oldValue") with
            | Some v => v | None => 0
            end in
          let newValue :=
            match asFloat64 (mapIndex (Custom data) "newValue") with
            | Some v => v | None => 0
            end in
          let fearType :=
            if isNil (Source data) then FearUnknown
            else determineFearType (Source data) in
          Some (recordFearResponse o
                  (mkFearResponse fearType (math_Abs sanityChange / 20) []
                     (oldValue - newValue) 0 0%Z 0))
        else Some o
    end.

(** [ObserverSystem.recordInteraction]: reads [o.player.Position]. *)
Definition recordInteraction (o : ObserverSystem) (data : EventData) : option ObserverSystem :=
  if isNil (Target data) then Some o
  else
    match player o with
    | None => None
    | Some p =>
        Some (addPlayerAction o
                (mkPlayerAction ActionInteract (Position p) zeroVector2D (Target data)
                   (ETimestamp data) ∅))
    end.

(** [ObserverSystem.recordScareResponse].  The default intensity is 0.5. *)
Definition recordScareResponse (o : ObserverSystem) (data : EventData) : option ObserverSystem :=
  match Custom data with
  | None => Some o
  | Some _ =>
      if isNil (mapIndex (Custom data) "scareType") then Some o
      else
        match asScareEventType (mapIndex (Custom data) "scareType") with
        | None => Some o
        | Some scareType =>
            let fearType := mapScareEventToFearType scareType in
            let intensity :=
              if isNil (Value data) then 1 # 2
              else
                match asFloat64 (Value data) with
                | Some val => val
                | None => 1 # 2
                end in
            let o1 :=
              recordFearResponse o
                (mkFearResponse fearType intensity []
                   (RecentSanityLoss (context o)) 0 0%Z 0) in
            let c := context o1 in
            Some (set_context o1
                    (mkObservationContext (LightLevel c) (OpenSpace c) (NearbyExits c)
                       0%Z (CurrentSanity c) (RecentSanityLoss c)))
        end
  end.

(** The listeners that [ObserverSystem.subscribeToEvents] registers: the
    event manager calls the listener of the event's type; the Observer
    listens to five types. *)
Definition onEvent (o : ObserverSystem) (data : EventData) : option ObserverSystem :=
  match Type_ data with
  | EventPlayerMoved => recordMovement o data
  | EventPlayerDamaged => recordDamage o data
  | EventPlayerSanityChanged => recordSanityChange o data
  | EventPlayerInteracted => recordInteraction o data
  | EventScareTriggered => recordScareResponse o data
  | _ => Some o
  end.

(** [ObserverSystem.updateContext]. *)
Definition updateContext (o : ObserverSystem) : ObserverSystem :=
  let c := context o in
  let c1 :=
    match player o with
    | Some p =>
        let loss := CurrentSanity c - Sanity p in
        mkObservationContext (LightLevel c) (OpenSpace c) (NearbyExits c)
          (TimeSinceLastScare c) (Sanity p) (if Qltb loss 0 then 0 else loss)
    | None => c
    end in
  set_context o
    (mkObservationContext (LightLevel c1) (OpenSpace c1) (NearbyExits c1)
       (wrap64 (TimeSinceLastScare c1 + Second)) (CurrentSanity c1)
       (RecentSanityLoss c1)).

(** ** Observer: analysis *)

(** [math.MaxFloat64]. *)
Definition MaxFloat64 : Q := inject_Z (2 ^ 1024 - 2 ^ 971).

(** [profile[k]]: a missing key reads as the zero value. *)
Definition profileGet `{Countable K} (m : gmap K Q) (k : K) : Q :=
  match m !! k with Some v => v | None => 0 end.

(** [normalizeProfile]: both loops range over the map; the result does not
    depend on the order of the iteration. *)
Definition profileMin (profile : gmap ReactorType Q) : Q :=
  map_fold (fun _ value min => if Qltb value min then value else min)
    MaxFloat64 profile.

Definition profileMax (profile : gmap ReactorType Q) : Q :=
  map_fold (fun _ value max => if Qgtb value max then value else max)
    (- MaxFloat64) profile.

Definition normalizeProfile (profile : gmap ReactorType Q) : gmap ReactorType Q :=
  let min := profileMin profile in
  let max := profileMax profile in
  (fun value => if Qgtb max min then (value - min) / (max - min) else 1 # 2)
    <$> profile.

(** The counting loop of [analyzeReactorProfile]. *)
Definition countActions (t : ActionType) (l : list PlayerAction) : Z :=
  Z.of_nat (length (filter (fun a => AType a = t) l)).

(** The six raw scores of [analyzeReactorProfile], before normalization. *)
Definition rawReactorScore (l : list PlayerAction) (r : ReactorType) : Q :=
  let moveCount := countActions ActionMove l in
  let runCount := countActions ActionRun l in
  let hideCount := countActions ActionHide l in
  let interactCount := countActions ActionInteract l in
  let attackCount := countActions ActionAttack l in
  let investigateCount := countActions ActionInvestigate l in
  let retreatCount := countActions ActionRetreat l in
  let freezeCount := countActions ActionFreeze l in
  let totalActions := Z.of_nat (length l) in
  match r with
  | ReactorCautious =>
      float64_of_int (hideCount + retreatCount - attackCount) / float64_of_int totalActions
  | ReactorBold =>
      float64_of_int (attackCount + investigateCount - hideCount) / float64_of_int totalActions
  | ReactorPanic =>
      float64_of_int (runCount + freezeCount) / float64_of_int totalActions
  | ReactorMethodical =>
      float64_of_int (investigateCount + interactCount) / float64_of_int totalActions
  | ReactorReckless =>
      float64_of_int (runCount + attackCount - hideCount) / float64_of_int totalActions
  | ReactorHesitant =>
      float64_of_int (freezeCount - interactCount) / float64_of_int totalActions
  end.

(** The six assignments of [analyzeReactorProfile]. *)
Definition rawReactorProfile (l : list PlayerAction) (m : gmap ReactorType Q) :
    gmap ReactorType Q :=
  fold_left (fun m r => <[r := rawReactorScore l r]> m) allReactorTypes m.

(** [ObserverSystem.analyzeReactorProfile]. *)
Definition analyzeReactorProfile (o : ObserverSystem) : ObserverSystem :=
  if (length (playerActions o) <? 10)%nat then o
  else
    set_reactorProfile o
      (normalizeProfile (rawReactorProfile (playerActions o) (reactorProfile o))).

(** The summing loop of [analyzeFearProfile]. *)
Definition totalStrength (responses : list FearResponse) : Q :=
  fold_left (fun total response => total + StrengthOfFear response) responses 0.

(** One iteration of the loop of [analyzeFearProfile]: 70% of the old
    value, 30% of the mean strength. *)
Definition updateFearType (rs : gmap FearType (list FearResponse))
    (fp : gmap FearType Q) (fearType : FearType) : gmap FearType Q :=
  match rs !! fearType with
  | None => fp
  | Some responses =>
      if (length responses =? 0)%nat then fp
      else
        let avgStrength :=
          totalStrength responses / float64_of_int (Z.of_nat (length responses)) in
        <[fearType := profileGet fp fearType * (7 # 10) + avgStrength * (3 # 10)]> fp
  end.

(** [ObserverSystem.analyzeFearProfile]. *)
Definition analyzeFearProfile (o : ObserverSystem) : ObserverSystem :=
  if (size (fearResponses o) =? 0)%nat then o
  else
    set_fearProfile o
      (fold_left (updateFearType (fearResponses o)) allFearTypes (fearProfile o)).

(** ** Sorting *)

(** [sort.Slice(s, func(i, j) bool { return key(s[i]) > key(s[j]) })]:
    descending by [key].  Go does not say in which order equal elements end
    up; this insertion sort keeps them in the order of the slice. *)
Fixpoint insertDesc {A} (key : A -> Q) (x : A) (l : list A) : list A :=
  match l with
  | [] => [x]
  | y :: l' =>
      if Qgtb (key x) (key y) then x :: y :: l'
      else y :: insertDesc key x l'
  end.

Definition sortSliceDesc {A} (key : A -> Q) (l : list A) : list A :=
  fold_right (insertDesc key) [] l.

(** ** Observer: recommendations *)

(** [ObserverSystem.chooseScareTypeForFearType].  [rnd] is what
    [o.random.RangeInt(0, 6)] returns; an index outside the slice panics. *)
Definition chooseScareTypeForFearType (fearType : FearType) (rnd : Z) :
    option ScareEventType :=
  match fearType with
  | FearDarkness => Some EventEnvironmentChange
  | FearCreatures => Some EventCreatureAppearance
  | FearSuddenNoises => Some EventSuddenNoise
  | FearIsolation => Some EventWhisper
  | FearChasing => Some EventCreatureAppearance
  | FearGore => Some EventHallucination
  | FearClaustrophobia => Some EventEnvironmentChange
  | FearOpenSpaces => Some EventCreatureAppearance
  | FearUnknown =>
      let eventTypes :=
        [EventAmbientSound; EventSuddenNoise; EventCreatureAppearance;
         EventEnvironmentChange; EventHallucination; EventWhisper] in
      if (rnd <? 0)%Z then None else eventTypes !! Z.to_nat rnd
  end.

Section Recommendations.

(** [math.Exp], which has no rational model, is a parameter. *)
Variable math_Exp : Q -> Q.

(** [ObserverSystem.generateRecommendationForFearType]. *)
Definition generateRecommendationForFearType (o : ObserverSystem)
    (fearType : FearType) (rnd : Z) : option ScareRecommendation :=
  match chooseScareTypeForFearType fearType rnd with
  | None => None
  | Some scareType =>
      let intensity0 :=
        profileGet (fearProfile o) fearType
        * (1 + (1 - CurrentSanity (context o) / 100)) in
      let intensity := math_Max (3 # 10) (math_Min 1 intensity0) in
      let timeFactor :=
        1 - math_Exp (- Duration_Seconds (TimeSinceLastScare (context o)) / 60) in
      let priority :=
        profileGet (fearProfile o) fearType * ((1 # 2) + timeFactor * (1 # 2)) in
      let timing :=
        if (TimeSinceLastScare (context o) <? 30 * Second)%Z
        then (30 * Second)%Z else (10 * Second)%Z in
      match player o with
      | None => None
      | Some p =>
          Some (mkScareRecommendation scareType fearType intensity
                  (Position p) timing priority)
      end
  end.

(** [ObserverSystem.getEffectiveFearTypes]: the keys of the fear profile,
    by descending value, at most three of them. *)
Definition getEffectiveFearTypes (o : ObserverSystem) : list FearType :=
  let effectiveness := fearProfile o in
  let fearTypes := fst <$> map_to_list effectiveness in
  let sorted := sortSliceDesc (profileGet effectiveness) fearTypes in
  let count := if (length sorted <? 3)%nat then length sorted else 3%nat in
  take count sorted.

(** The loop of [GenerateScareRecommendations]. *)
Fixpoint recommendAll (o : ObserverSystem) (fears : list FearType) (rnd : Z) :
    option (list ScareRecommendation) :=
  match fears with
  | [] => Some []
  | fearType :: rest =>
      match generateRecommendationForFearType o fearType rnd with
      | None => None
      | Some recommendation =>
          match recommendAll o rest rnd with
          | None => None
          | Some l => Some (recommendation :: l)
          end
      end
  end.

(** [ObserverSystem.GenerateScareRecommendations].  The keys of the
    profile are distinct, so at most one recommendation, the one for
    [FearUnknown], draws a random number: [rnd]. *)
Definition GenerateScareRecommendations (o : ObserverSystem) (rnd : Z) :
    option ObserverSystem :=
  let o0 := set_recommendedScares o [] in
  match recommendAll o0 (getEffectiveFearTypes o0) rnd with
  | None => None
  | Some l => Some (set_recommendedScares o0 (sortSliceDesc Priority l))
  end.

End Recommendations.

(** ** Analyzer *)

Record PlayerPattern := mkPlayerPattern {
  Name : string;
  Description : string;
  Weight : Q
}.

Record MovementAnalysis := mkMovementAnalysis {
  AverageSpeed : Q;
  DirectionChanges : Z;
  ExplorationArea : Q;
  PathRepetition : Q;
  PreferredAreas : list Vector2D
}.

Record InteractionAnalysis := mkInteractionAnalysis {
  InteractionRate : Q;
  ResponseToScareEvents : gmap ScareEventType Q;
  HealthLossRate : Q;
  SanityLossRate : Q
}.

(** The fields of [Analyzer] that pattern detection reads or writes. *)
Record Analyzer := mkAnalyzer {
  detectedPatterns : list PlayerPattern;
  movementAnalysis : MovementAnalysis;
  interactionAnalysis : InteractionAnalysis
}.

Definition set_detectedPatterns (a : Analyzer) (l : list PlayerPattern) : Analyzer :=
  mkAnalyzer l (movementAnalysis a) (interactionAnalysis a).

(** The loop of [Analyzer.addPattern] over the list: the first pattern of
    the same name gets the mean of the two weights; without one, the new
    pattern is appended. *)
Fixpoint addPatternTo (l : list PlayerPattern) (pattern : PlayerPattern) :
    list PlayerPattern :=
  match l with
  | [] => [pattern]
  | p :: l' =>
      if String.eqb (Name p) (Name pattern)
      then mkPlayerPattern (Name p) (Description p)
             ((Weight p + Weight pattern) / 2) :: l'
      else p :: addPatternTo l' pattern
  end.

Definition set_movementAnalysis (a : Analyzer) (m : MovementAnalysis) : Analyzer :=
  mkAnalyzer (detectedPatterns a) m (interactionAnalysis a).

(** [Analyzer.addPattern]. *)
Definition addPattern (a : Analyzer) (pattern : PlayerPattern) : Analyzer :=
  set_detectedPatterns a (addPatternTo (detectedPatterns a) pattern).

(** [Analyzer.detectMovementPatterns]. *)
Definition detectMovementPatterns (a : Analyzer) : Analyzer :=
  let m := movementAnalysis a in
  let a1 :=
    if Qgtb (ExplorationArea m) 500 && Qltb (PathRepetition m) 2
    then addPattern a
           (mkPlayerPattern "explorer"
              "Игрок активно исследует мир, не задерживаясь на одном месте"
              ((8 # 10) - PathRepetition m / 10))
    else a in
  let a2 :=
    if Qltb (AverageSpeed m) (3 # 2) && (30 <? DirectionChanges m)%Z
    then addPattern a1
           (mkPlayerPattern "cautious"
              "Игрок осторожен, медленно двигается и часто меняет направление"
              ((9 # 10) - AverageSpeed m / 3))
    else a1 in
  let a3 :=
    if Qgtb (AverageSpeed m) 2 && (DirectionChanges m <? 15)%Z
    then addPattern a2
           (mkPlayerPattern "determined"
              "Игрок быстро движется в выбранном направлении"
              ((7 # 10) + AverageSpeed m / 5))
    else a2 in
  if Qltb (ExplorationArea m) 200 && Qgtb (PathRepetition m) 3
  then addPattern a3
         (mkPlayerPattern "indecisive"
            "Игрок нерешителен, часто возвращается в одни и те же места"
            ((6 # 10) + PathRepetition m / 5))
  else a3.

(** [Analyzer.detectInteractionPatterns]. *)
Definition detectInteractionPatterns (a : Analyzer) : Analyzer :=
  let r := InteractionRate (interactionAnalysis a) in
  let a1 :=
    if Qgtb r (3 # 10)
    then addPattern a
           (mkPlayerPattern "interactive"
              "Игрок активно взаимодействует с окружением" ((7 # 10) + r))
    else a in
  if Qltb r (1 # 10)
  then addPattern a1
         (mkPlayerPattern "passive"
            "Игрок редко взаимодействует с окружением"
            ((6 # 10) + ((1 # 10) - r)))
  else a1.

(** [Analyzer.detectFearResponsePatterns]. *)
Definition detectFearResponsePatterns (a : Analyzer) : Analyzer :=
  let responses := ResponseToScareEvents (interactionAnalysis a) in
  let total := map_fold (fun _ response acc => acc + response) 0 responses in
  let count := size responses in
  let a2 :=
    if (0 <? count)%nat then
      let avgResponse := total / float64_of_int (Z.of_nat count) in
      let a1 :=
        if Qltb avgResponse (3 # 10)
        then addPattern a
               (mkPlayerPattern "fearless"
                  "Игрок слабо реагирует на пугающие события"
                  ((8 # 10) - avgResponse))
        else a in
      if Qgtb avgResponse (7 # 10)
      then addPattern a1
             (mkPlayerPattern "easily_scared"
                "Игрок сильно реагирует на пугающие события"
                ((7 # 10) + avgResponse))
      else a1
    else a in
  let a3 :=
    match responses !! EventSuddenNoise with
    | Some response =>
        if Qgtb response (8 # 10)
        then addPattern a2
               (mkPlayerPattern "startles_easily"
                  "Игрок особенно чувствителен к внезапным звукам"
                  ((7 # 10) + response))
        else a2
    | None => a2
    end in
  match responses !! EventCreatureAppearance with
  | Some response =>
      if Qgtb response (8 # 10)
      then addPattern a3
             (mkPlayerPattern "monster_phobia"
                "Игрок особенно боится встреч с существами"
                ((7 # 10) + response))
      else a3
  | None => a3
  end.

(** [Analyzer.detectPatterns]: the list of the previous cycle is dropped
    first. *)
Definition detectPatterns (a : Analyzer) : Analyzer :=
  let a0 := set_detectedPatterns a [] in
  let a1 := detectMovementPatterns a0 in
  let a2 := detectInteractionPatterns a1 in
  let a3 := detectFearResponsePatterns a2 in
  set_detectedPatterns a3 (sortSliceDesc Weight (detectedPatterns a3)).

(** ** Director *)

Record ScareEvent := mkScareEvent {
  SType : ScareEventType;
  SIntensity : Q;
  SPosition : Vector2D;
  SDuration : Duration;
  CreatureType : string;
  STimestamp : Z
}.

(** The two effects that the Director has on the world. *)
Inductive WorldEffect :=
  | SpawnCreature (creatureType : string) (position : Vector2D)
  | ModifyEnvironment (position : Vector2D) (intensity : Q).

(** The [world interface{}] of the Director: which of the two methods the
    dynamic value has, and the calls made so far. *)
Record World := mkWorld {
  hasSpawnCreature : bool;
  hasModifyEnvironment : bool;
  effects : list WorldEffect
}.

Record Director := mkDirector {
  dplayer : option Player;
  world : World;
  scareHistory : list ScareEvent;
  scareEffectiveness : gmap ScareEventType Q;
  mood : Q;
  tension : Q
}.

(** [Director.shouldCreateScareEvent].  [now] is the instant [time.Since]
    reads and [draw] the value of [rand.Float64()]. *)
Definition shouldCreateScareEvent (d : Director) (now : Z) (draw : Q) : bool :=
  let baseChance := tension d * (1 # 10) in
  let baseChance :=
    match last (scareHistory d) with
    | Some lastScare =>
        let timeSinceLast := Time_Sub now (STimestamp lastScare) in
        let baseChance :=
          if (30 * Second <? timeSinceLast)%Z then baseChance + (1 # 10)
          else baseChance in
        if (60 * Second <? timeSinceLast)%Z then baseChance + (2 # 10)
        else baseChance
    | None => baseChance + (3 # 10)
    end in
  Qltb draw baseChance.

(** [Director.executeScareEvent]. *)
Definition executeScareEvent (d : Director) (event : ScareEvent) : option Director :=
  let history := scareHistory d ++ [event] in
  let w := world d in
  let w' :=
    match SType event with
    | EventCreatureAppearance =>
        if hasSpawnCreature w
        then mkWorld (hasSpawnCreature w) (hasModifyEnvironment w)
               (effects w ++ [SpawnCreature (CreatureType event) (SPosition event)])
        else w
    | EventEnvironmentChange =>
        if hasModifyEnvironment w
        then mkWorld (hasSpawnCreature w) (hasModifyEnvironment w)
               (effects w ++ [ModifyEnvironment (SPosition event) (SIntensity event)])
        else w
    | _ => w
    end in
  match dplayer d with
  | None => None
  | Some p =>
      Some (mkDirector (Some (ReduceSanity p (SIntensity event * 5))) w' history
              (scareEffectiveness d) (mood d) (tension d))
  end.

(** [Director.updateMoodAndTension]. *)
Definition updateMoodAndTension (d : Director) : Director :=
  let t := tension d + (1 # 100) in
  mkDirector (dplayer d) (world d) (scareHistory d) (scareEffectiveness d)
    (mood d) (if Qgtb t 1 then 1 else t).

(** [NewDirector]. *)
Definition NewDirector (p : option Player) (w : World) : Director :=
  mkDirector p w [] ∅ (3 # 10) (1 # 10).

(** ** The statements of the specification *)

(** The chance of a scare in the words of the specification: a tenth of the
    tension, plus 0.1 after more than 30 seconds without a scare and 0.2
    more after more than 60 seconds, or plus 0.3 when there has been no
    scare at all.  [sinceLast] is the time since the last scare, if any. *)
Definition spec_baseChance (tension : Q) (sinceLast : option Duration) : Q :=
  tension * (1 # 10)
  + match sinceLast with
    | None => 3 # 10
    | Some t =>
        (if (30 * Second <? t)%Z then 1 # 10 else 0)
        + (if (60 * Second <? t)%Z then 2 # 10 else 0)
    end.

(** The time since the last scare of the history, at the instant [now]. *)
Definition timeSinceLastScare (d : Director) (now : Z) : option Duration :=
  match last (scareHistory d) with
  | Some lastScare => Some (Time_Sub now (STimestamp lastScare))
  | None => None
  end.

(** [clamp(x, lo, hi)] in the words of the specification. *)
Definition spec_clamp (x lo hi : Q) : Q := Qmax lo (Qmin hi x).

(** The intensity of a recommendation in the words of the specification. *)
Definition spec_intensity (fearValue sanity : Q) : Q :=
  spec_clamp (fearValue * (1 + (1 - sanity / 100))) (3 # 10) 1.

(** The range that the sources document for the strength of a response
    ([StrengthOfFear], "from 0 to 1"), and the range of the fear profile. *)
Definition unit_strengths (rs : gmap FearType (list FearResponse)) : Prop :=
  forall k l, rs !! k = Some l ->
              Forall (fun r => 0 <= StrengthOfFear r /\ StrengthOfFear r <= 1) l.

Definition unit_profile (fp : gmap FearType Q) : Prop :=
  forall k v, fp !! k = Some v -> 0 <= v /\ v <= 1.

(** What the specification requires of a recommendation made from the
    Observer [o]: the clamped intensity for the fear it targets. *)
Definition intensity_ok (o : ObserverSystem) (rec : ScareRecommendation) : Prop :=
  Intensity rec
  == spec_intensity (profileGet (fearProfile o) (FearTarget rec))
       (CurrentSanity (context o))
  /\ 3 # 10 <= Intensity rec /\ Intensity rec <= 1.

(** An event whose payload lacks the field that its handler requires, or
    has a value of another type there: the position of a movement, the
    source of a damage, the numeric value of a sanity change, the target of
    an interaction, the scare type of a scare. *)
Definition malformed (data : EventData) : Prop :=
  match Type_ data with
  | EventPlayerMoved => asVector2D (EPosition data) = None
  | EventPlayerDamaged => Source data = Nil
  | EventPlayerSanityChanged => asFloat64 (Value data) = None
  | EventPlayerInteracted => Target data = Nil
  | EventScareTriggered =>
      asScareEventType (mapIndex (Custom data) "scareType") = None
  | _ => False
  end.

(** The history of one kind of fear: a missing key reads as the empty
    slice. *)
Definition responsesOf (m : gmap FearType (list FearResponse)) (k : FearType) :
    list FearResponse :=
  match m !! k with Some l => l | None => [] end.

(** ** Sample inputs *)

Definition samplePlayer : Player := mkPlayer (mkVector2D 128 128) 100 100.

(** The Observer at startup. *)
Definition observer0 : ObserverSystem :=
  Initialize (NewObserverSystem samplePlayer).

(** [n] movements, numbered by their timestamps. *)
Definition sampleActions (n : nat) : list PlayerAction :=
  (fun i : nat =>
     mkPlayerAction ActionMove (mkVector2D (inject_Z (Z.of_nat i)) 0)
       zeroVector2D Nil (Z.of_nat i) ∅) <$> seq 0 n.

(** [n] responses, alternately to gore and to darkness. *)
Definition sampleResponses (n : nat) : list FearResponse :=
  (fun i : nat =>
     mkFearResponse (if Nat.even i then FearGore else FearDarkness)
       (inject_Z (Z.of_nat i) / 100) [] 0 0 0%Z 0) <$> seq 0 n.

(** Ten actions: six moves, three runs and one hiding. *)
Definition sampleMixedActions : list PlayerAction :=
  (fun t => mkPlayerAction t zeroVector2D zeroVector2D Nil 0%Z ∅)
    <$> [ActionMove; ActionRun; ActionMove; ActionHide; ActionMove;
         ActionRun; ActionMove; ActionMove; ActionRun; ActionMove].

(** A creature appears, at full intensity. *)
Definition sampleScare : EventData :=
  NewScareEvent (ScareType EventCreatureAppearance) Nil
    (EntityVector2D (mkVector2D 130 128)) 1 0%Z.

(** The sanity of the player falls from 80 to 30. *)
Definition sampleSanityDrop : EventData :=
  NewPlayerSanityChangedEvent PlayerPtr 80 30 0%Z.

(** An Analyzer whose movement analysis shows an explorer that never
    repeats a path, and the movement analysis of the next cycle, with a
    path repetition of 1. *)
Definition sampleAnalyzer : Analyzer :=
  mkAnalyzer []
    (mkMovementAnalysis (18 # 10) 20 600 0 [])
    (mkInteractionAnalysis (2 # 10) ∅ 0 0).

Definition sampleNextMovement : MovementAnalysis :=
  mkMovementAnalysis (18 # 10) 20 600 1 [].

(** ** Further operations: the event queue *)

(** The queue of the [EventManager].  The listeners are those of the
    Observer ([onEvent]); the mutex has no effect on one thread. *)
Record EventManager := mkEventManager {
  queuedEvents : list EventData
}.

(** [NewEventManager]. *)
Definition NewEventManager : EventManager := mkEventManager [].

(** [EventManager.TriggerWithData]. *)
Definition TriggerWithData (em : EventManager) (data : EventData) : EventManager :=
  mkEventManager (queuedEvents em ++ [data]).

(** [EventManager.Trigger]: the payload map is a fresh, empty map. *)
Definition Trigger (em : EventManager) (eventType : EventType)
    (source target position value : Any) (now : Z) : EventManager :=
  TriggerWithData em
    (mkEventData eventType source target position value now (Some ∅)).

(** [EventManager.TriggerCustom]: the name is written into the map of the
    caller; writing into the nil map panics. *)
Definition TriggerCustom (em : EventManager) (eventName : string)
    (source target position value : Any) (customData : CustomMap) (now : Z) :
    option EventManager :=
  match customData with
  | None => None
  | Some m =>
      Some (TriggerWithData em
              (mkEventData EventCustom source target position value now
                 (Some (<["name" := Str eventName]> m))))
  end.

(** The loop of [EventManager.ProcessEvents]: each event of the batch goes
    to the listener of its type, in the order of the queue. *)
Fixpoint dispatchEvents (o : ObserverSystem) (events : list EventData) :
    option ObserverSystem :=
  match events with
  | [] => Some o
  | data :: rest =>
      match onEvent o data with
      | None => None
      | Some o' => dispatchEvents o' rest
      end
  end.

(** [EventManager.ProcessEvents]: the queue is emptied before the batch is
    dispatched. *)
Definition ProcessEvents (em : EventManager) (o : ObserverSystem) :
    option (EventManager * ObserverSystem) :=
  match dispatchEvents o (queuedEvents em) with
  | None => None
  | Some o' => Some (mkEventManager [], o')
  end.

(** ** Further operations: the Observer *)

Definition ActionType_ord (a : ActionType) : nat :=
  match a with
  | ActionMove => 0 | ActionRun => 1 | ActionHide => 2 | ActionInteract => 3
  | ActionAttack => 4 | ActionInvestigate => 5 | ActionRetreat => 6
  | ActionFreeze => 7
  end%nat.

Definition ActionType_of_ord (n : nat) : option ActionType :=
  match n with
  | 0 => Some ActionMove | 1 => Some ActionRun | 2 => Some ActionHide
  | 3 => Some ActionInteract | 4 => Some ActionAttack
  | 5 => Some ActionInvestigate | 6 => Some ActionRetreat
  | 7 => Some ActionFreeze | _ => None
  end%nat.

#[global] Instance ActionType_countable : Countable ActionType.
Proof.
  refine (inj_countable ActionType_ord ActionType_of_ord _).
  intros a; destruct a; reflexivity.
Defined.

(** The loop [for actionType := ActionMove; actionType <= ActionFreeze; actionType++]. *)
Definition allActionTypes : list ActionType :=
  [ActionMove; ActionRun; ActionHide; ActionInteract;
   ActionAttack; ActionInvestigate; ActionRetreat; ActionFreeze].

(** [for k, v := range m]: Go visits every entry once, in an order that it
    does not specify.  [order] is the order in which the keys are visited. *)
Definition rangeMap {K V} `{Countable K} (order : list K) (m : gmap K V) :
    list (K * V) :=
  omap (fun k => match m !! k with Some v => Some (k, v) | None => None end) order.

(** The loop of [getDominantReactorType] and of [GetDominantFear]: the key
    of the first value above every value before it, starting from -1. *)
Definition dominantStep {K} (acc : Q * K) (entry : K * Q) : Q * K :=
  if Qgtb (snd entry) (fst acc) then (snd entry, fst entry) else acc.

Definition dominantOf {K} (start : K) (entries : list (K * Q)) : K :=
  snd (fold_left dominantStep entries (- (1), start)).

(** [ObserverSystem.getDominantReactorType]. *)
Definition getDominantReactorType (order : list ReactorType) (o : ObserverSystem) :
    ReactorType :=
  dominantOf ReactorCautious (rangeMap order (reactorProfile o)).

(** [ObserverSystem.GetDominantFear]. *)
Definition GetDominantFear (order : list FearType) (o : ObserverSystem) : FearType :=
  dominantOf FearUnknown (rangeMap order (fearProfile o)).

(** The fields of [ObserverSystem] beside those of the record above. *)
Record ObserverClock := mkObserverClock {
  lastObservationTime : Z;
  observationInterval : Duration;
  predictedActions : gmap ActionType Q
}.

(** The values that [NewObserverSystem] gives them, at the instant [now]. *)
Definition NewObserverClock (now : Z) : ObserverClock :=
  mkObserverClock now (5 * Second)%Z ∅.

(** [ObserverSystem.predictActions]. *)
Definition predictActions (order : list ReactorType) (o : ObserverSystem)
    (predicted : gmap ActionType Q) : gmap ActionType Q :=
  let p := fold_left (fun m a => <[a := 0]> m) allActionTypes predicted in
  match getDominantReactorType order o with
  | ReactorCautious =>
      <[ActionInvestigate := 1 # 10]>
        (<[ActionMove := 2 # 10]>
           (<[ActionRetreat := 3 # 10]> (<[ActionHide := 4 # 10]> p)))
  | ReactorBold =>
      <[ActionInteract := 1 # 10]>
        (<[ActionMove := 2 # 10]>
           (<[ActionAttack := 3 # 10]> (<[ActionInvestigate := 4 # 10]> p)))
  | ReactorPanic =>
      <[ActionRetreat := 2 # 10]>
        (<[ActionFreeze := 3 # 10]> (<[ActionRun := 5 # 10]> p))
  | ReactorMethodical =>
      <[ActionHide := 1 # 10]>
        (<[ActionMove := 2 # 10]>
           (<[ActionInteract := 3 # 10]> (<[ActionInvestigate := 4 # 10]> p)))
  | ReactorReckless =>
      <[ActionInvestigate := 1 # 10]>
        (<[ActionMove := 2 # 10]>
           (<[ActionAttack := 3 # 10]> (<[ActionRun := 4 # 10]> p)))
  | ReactorHesitant =>
      <[ActionHide := 1 # 10]>
        (<[ActionRetreat := 2 # 10]>
           (<[ActionMove := 3 # 10]> (<[ActionFreeze := 4 # 10]> p)))
  end.

(** [ObserverSystem.AnalyzePlayerBehavior]. *)
Definition AnalyzePlayerBehavior (order : list ReactorType)
    (st : ObserverSystem * ObserverClock) : ObserverSystem * ObserverClock :=
  let o := analyzeFearProfile (analyzeReactorProfile (fst st)) in
  let c := snd st in
  (o, mkObserverClock (lastObservationTime c) (observationInterval c)
        (predictActions order o (predictedActions c))).

(** [ObserverSystem.GetScareRecommendation]: [None] is the nil pointer. *)
Definition GetScareRecommendation (o : ObserverSystem) : option ScareRecommendation :=
  match recommendedScares o with
  | [] => None
  | best :: _ => Some best
  end.

Section ObserverUpdate.

Variable math_Exp : Q -> Q.

(** [ObserverSystem.Update] at the instant [now]. *)
Definition Update (order : list ReactorType) (rnd : Z) (now : Z)
    (st : ObserverSystem * ObserverClock) : option (ObserverSystem * ObserverClock) :=
  let c := snd st in
  if (observationInterval c <=? Time_Sub now (lastObservationTime c))%Z then
    let st1 := AnalyzePlayerBehavior order st in
    match GenerateScareRecommendations math_Exp (fst st1) rnd with
    | None => None
    | Some o2 =>
        Some (updateContext o2,
              mkObserverClock now (observationInterval (snd st1))
                (predictedActions (snd st1)))
    end
  else Some (updateContext (fst st), c).

(** Successive calls of [Update]; each call has its iteration order, its
    random number and its instant. *)
Fixpoint Updates (calls : list (list ReactorType * Z * Z))
    (st : ObserverSystem * ObserverClock) : option (ObserverSystem * ObserverClock) :=
  match calls with
  | [] => Some st
  | (order, rnd, now) :: rest =>
      match Update order rnd now st with
      | None => None
      | Some st' => Updates rest st'
      end
  end.

End ObserverUpdate.

(** The bounds of the two histories. *)
Definition historiesBounded (o : ObserverSystem) : Prop :=
  (length (playerActions o) <= maxActions)%nat
  /\ forall k, (length (responsesOf (fearResponses o) k) <= maxResponses)%nat.

(** The kinds of fear that an event can be recorded for. *)
Definition recordableFear (k : FearType) : Prop :=
  k = FearCreatures \/ k = FearUnknown \/ k = FearIsolation \/ k = FearSuddenNoises.

(** A list that does not increase along [key]. *)
Definition descendingBy {A} (key : A -> Q) (l : list A) : Prop :=
  forall i j x y, (i <= j)%nat -> l !! i = Some x -> l !! j = Some y ->
                  key y <= key x.

(** ** Further operations: the player *)

Module entity.

(** [entity.PlayerAction]. *)
Inductive PlayerAction := ActionMove | ActionInteract | ActionRun | ActionHide.

#[global] Instance PlayerAction_eq_dec : EqDecision PlayerAction.
Proof. solve_decision. Defined.

Record PlayerActionRecord := mkPlayerActionRecord {
  Action : PlayerAction;
  Timestamp : Z;
  RecordPosition : Vector2D;
  InteractionType : string
}.





(** [Player.TakeDamage]. *)
Definition TakeDamage (p : Player) (amount : Q) : Player :=
  let h := Health p - amount in
  mkPlayer (Position p) (if Qltb h 0 then 0 else h) (Sanity p).


Section Motion.

(** [math.Cos], [math.Sin] and [math.Pi] are parameters. *)
Variables math_Cos math_Sin : Q -> Q.
Variable math_Pi : Q.







End Motion.

End entity.

(** ** Further operations: the Director *)

Record BehaviorPattern := mkBehaviorPattern {
  MovementPreference : Q;
  ExplorationPreference : Q;
  RiskTolerance : Q;
  ReactivityToScares : Q;
  PreferredInteractions : list string
}.

(** The fields of [Director] beside those of the record above. *)
Record DirectorMind := mkDirectorMind {
  playerBehavior : BehaviorPattern;
  lastAnalysisTime : Z
}.

(** The values that [NewDirector] gives them, at the instant [now]. *)
Definition NewDirectorMind (now : Z) : DirectorMind :=
  mkDirectorMind (mkBehaviorPattern (1 # 2) (1 # 2) (1 # 2) (1 # 2) []) now.


(** [common.VectorFromEntity]: the argument is returned when its dynamic
    type is [common.Vector2D]; no value of [Any] has that type, and an
    [entity.Vector2D] gives the zero vector. *)
Definition VectorFromEntity (vec : Any) : Vector2D :=
  match vec with
  | EntityVector2D _ => zeroVector2D
  | _ => zeroVector2D
  end.

(** The random numbers of one call of [createScareEvent]: [rand.Intn(6)]
    of [chooseEventType], [rand.Float64()] of the intensity, [rand.Intn(5)]
    of the duration, [rand.Intn(6)] of [chooseCreatureType], and
    [rand.Float64()] of the angle and of the distance. *)
Record ScareDraws := mkScareDraws {
  kindDraw : Z;
  intensityDraw : Q;
  durationDraw : Z;
  creatureDraw : Z;
  angleDraw : Q;
  distanceDraw : Q
}.

(** [common.ScareEventType(n)] for a number of the enumeration. *)
Definition ScareEventType_of_Z (n : Z) : option ScareEventType :=
  if (n <? 0)%Z then None else ScareEventType_of_ord (Z.to_nat n).

(** [Director.chooseEventType]: both branches draw a number below 6. *)
Definition chooseEventType (d : Director) (n : Z) : option ScareEventType :=
  if (size (scareEffectiveness d) =? 0)%nat then ScareEventType_of_Z n
  else ScareEventType_of_Z n.

(** [Director.chooseCreatureType]. *)
Definition chooseCreatureType (n : Z) : option string :=
  let creatureTypes :=
    ["shadow"; "spider"; "phantom"; "doppelganger"; "wendigo"; "faceless"] in
  if (n <? 0)%Z then None else creatureTypes !! Z.to_nat n.

Section DirectorEvents.

Variables math_Cos math_Sin : Q -> Q.
Variable math_Pi : Q.

(** [Director.createScareEvent] at the instant [now].  [None] is a panic,
    or a draw that [rand.Intn] does not make. *)
Definition createScareEvent (d : Director) (m : DirectorMind) (r : ScareDraws)
    (now : Z) : option ScareEvent :=
  match chooseEventType d (kindDraw r) with
  | None => None
  | Some eventType =>
      let intensity := mood d * ((7 # 10) + intensityDraw r * (3 # 10)) in
      let intensity :=
        if Qltb (ReactivityToScares (playerBehavior m)) (3 # 10)
        then intensity * (15 # 10) else intensity in
      let intensity := if Qgtb intensity 1 then 1 else intensity in
      match dplayer d with
      | None => None
      | Some p =>
          let event :=
            mkScareEvent eventType intensity
              (VectorFromEntity (EntityVector2D (Position p)))
              ((2 + durationDraw r) * Second)%Z "" now in
          match eventType with
          | EventCreatureAppearance =>
              match chooseCreatureType (creatureDraw r) with
              | None => None
              | Some creatureType =>
                  let angle := angleDraw r * 2 * math_Pi in
                  let distance := 10 + distanceDraw r * 20 in
                  Some (mkScareEvent eventType intensity
                          (mkVector2D
                             (X (Position p) + math_Cos angle * distance)
                             (Y (Position p) + math_Sin angle * distance))
                          (SDuration event) creatureType now)
              end
          | _ => Some event
          end
      end
  end.

(** [Director.AdjustWorld]: [fireDraw] is the random number of
    [shouldCreateScareEvent]; [modifyEnvironment] and [manageCreatures] do
    nothing. *)
Definition AdjustWorld (d : Director) (m : DirectorMind) (fireDraw : Q)
    (r : ScareDraws) (now : Z) : option Director :=
  if shouldCreateScareEvent d now fireDraw then
    match createScareEvent d m r now with
    | None => None
    | Some event => executeScareEvent d event
    end
  else Some d.

End DirectorEvents.

(** The draws that [rand.Intn] and [rand.Float64] can make. *)
Definition validDraws (r : ScareDraws) : Prop :=
  (0 <= kindDraw r < 6)%Z /\ (0 <= durationDraw r < 5)%Z
  /\ (0 <= creatureDraw r < 6)%Z
  /\ (0 <= intensityDraw r /\ intensityDraw r < 1)
  /\ (0 <= angleDraw r /\ angleDraw r < 1)
  /\ (0 <= distanceDraw r /\ distanceDraw r < 1).

(** ** Further operations: the Analyzer *)

Module analyzer.

(** The fields of [Analyzer] and of its [InteractionAnalysis] beside those
    of the records above. *)
Record Rest := mkRest {
  scareHistory : list ScareEvent;
  scareResponses : gmap ScareEventType (list Q);
  PreferredInteractions : gmap string Z
}.

(** The values that [NewAnalyzer] gives them. *)
Definition NewRest : Rest := mkRest [] ∅ ∅.

End analyzer.

(** [NewAnalyzer]. *)
Definition NewAnalyzer : Analyzer :=
  mkAnalyzer [] (mkMovementAnalysis 0 0 0 0 [])
    (mkInteractionAnalysis 0 ∅ 0 0).

Definition set_interactionAnalysis (a : Analyzer) (i : InteractionAnalysis) : Analyzer :=
  mkAnalyzer (detectedPatterns a) (movementAnalysis a) i.

(** The summing loop of [RecordScareResponse]. *)
Definition totalResponse (responses : list Q) : Q :=
  fold_left (fun total resp => total + resp) responses 0.

(** [Analyzer.RecordScareResponse]. *)
Definition RecordScareResponse (st : Analyzer * analyzer.Rest) (event : ScareEvent)
    (response : Q) : Analyzer * analyzer.Rest :=
  let a := fst st in
  let s := snd st in
  let history := analyzer.scareHistory s ++ [event] in
  let history := if (50 <? length history)%nat then lastN 50 history else history in
  let m0 :=
    match analyzer.scareResponses s !! SType event with
    | Some _ => analyzer.scareResponses s
    | None => <[SType event := []]> (analyzer.scareResponses s)
    end in
  let responses :=
    (match m0 !! SType event with Some l => l | None => [] end) ++ [response] in
  let m1 := <[SType event := responses]> m0 in
  let avgResponse :=
    totalResponse responses / float64_of_int (Z.of_nat (length responses)) in
  let i := interactionAnalysis a in
  (set_interactionAnalysis a
     (mkInteractionAnalysis (InteractionRate i)
        (<[SType event := avgResponse]> (ResponseToScareEvents i))
        (HealthLossRate i) (SanityLossRate i)),
   analyzer.mkRest history m1 (analyzer.PreferredInteractions s)).

(** The loop of [analyzeInteractions] over the action log: the number of
    interactions, and the count of each type of interaction that has a
    name.  The counters are [int]s. *)
Definition countInteraction (acc : Z * gmap string Z)
    (action : entity.PlayerActionRecord) : Z * gmap string Z :=
  match entity.Action action with
  | entity.ActionInteract =>
      (wrap64 (fst acc + 1),
       if String.eqb (entity.InteractionType action) "" then snd acc
       else
         <[entity.InteractionType action :=
             wrap64 (match snd acc !! entity.InteractionType action with
                     | Some n => n | None => 0%Z end + 1)]> (snd acc))
  | _ => acc
  end.

(** [Analyzer.analyzeInteractions].  [log] is [a.player.ActionLog], [None]
    without a player. *)
Definition analyzeInteractions (st : Analyzer * analyzer.Rest)
    (log : option (list entity.PlayerActionRecord)) :
    option (Analyzer * analyzer.Rest) :=
  match log with
  | None => None
  | Some log =>
      let totalActions := length log in
      if (totalActions =? 0)%nat then Some st
      else
        let a := fst st in
        let s := snd st in
        let r :=
          fold_left countInteraction log (0%Z, analyzer.PreferredInteractions s) in
        let i := interactionAnalysis a in
        Some (set_interactionAnalysis a
                (mkInteractionAnalysis
                   (float64_of_int (fst r) / float64_of_int (Z.of_nat totalActions))
                   (ResponseToScareEvents i) (HealthLossRate i) (SanityLossRate i)),
              analyzer.mkRest (analyzer.scareHistory s) (analyzer.scareResponses s)
                (snd r))
  end.

(** [Analyzer.GetTopPatterns]: a negative [count] is outside the slice. *)
Definition GetTopPatterns (a : Analyzer) (count : Z) : option (list PlayerPattern) :=
  let count :=
    if (Z.of_nat (length (detectedPatterns a)) <? count)%Z
    then Z.of_nat (length (detectedPatterns a)) else count in
  if (count <? 0)%Z then None
  else Some (take (Z.to_nat count) (detectedPatterns a)).

(** [makeKey]: [fmt.Sprintf("%d,%d", x, y)]. *)
Definition formatInt (n : Z) : string := NilZero.string_of_int (Z.to_int n).

Definition makeKey (x y : Z) : string :=
  String.append (formatInt x) (String.append "," (formatInt y)).

(** The rules of the detectors, by the name of the pattern. *)
Definition patternRule (a : Analyzer) (name : string) : bool :=
  let m := movementAnalysis a in
  let rate := InteractionRate (interactionAnalysis a) in
  let responses := ResponseToScareEvents (interactionAnalysis a) in
  let avgResponse :=
    map_fold (fun _ response acc => acc + response) 0 responses
    / float64_of_int (Z.of_nat (size responses)) in
  if String.eqb name "explorer"
  then Qgtb (ExplorationArea m) 500 && Qltb (PathRepetition m) 2
  else if String.eqb name "cautious"
  then Qltb (AverageSpeed m) (3 # 2) && (30 <? DirectionChanges m)%Z
  else if String.eqb name "determined"
  then Qgtb (AverageSpeed m) 2 && (DirectionChanges m <? 15)%Z
  else if String.eqb name "indecisive"
  then Qltb (ExplorationArea m) 200 && Qgtb (PathRepetition m) 3
  else if String.eqb name "interactive" then Qgtb rate (3 # 10)
  else if String.eqb name "passive" then Qltb rate (1 # 10)
  else if String.eqb name "fearless"
  then (0 <? size responses)%nat && Qltb avgResponse (3 # 10)
  else if String.eqb name "easily_scared"
  then (0 <? size responses)%nat && Qgtb avgResponse (7 # 10)
  else if String.eqb name "startles_easily"
  then match responses !! EventSuddenNoise with
       | Some response => Qgtb response (8 # 10)
       | None => false
       end
  else if String.eqb name "monster_phobia"
  then match responses !! EventCreatureAppearance with
       | Some response => Qgtb response (8 # 10)
       | None => false
       end
  else false.

(** The responses that an Analyzer holds for a type of scare: a missing key
    reads as the empty slice. *)
Definition scareResponsesOf (s : analyzer.Rest) (t : ScareEventType) : list Q :=
  match analyzer.scareResponses s !! t with Some l => l | None => [] end.

(** The responses to the scares of type [t] among recorded scares. *)
Definition responsesTo (t : ScareEventType) (records : list (ScareEvent * Q)) : list Q :=
  snd <$> filter (fun r => SType (fst r) = t) records.

(** A text without a comma. *)
Fixpoint commaFree (s : string) : Prop :=
  match s with
  | EmptyString => True
  | String c rest => c <> ","%char /\ commaFree rest
  end.

(** ** Further operations: reports of the game *)

(** [NewPlayerDamagedEvent]: the event has no payload map. *)
Definition NewPlayerDamagedEvent (player source : Any) (amount : Q) (now : Z) :
    EventData :=
  mkEventData EventPlayerDamaged source player Nil (Float64 amount) now None.

(** [NewPlayerInteractedEvent]. *)
Definition NewPlayerInteractedEvent (player target position : Any) (now : Z) :
    EventData :=
  mkEventData EventPlayerInteracted player target position Nil now None.

(** What a caller reports through the constructors of the events. *)
Inductive Report :=
  | Moved (player : Any) (oldPosition newPosition : Vector2D) (now : Z)
  | Damaged (player source : Any) (amount : Q) (now : Z)
  | Interacted (player target position : Any) (now : Z)
  | SanityChanged (player : Any) (oldValue newValue : Q) (now : Z).

(** The event that the constructor makes of a report. *)
Definition eventOf (r : Report) : EventData :=
  match r with
  | Moved player oldPosition newPosition now =>
      NewPlayerMovedEvent player (EntityVector2D oldPosition)
        (EntityVector2D newPosition) now
  | Damaged player source amount now =>
      NewPlayerDamagedEvent player source amount now
  | Interacted player target position now =>
      NewPlayerInteractedEvent player target position now
  | SanityChanged player oldValue newValue now =>
      NewPlayerSanityChangedEvent player oldValue newValue now
  end.

(** The reports are queued one after the other. *)
Definition triggerAll (em : EventManager) (reports : list Report) : EventManager :=
  fold_left (fun em r => TriggerWithData em (eventOf r)) reports em.

(** A report of damage names its source, a report of an interaction its
    target. *)
Definition reportable (r : Report) : Prop :=
  match r with
  | Damaged _ source _ _ => source <> Nil
  | Interacted _ target _ _ => target <> Nil
  | _ => True
  end.

(** The action that a report stands for, for a player at [position]. *)
Definition actionOf (position : Vector2D) (r : Report) : option PlayerAction :=
  match r with
  | Moved _ oldPosition newPosition now =>
      Some (mkPlayerAction ActionMove newPosition
              (mkVector2D (X newPosition - X oldPosition)
                 (Y newPosition - Y oldPosition))
              Nil now ∅)
  | Damaged _ source amount now =>
      Some (mkPlayerAction ActionFreeze position zeroVector2D source now
              {[ "damageAmount" := Float64 amount ]})
  | Interacted _ target _ now =>
      Some (mkPlayerAction ActionInteract position zeroVector2D target now ∅)
  | SanityChanged _ _ _ _ => None
  end.

(** The response that a report stands for: a loss of sanity. *)
Definition responseOf (r : Report) : option FearResponse :=
  match r with
  | SanityChanged player oldValue newValue _ =>
      if Qltb newValue oldValue
      then Some (mkFearResponse
                   (match player with CreaturePtr _ => FearCreatures | _ => FearUnknown end)
                   (math_Abs (newValue - oldValue) / 20) []
                   (oldValue - newValue) 0 0%Z 0)
      else None
  | _ => None
  end.

(** The calls of [Update] whose draw is one that [RangeInt(0, 6)] makes. *)
Definition validCall (call : list ReactorType * Z * Z) : Prop :=
  (0 <= snd (fst call) < 6)%Z.

(** A call of [Update] before the interval of observation has passed. *)
Definition earlyCall (c : ObserverClock) (call : list ReactorType * Z * Z) : Prop :=
  (Time_Sub (snd call) (lastObservationTime c) < observationInterval c)%Z.

(** ** Further operations: the world *)

(** [int(x)] for a [float64] [x] within the range of [int]: the fraction
    is dropped. *)
Definition int_of_float64 (x : Q) : Z := Z.quot (Qnum x) (Z.pos (Qden x)).

(** [for v := lo; v <= hi; v++], for bounds below the greatest [int]. *)
Definition rangeZ (lo hi : Z) : list Z := seqZ lo (hi - lo + 1).

(** A loop whose body may panic. *)
Fixpoint forEach {S A} (body : S -> A -> option S) (l : list A) (s : S) : option S :=
  match l with
  | [] => Some s
  | a :: rest =>
      match body s a with
      | None => None
      | Some s' => forEach body rest s'
      end
  end.

(** The numbers that an [int] holds, short of the greatest one. *)
Definition fitsInt (x : Q) : Prop :=
  inject_Z (- 2 ^ 63) < x /\ x < inject_Z (2 ^ 63 - 1).

Module world.

Inductive TileType :=
  | TileGrass | TileForest | TileDenseForest | TilePath
  | TileRocks | TileWater | TileSwamp | TileCorrupted.

(** A [Tile], without its objects. *)
Record Tile := mkTile {
  Type_ : TileType;
  Elevation : Q;
  Moisture : Q;
  Corruption : Q
}.

(** An [Entity], without its model and its behavior. *)
Record Entity := mkEntity {
  ID : Z;
  EntityType : string;
  EntityPosition : Vector2D;
  Direction : Q
}.

(** The fields of [World] that [SpawnCreature] and [ModifyEnvironment] read
    or write. *)
Record World := mkWorld {
  Width : Z;
  Height : Z;
  Tiles : list (list Tile);
  Entities : list Entity;
  nextID : Z
}.

(** [w.Tiles[y][x]] for indices that are not negative; [None] outside the
    slices. *)
Definition tileAt (w : World) (x y : Z) : option Tile :=
  match Tiles w !! Z.to_nat y with
  | Some row => row !! Z.to_nat x
  | None => None
  end.

(** [World.SpawnCreature]: [draw] is the value of [rand.Float64()]. *)
Definition SpawnCreature (math_Pi : Q) (w : World) (creatureType : string)
    (position : Vector2D) (draw : Q) : World * Entity :=
  let entity := mkEntity (nextID w) creatureType position (draw * 2 * math_Pi) in
  (mkWorld (Width w) (Height w) (Tiles w) (Entities w ++ [entity])
     (wrap64 (nextID w + 1)),
   entity).

(** What [ModifyEnvironment] does to a tile within the radius. *)
Definition corrupt (position : Vector2D) (intensity radiusSq : Q) (x y : Z)
    (tile : Tile) : Tile :=
  let dx := float64_of_int x - X position in
  let dy := float64_of_int y - Y position in
  let distSq := dx * dx + dy * dy in
  let strength := (1 - distSq / radiusSq) * intensity in
  let c := Corruption tile + strength * (3 # 10) in
  let c := if Qgtb c 1 then 1 else c in
  mkTile (if Qgtb c (7 # 10) then TileCorrupted else Type_ tile)
    (Elevation tile) (Moisture tile) c.

(** The body of the two loops of [ModifyEnvironment]. *)
Definition modifyTile (position : Vector2D) (intensity radiusSq : Q) (y : Z)
    (w : World) (x : Z) : option World :=
  if (x <? 0)%Z || (y <? 0)%Z || (Width w <=? x)%Z || (Height w <=? y)%Z
  then Some w
  else
    let dx := float64_of_int x - X position in
    let dy := float64_of_int y - Y position in
    let distSq := dx * dx + dy * dy in
    if Qle_bool distSq radiusSq then
      match Tiles w !! Z.to_nat y with
      | None => None
      | Some row =>
          match row !! Z.to_nat x with
          | None => None
          | Some tile =>
              Some (mkWorld (Width w) (Height w)
                      (<[Z.to_nat y :=
                           <[Z.to_nat x := corrupt position intensity radiusSq x y tile]>
                             row]> (Tiles w))
                      (Entities w) (nextID w))
          end
      end
    else Some w.

(** [World.ModifyEnvironment]. *)
Definition ModifyEnvironment (w : World) (position : Vector2D) (intensity : Q) :
    option World :=
  let radius := 10 + intensity * 20 in
  let radiusSq := radius * radius in
  forEach
    (fun w y =>
       forEach (modifyTile position intensity radiusSq y)
         (rangeZ (int_of_float64 (X position - radius))
            (int_of_float64 (X position + radius)))
         w)
    (rangeZ (int_of_float64 (Y position - radius))
       (int_of_float64 (Y position + radius)))
    w.

(** A world whose slices of tiles have the size that [NewWorld] gives
    them. *)
Definition wellFormed (w : World) : Prop :=
  (0 <= Width w)%Z /\ (0 <= Height w)%Z
  /\ length (Tiles w) = Z.to_nat (Height w)
  /\ Forall (fun row => length row = Z.to_nat (Width w)) (Tiles w).

(** The square of the distance from the tile [(x, y)] to [position]. *)
Definition distSq (position : Vector2D) (x y : Z) : Q :=
  (float64_of_int x - X position) * (float64_of_int x - X position)
  + (float64_of_int y - Y position) * (float64_of_int y - Y position).

(** The tile at the indices [(i, j)] of the slices. *)
Definition cell (w : World) (k : nat * nat) : option Tile :=
  match Tiles w !! snd k with
  | Some row => row !! fst k
  | None => None
  end.

(** The iteration [(x, y)] of [ModifyEnvironment] writes the tile at the
    indices [k]. *)
Definition writes (w0 : World) (position : Vector2D) (radiusSq : Q)
    (y x : Z) (k : nat * nat) : bool :=
  negb ((x <? 0)%Z || (y <? 0)%Z || (Width w0 <=? x)%Z || (Height w0 <=? y)%Z)
  && Qle_bool (distSq position x y) radiusSq
  && (Z.to_nat x =? fst k)%nat && (Z.to_nat y =? snd k)%nat.

(** The world [w] has the size, the entities and the next identifier of
    [w0], and slices of tiles of that size. *)
Definition sameShape (w0 w : World) : Prop :=
  wellFormed w /\ Width w = Width w0 /\ Height w = Height w0
  /\ Entities w = Entities w0 /\ nextID w = nextID w0.

(** [corrupt] on the tile at the indices [k], if there is one. *)
Definition corruptCell (position : Vector2D) (intensity radiusSq : Q)
    (k : nat * nat) (v : option Tile) : option Tile :=
  corrupt position intensity radiusSq (Z.of_nat (fst k)) (Z.of_nat (snd k)) <$> v.

(** Successive calls of [SpawnCreature]: each has its type of creature, its
    position and its random number. *)
Definition spawnAll (math_Pi : Q) (w : World)
    (requests : list (string * Vector2D * Q)) : World :=
  fold_left (fun w r => fst (SpawnCreature math_Pi w (fst (fst r)) (snd (fst r)) (snd r)))
    requests w.

(** The identifiers of the entities are distinct and below the next
    identifier. *)
Definition uniqueIDs (w : World) : Prop :=
  NoDup (ID <$> Entities w) /\ Forall (fun e => (ID e < nextID w)%Z) (Entities w).

(** A world of [width] by [height] tiles of grass, as [NewWorld] makes it
    before the terrain is generated. *)
Definition blank (width height : nat) : World :=
  mkWorld (Z.of_nat width) (Z.of_nat height)
    (replicate height (replicate width (mkTile TileGrass 0 0 0))) [] 1.

End world.

(** ** Further operations: the positions of the player *)

(** The fields of [Analyzer] that record the positions of the player. *)
Record Tracker := mkTracker {
  positionHistory : list Vector2D;
  areaVisits : gmap string Z;
  sectorsExplored : gmap string bool;
  sectorSize : Q
}.

(** The values that [NewAnalyzer] gives them. *)
Definition NewTracker : Tracker := mkTracker [] ∅ ∅ 5.

(** The key of the sector of a position. *)
Definition sectorKey (size : Q) (position : Vector2D) : string :=
  makeKey (int_of_float64 (X position / size)) (int_of_float64 (Y position / size)).

(** [Analyzer.recordPlayerPosition]: reads [a.player.Position]. *)
Definition recordPlayerPosition (t : Tracker) (player : option Player) :
    option Tracker :=
  match player with
  | None => None
  | Some p =>
      let history := positionHistory t ++ [Position p] in
      let history :=
        if (1000 <? length history)%nat then lastN 1000 history else history in
      let key := sectorKey (sectorSize t) (Position p) in
      let visits := match areaVisits t !! key with Some n => n | None => 0%Z end in
      Some (mkTracker history
              (<[key := wrap64 (visits + 1)]> (areaVisits t))
              (<[key := true]> (sectorsExplored t))
              (sectorSize t))
  end.

(** Successive calls of [recordPlayerPosition]; the player is at
    one position after the other. *)
Fixpoint recordPositions (t : Tracker) (players : list (option Player)) :
    option Tracker :=
  match players with
  | [] => Some t
  | player :: rest =>
      match recordPlayerPosition t player with
      | None => None
      | Some t' => recordPositions t' rest
      end
  end.

(** [Analyzer.calculatePathRepetition]. *)
Definition calculatePathRepetition (t : Tracker) (m : MovementAnalysis) :
    MovementAnalysis :=
  let totalSectors := size (sectorsExplored t) in
  if (totalSectors =? 0)%nat then
    mkMovementAnalysis (AverageSpeed m) (DirectionChanges m) (ExplorationArea m)
      0 (PreferredAreas m)
  else
    let totalVisits :=
      map_fold (fun _ count total => wrap64 (total + count)) 0%Z (areaVisits t) in
    let avgVisits :=
      float64_of_int totalVisits / float64_of_int (Z.of_nat totalSectors) in
    mkMovementAnalysis (AverageSpeed m) (DirectionChanges m) (ExplorationArea m)
      (math_Max 0 (avgVisits - 1)) (PreferredAreas m).

(** The number of the positions that lie in the sector of a key. *)
Definition visitsOf (size : Q) (key : string) (positions : list Vector2D) : Z :=
  Z.of_nat (length (filter (fun p => sectorKey size p = key) positions)).

(** The sum of the counts of a map. *)
Definition sumOf (m : gmap string Z) : Z :=
  map_fold (fun _ count total => (total + count)%Z) 0%Z m.

(** The state after the positions [positions] have been recorded. *)
Definition tracks (positions : list Vector2D) (t : Tracker) : Prop :=
  positionHistory t = lastN 1000 positions
  /\ sectorSize t = 5
  /\ (forall key,
         areaVisits t !! key
         = if (visitsOf 5 key positions =? 0)%Z then None
           else Some (visitsOf 5 key positions))
  /\ (forall key,
         sectorsExplored t !! key
         = if (visitsOf 5 key positions =? 0)%Z then None else Some true)
  /\ sumOf (areaVisits t) = Z.of_nat (length positions)
  /\ size (sectorsExplored t) = size (areaVisits t).

(** ** Further operations: the listeners *)

Definition EventType_ord (t : EventType) : nat :=
  match t with
  | EventPlayerMoved => 0 | EventPlayerDamaged => 1 | EventPlayerInteracted => 2
  | EventPlayerSanityChanged => 3 | EventCreatureSpawned => 4
  | EventCreatureKilled => 5 | EventCreatureDetected => 6 | EventWorldChanged => 7
  | EventScareTriggered => 8 | EventItemPickedUp => 9 | EventItemUsed => 10
  | EventAmbientChanged => 11 | EventGameStateChanged => 12 | EventCustom => 13
  end%nat.

Definition EventType_of_ord (n : nat) : option EventType :=
  match n with
  | 0 => Some EventPlayerMoved | 1 => Some EventPlayerDamaged
  | 2 => Some EventPlayerInteracted | 3 => Some EventPlayerSanityChanged
  | 4 => Some EventCreatureSpawned | 5 => Some EventCreatureKilled
  | 6 => Some EventCreatureDetected | 7 => Some EventWorldChanged
  | 8 => Some EventScareTriggered | 9 => Some EventItemPickedUp
  | 10 => Some EventItemUsed | 11 => Some EventAmbientChanged
  | 12 => Some EventGameStateChanged | 13 => Some EventCustom
  | _ => None
  end%nat.

#[global] Instance EventType_eq_dec : EqDecision EventType.
Proof. solve_decision. Defined.

#[global] Instance EventType_countable : Countable EventType.
Proof.
  refine (inj_countable EventType_ord EventType_of_ord _).
  intros t; destruct t; reflexivity.
Defined.

(** An [EventCallback]: a function that acts on the state [S] that it has
    captured; [None] is a panic. *)
Definition EventCallback (S : Type) : Type := S -> EventData -> option S.

(** The two tables of listeners of the [EventManager]. *)
Record Listeners (S : Type) := mkListeners {
  listeners : gmap EventType (list (EventCallback S));
  customListeners : gmap string (list (EventCallback S))
}.

Arguments mkListeners {S} _ _.
Arguments listeners {S} _.
Arguments customListeners {S} _.

(** The tables of [NewEventManager]. *)
Definition NewListeners {S} : Listeners S := mkListeners ∅ ∅.

(** [EventManager.AddListener]. *)
Definition AddListener {S} (em : Listeners S) (eventType : EventType)
    (callback : EventCallback S) : Listeners S :=
  let m :=
    match listeners em !! eventType with
    | Some _ => listeners em
    | None => <[eventType := []]> (listeners em)
    end in
  mkListeners
    (<[eventType := (match m !! eventType with Some l => l | None => [] end)
                    ++ [callback]]> m)
    (customListeners em).

(** [EventManager.AddCustomListener]. *)
Definition AddCustomListener {S} (em : Listeners S) (eventName : string)
    (callback : EventCallback S) : Listeners S :=
  let m :=
    match customListeners em !! eventName with
    | Some _ => customListeners em
    | None => <[eventName := []]> (customListeners em)
    end in
  mkListeners (listeners em)
    (<[eventName := (match m !! eventName with Some l => l | None => [] end)
                    ++ [callback]]> m).

(** The variables of [RemoveListener] whose addresses are compared: the
    parameter [callback] and the variable [cb] of the loop, in the
    iteration [i]. *)
Inductive LocalVar := VarCallback | VarCb (i : nat).

#[global] Instance LocalVar_eq_dec : EqDecision LocalVar.
Proof. solve_decision. Defined.

(** [&x == &y]: two pointers are equal when they point to the same
    variable. *)
Definition sameAddress (x y : LocalVar) : bool := bool_decide (x = y).

(** The loop of [RemoveListener] from the iteration [i] on: the slice
    [append(listeners[:i], listeners[i+1:]...)] that is assigned before the
    [break], when the addresses are equal in some iteration. *)
Fixpoint removeLoop {A} (i : nat) (rest all : list A) : option (list A) :=
  match rest with
  | [] => None
  | _ :: rest' =>
      if sameAddress (VarCb i) VarCallback
      then Some (take i all ++ drop (S i) all)
      else removeLoop (S i) rest' all
  end.

(** [EventManager.RemoveListener]. *)
Definition RemoveListener {S} (em : Listeners S) (eventType : EventType)
    (callback : EventCallback S) : Listeners S :=
  match listeners em !! eventType with
  | Some l =>
      match removeLoop 0 l l with
      | Some l' => mkListeners (<[eventType := l']> (listeners em)) (customListeners em)
      | None => em
      end
  | None => em
  end.

(** [EventManager.RemoveCustomListener]. *)
Definition RemoveCustomListener {S} (em : Listeners S) (eventName : string)
    (callback : EventCallback S) : Listeners S :=
  match customListeners em !! eventName with
  | Some l =>
      match removeLoop 0 l l with
      | Some l' => mkListeners (listeners em) (<[eventName := l']> (customListeners em))
      | None => em
      end
  | None => em
  end.

(** [x, ok := v.(string)]. *)
Definition asString (v : Any) : option string :=
  match v with Str s => Some s | _ => None end.

(** The callbacks are called one after the other. *)
Definition callAll {S} (callbacks : list (EventCallback S)) (data : EventData)
    (s : S) : option S :=
  forEach (fun s callback => callback s data) callbacks s.

(** [EventManager.dispatchEvent]. *)
Definition dispatchEvent {S} (em : Listeners S) (data : EventData) (s : S) :
    option S :=
  let s1 :=
    match listeners em !! Type_ data with
    | Some l => callAll l data s
    | None => Some s
    end in
  match s1 with
  | None => None
  | Some s1 =>
      match Type_ data with
      | EventCustom =>
          match asString (mapIndex (Custom data) "name") with
          | Some eventName =>
              match customListeners em !! eventName with
              | Some l => callAll l data s1
              | None => Some s1
              end
          | None => Some s1
          end
      | _ => Some s1
      end
  end.

(** [ObserverSystem.subscribeToEvents]: [None] is the nil event manager. *)
Definition subscribeToEvents (em : option (Listeners ObserverSystem)) :
    option (Listeners ObserverSystem) :=
  match em with
  | None => None
  | Some em =>
      let em := AddListener em EventPlayerMoved recordMovement in
      let em := AddListener em EventPlayerDamaged recordDamage in
      let em := AddListener em EventPlayerSanityChanged recordSanityChange in
      let em := AddListener em EventPlayerInteracted recordInteraction in
      Some (AddListener em EventScareTriggered recordScareResponse)
  end.

(** Calls that take listeners away. *)
Inductive Removal (S : Type) :=
  | Remove (eventType : EventType) (callback : EventCallback S)
  | RemoveCustom (eventName : string) (callback : EventCallback S).

Arguments Remove {S} _ _.
Arguments RemoveCustom {S} _ _.

Definition removeAll {S} (em : Listeners S) (removals : list (Removal S)) :
    Listeners S :=
  fold_left
    (fun em r =>
       match r with
       | Remove eventType callback => RemoveListener em eventType callback
       | RemoveCustom eventName callback =>
           RemoveCustomListener em eventName callback
       end)
    removals em.

(** ** Further operations: the inventory *)

Module item.

Inductive ItemType :=
  | ItemWeapon | ItemLight | ItemMedical | ItemFood | ItemKey
  | ItemNote | ItemArtifact | ItemRelic | ItemMemento | ItemMisc.

(** The integer behind each constant. *)
Definition ItemType_ord (t : ItemType) : Z :=
  match t with
  | ItemWeapon => 0 | ItemLight => 1 | ItemMedical => 2 | ItemFood => 3
  | ItemKey => 4 | ItemNote => 5 | ItemArtifact => 6 | ItemRelic => 7
  | ItemMemento => 8 | ItemMisc => 9
  end%Z.

(** The fields of [Item] that the inventory reads or writes. *)
Record Item := mkItem {
  ID : Z;
  Name : string;
  Type_ : ItemType;
  Weight : Q;
  Stackable : bool;
  Quantity : Z
}.

(** The fields of [Inventory] that the operations below read or write.
    A [*Item] is the address of an item, a [nat]; the items behind the
    pointers are a [gmap nat Item], in which the nil pointer and it alone
    has no item.  [EventManager] is the state of the event manager behind
    the pointer, [None] for the nil pointer. *)
Record Inventory := mkInventory {
  Items : list nat;
  MaxWeight : Q;
  EventManager : option EventManager
}.

Definition MaxInventoryWeight : Q := 50.

(** [NewInventory]. *)
Definition NewInventory eventManager : Inventory :=
  mkInventory [] MaxInventoryWeight eventManager.

(** [Inventory.GetTotalWeight]. *)
Definition GetTotalWeight (heap : gmap nat Item) (inv : Inventory) : option Q :=
  forEach
    (fun totalWeight p =>
       match heap !! p with
       | Some it => Some (totalWeight + Weight it * float64_of_int (Quantity it))
       | None => None
       end)
    (Items inv) 0.

(** The search that [AddItem], [GetItemByID] and [HasItem] each make: the
    first pointer of the slice whose item has the identifier [id], [None]
    for none; every item that the search passes is read. *)
Fixpoint findByID (heap : gmap nat Item) (id : Z) (items : list nat) :
    option (option nat) :=
  match items with
  | [] => Some None
  | p :: rest =>
      match heap !! p with
      | None => None
      | Some it => if (ID it =? id)%Z then Some (Some p) else findByID heap id rest
      end
  end.

(** [Inventory.GetItemByID]: [Some None] is the nil pointer. *)
Definition GetItemByID (heap : gmap nat Item) (inv : Inventory) (id : Z) :
    option (option nat) :=
  findByID heap id (Items inv).

(** [Inventory.HasItem]. *)
Definition HasItem (heap : gmap nat Item) (inv : Inventory) (id quantity : Z) :
    option bool :=
  match findByID heap id (Items inv) with
  | None => None
  | Some None => Some false
  | Some (Some p) =>
      match heap !! p with
      | Some it => Some (quantity <=? Quantity it)%Z
      | None => None
      end
  end.

(** [if inv.EventManager != nil { inv.EventManager.TriggerCustom(..., nil) }]:
    the payload map that the inventory passes is the nil map. *)
Definition notify (inv : Inventory) (eventName : string)
    (source target position value : Any) (now : Z) : option Inventory :=
  match EventManager inv with
  | None => Some inv
  | Some em =>
      match TriggerCustom em eventName source target position value None now with
      | None => None
      | Some em' => Some (mkInventory (Items inv) (MaxWeight inv) (Some em'))
      end
  end.

(** [Inventory.AddItem] at the instant [now]. *)
Definition AddItem (st : gmap nat Item * Inventory) (item : nat) (now : Z) :
    option (gmap nat Item * Inventory * bool) :=
  let heap := fst st in
  let inv := snd st in
  match GetTotalWeight heap inv, heap !! item with
  | Some total, Some it =>
      if Qgtb (total + Weight it) (MaxWeight inv) then Some (heap, inv, false)
      else
        let append :=
          match notify (mkInventory (Items inv ++ [item]) (MaxWeight inv)
                          (EventManager inv))
                  "item_added" (Opaque "*item.Inventory") (Opaque "*item.Item") Nil
                  (Int (Quantity it)) now with
          | None => None
          | Some inv' => Some (heap, inv', true)
          end in
        if Stackable it then
          match findByID heap (ID it) (Items inv) with
          | None => None
          | Some None => append
          | Some (Some p) =>
              match heap !! p with
              | None => None
              | Some existingItem =>
                  let quantity := wrap64 (Quantity existingItem + Quantity it) in
                  let heap' :=
                    <[p := mkItem (ID existingItem) (Name existingItem)
                             (Type_ existingItem) (Weight existingItem)
                             (Stackable existingItem) quantity]> heap in
                  match notify inv "inventory_updated" (Opaque "*item.Inventory")
                          (Opaque "*item.Item") Nil (Int quantity) now with
                  | None => None
                  | Some inv' => Some (heap', inv', true)
                  end
              end
          end
        else append
  | _, _ => None
  end.

(** The body of the loops of [SortItems]: the pointers at [i] and [j] are
    exchanged when the type at [i] is the greater one. *)
Definition sortStep (heap : gmap nat Item) (i : nat) (items : list nat) (j : nat) :
    option (list nat) :=
  match items !! i, items !! j with
  | Some a, Some b =>
      match heap !! a, heap !! b with
      | Some ia, Some ib =>
          if (ItemType_ord (Type_ ib) <? ItemType_ord (Type_ ia))%Z
          then Some (<[i := b]> (<[j := a]> items))
          else Some items
      | _, _ => None
      end
  | _, _ => None
  end.

(** The two loops of [SortItems]. *)
Definition sortLoops (heap : gmap nat Item) (items : list nat) : option (list nat) :=
  forEach
    (fun items i =>
       forEach (sortStep heap i) (seq (S i) (length items - S i)) items)
    (seq 0 (length items)) items.

(** [Inventory.SortItems] at the instant [now]. *)
Definition SortItems (st : gmap nat Item * Inventory) (now : Z) :
    option (gmap nat Item * Inventory) :=
  let heap := fst st in
  let inv := snd st in
  match sortLoops heap (Items inv) with
  | None => None
  | Some items =>
      match notify (mkInventory items (MaxWeight inv) (EventManager inv))
              "inventory_sorted" (Opaque "*item.Inventory") Nil Nil (Int 0) now with
      | None => None
      | Some inv' => Some (heap, inv')
      end
  end.

(** The number of the type of the item behind a pointer. *)
Definition typeOf (heap : gmap nat Item) (p : nat) : Z :=
  match heap !! p with
  | Some it => ItemType_ord (Type_ it)
  | None => 0%Z
  end.

(** No pointer of the slice is nil. *)
Definition valid (heap : gmap nat Item) (items : list nat) : Prop :=
  Forall (fun p => is_Some (heap !! p)) items.

End item.

(** The state of the inner loop of [SortItems] before the iteration [k]. *)
Definition sortInner (heap : gmap nat item.Item) (i k : nat)
    (items0 items : list nat) : Prop :=
  item.valid heap items /\ length items = length items0 /\ items ≡ₚ items0
  /\ (forall p, (p < i)%nat -> items !! p = items0 !! p)
  /\ (forall b x y, (i < b < k)%nat -> items !! i = Some x -> items !! b = Some y ->
                    (item.typeOf heap x <= item.typeOf heap y)%Z).

(** The state of the outer loop of [SortItems] before the iteration [i]. *)
Definition sortOuter (heap : gmap nat item.Item) (i : nat)
    (items0 items : list nat) : Prop :=
  item.valid heap items /\ length items = length items0 /\ items ≡ₚ items0
  /\ (forall a b x y, (a < i)%nat -> (a < b)%nat ->
                      items !! a = Some x -> items !! b = Some y ->
                      (item.typeOf heap x <= item.typeOf heap y)%Z).

(** * Properties *)

(** ** Comparisons *)

Lemma Qltb_true (x y : Q) : Qltb x y = true <-> x < y.
Proof.
  unfold Qltb. rewrite negb_true_iff, <- not_true_iff_false, Qle_bool_iff.
  split; [apply Qnot_le_lt | apply Qlt_not_le].
Qed.

Lemma Qltb_false (x y : Q) : Qltb x y = false <-> y <= x.
Proof.
  unfold Qltb. rewrite negb_false_iff. apply Qle_bool_iff.
Qed.

Ltac case_Qltb x y :=
  let E := fresh "E" in
  destruct (Qltb x y) eqn:E;
  [apply Qltb_true in E | apply Qltb_false in E].

Lemma math_Max_spec (x y : Q) : math_Max x y == Qmax x y.
Proof.
  unfold math_Max. case_Qltb x y.
  - symmetry. apply Q.max_r. lra.
  - symmetry. apply Q.max_l. exact E.
Qed.

Lemma math_Min_spec (x y : Q) : math_Min x y == Qmin x y.
Proof.
  unfold math_Min. case_Qltb y x.
  - symmetry. apply Q.min_r. lra.
  - symmetry. apply Q.min_l. exact E.
Qed.

(** ** The Director's trigger *)

(** C1.  A scare fires exactly when the draw is below the chance of the
    specification: a tenth of the tension, plus 0.1 beyond 30 seconds and
    0.2 more beyond 60 seconds since the last scare, or plus 0.3 with an
    empty history.  With tension 0.5 and an empty history the chance is
    0.35: a draw of 0.30 fires, a draw of 0.40 does not. *)
Theorem shouldCreateScareEvent_spec :
  (forall d now draw,
      shouldCreateScareEvent d now draw = true
      <-> draw < spec_baseChance (tension d) (timeSinceLastScare d now))
  /\ (forall d now,
         tension d == 1 # 2 -> scareHistory d = [] ->
         spec_baseChance (tension d) (timeSinceLastScare d now) == 35 # 100
         /\ shouldCreateScareEvent d now (30 # 100) = true
         /\ shouldCreateScareEvent d now (40 # 100) = false).
Proof.
  assert (G : forall d now draw,
             shouldCreateScareEvent d now draw = true
             <-> draw < spec_baseChance (tension d) (timeSinceLastScare d now)).
  { intros d now draw.
    unfold shouldCreateScareEvent, spec_baseChance, timeSinceLastScare.
    rewrite Qltb_true.
    destruct (last (scareHistory d)) as [lastScare|]; [|reflexivity].
    destruct (30 * Second <? Time_Sub now (STimestamp lastScare))%Z;
      destruct (60 * Second <? Time_Sub now (STimestamp lastScare))%Z;
      split; intros H; lra. }
  split; [exact G|].
  intros d now Ht Hh.
  assert (B : spec_baseChance (tension d) (timeSinceLastScare d now) == 35 # 100).
  { unfold spec_baseChance, timeSinceLastScare. rewrite Hh. simpl. lra. }
  split; [exact B|]. split.
  - apply G. lra.
  - apply not_true_iff_false. intros F. apply G in F. lra.
Qed.

Lemma shouldCreateScareEvent_spec_witness :
  let d := mkDirector None (mkWorld true true []) [] ∅ (3 # 10) (1 # 2) in
  spec_baseChance (tension d) (timeSinceLastScare d 0) == 35 # 100
  /\ shouldCreateScareEvent d 0 (30 # 100) = true
  /\ shouldCreateScareEvent d 0 (40 # 100) = false.
Proof.
  intros d.
  apply (proj2 shouldCreateScareEvent_spec d 0%Z); reflexivity.
Defined.

(** ** Sanity *)

(** C10.  [ReduceSanity] sets the sanity to [max(0, sanity - amount)], which
    is never negative; executing a scare event reduces the sanity by five
    times the intensity of the event, and leaves it at 0 or more. *)
Theorem sanity_never_negative :
  (forall p amount,
      Sanity (ReduceSanity p amount) == Qmax 0 (Sanity p - amount)
      /\ 0 <= Sanity (ReduceSanity p amount))
  /\ (forall d event p,
         dplayer d = Some p ->
         exists d',
           executeScareEvent d event = Some d'
           /\ dplayer d' = Some (ReduceSanity p (SIntensity event * 5))
           /\ 0 <= Sanity (ReduceSanity p (SIntensity event * 5))).
Proof.
  assert (G : forall p amount,
             Sanity (ReduceSanity p amount) == Qmax 0 (Sanity p - amount)
             /\ 0 <= Sanity (ReduceSanity p amount)).
  { intros p amount. unfold ReduceSanity. simpl.
    case_Qltb (Sanity p - amount) 0.
    - split; [|lra]. symmetry. apply Q.max_l. lra.
    - split; [|exact E]. symmetry. apply Q.max_r. exact E. }
  split; [exact G|].
  intros d event p Hp. unfold executeScareEvent. rewrite Hp.
  eexists. split; [reflexivity|]. split; [reflexivity|]. apply G.
Qed.

Lemma sanity_never_negative_witness :
  let p := mkPlayer (mkVector2D 128 128) 100 3 in
  let d := mkDirector (Some p) (mkWorld true true []) [] ∅ (3 # 10) (1 # 10) in
  let e := mkScareEvent EventWhisper 1 (mkVector2D 128 128) (2 * Second)%Z "" 0%Z in
  exists d',
    executeScareEvent d e = Some d'
    /\ dplayer d' = Some (ReduceSanity p (SIntensity e * 5))
    /\ 0 <= Sanity (ReduceSanity p (SIntensity e * 5)).
Proof.
  intros p d e.
  apply (proj2 sanity_never_negative d e p). reflexivity.
Defined.

(** ** Bounded histories *)

Lemma lastN_snoc {A} (n : nat) (h : list A) (a : A) :
  lastN (S n) (h ++ [a]) = lastN n h ++ [a].
Proof.
  unfold lastN. rewrite length_app. simpl.
  replace (length h + 1 - S n)%nat with (length h - n)%nat by lia.
  apply drop_app_le. lia.
Qed.

Lemma lastN_all {A} (n : nat) (l : list A) :
  (length l <= n)%nat -> lastN n l = l.
Proof.
  intros H. unfold lastN.
  replace (length l - n)%nat with 0%nat by lia. reflexivity.
Qed.

Lemma lastN_length {A} (n : nat) (l : list A) :
  length (lastN n l) = Nat.min n (length l).
Proof. unfold lastN. rewrite length_drop. lia. Qed.

Lemma lastN_lastN_snoc {A} (n : nat) (h : list A) (a : A) :
  lastN (S n) (lastN (S n) h ++ [a]) = lastN (S n) (h ++ [a]).
Proof.
  rewrite !lastN_snoc. f_equal.
  unfold lastN. rewrite drop_drop, length_drop. f_equal. lia.
Qed.

Lemma lastN_app_long {A} (n : nat) (h l : list A) :
  (n <= length l)%nat -> lastN n (h ++ l) = lastN n l.
Proof.
  intros H. unfold lastN. rewrite length_app.
  replace (length h + length l - n)%nat
    with (length h + (length l - n))%nat by lia.
  apply drop_app_add'. reflexivity.
Qed.

Lemma addPlayerAction_actions (o : ObserverSystem) (a : PlayerAction) :
  playerActions (addPlayerAction o a) = lastN maxActions (playerActions o ++ [a]).
Proof.
  unfold addPlayerAction. simpl.
  destruct (maxActions <? length (playerActions o ++ [a]))%nat eqn:E;
    [reflexivity|].
  apply Nat.ltb_ge in E. symmetry. apply lastN_all. exact E.
Qed.

Lemma addPlayerAction_last (o : ObserverSystem) (a : PlayerAction) :
  last (playerActions (addPlayerAction o a)) = Some a.
Proof.
  rewrite addPlayerAction_actions.
  change maxActions with (S 999). rewrite lastN_snoc. apply last_snoc.
Qed.

(** ** Event handlers *)

(** C9.  A movement event that carries a position is recorded, as the last
    action of the history; the action is a run exactly when the value of
    the event is a number above 1.5, and a move in every other case. *)
Theorem recordMovement_kind (o : ObserverSystem) (data : EventData)
    (position : Vector2D) :
  Type_ data = EventPlayerMoved ->
  asVector2D (EPosition data) = Some position ->
  exists a,
    onEvent o data = Some (addPlayerAction o a)
    /\ last (playerActions (addPlayerAction o a)) = Some a
    /\ APosition a = position
    /\ (AType a = ActionRun
        <-> exists speed, Value data = Float64 speed /\ 3 # 2 < speed)
    /\ (AType a <> ActionRun -> AType a = ActionMove).
Proof.
  intros Ht Hp. unfold onEvent, recordMovement. rewrite Ht, Hp.
  destruct (EPosition data) eqn:EP; try discriminate. simpl.
  eexists. split; [reflexivity|].
  split; [apply addPlayerAction_last|].
  split; [reflexivity|]. simpl.
  destruct (Value data) as [|speed| | | | | | |] eqn:EV; simpl;
    try (split; [split; [discriminate | intros (q & F & _); discriminate]
                | reflexivity]).
  unfold Qgtb. case_Qltb (3 # 2) speed.
  - split; [|intros F; contradiction].
    split; [intros _; exists speed; split; [reflexivity | exact E] | reflexivity].
  - split; [|reflexivity].
    split; [discriminate|].
    intros (q & F & Hq). injection F as ->. lra.
Qed.

Lemma recordMovement_kind_witness :
  let o := observer0 in
  let data :=
    mkEventData EventPlayerMoved PlayerPtr Nil
      (EntityVector2D (mkVector2D 3 4)) (Float64 2) 0%Z
      (Some {[ "oldPosition" := EntityVector2D (mkVector2D 1 1) ]}) in
  exists a,
    onEvent o data = Some (addPlayerAction o a)
    /\ last (playerActions (addPlayerAction o a)) = Some a
    /\ APosition a = mkVector2D 3 4
    /\ (AType a = ActionRun
        <-> exists speed, Value data = Float64 speed /\ 3 # 2 < speed)
    /\ (AType a <> ActionRun -> AType a = ActionMove).
Proof.
  intros o data.
  apply (recordMovement_kind o data (mkVector2D 3 4)); reflexivity.
Defined.

(** C8.  An event whose required field is missing or of another type is
    dropped: the handler returns normally and the Observer, with its action
    history, its fear responses and its context, is what it was. *)
Theorem malformed_event_is_noop (o : ObserverSystem) (data : EventData) :
  malformed data -> onEvent o data = Some o.
Proof.
  unfold malformed, onEvent. intros H.
  destruct (Type_ data); try contradiction.
  - unfold recordMovement. rewrite H.
    destruct (isNil (EPosition data)); reflexivity.
  - unfold recordDamage. rewrite H. reflexivity.
  - unfold recordInteraction. rewrite H. reflexivity.
  - unfold recordSanityChange. rewrite H.
    destruct (isNil (Value data)); reflexivity.
  - unfold recordScareResponse. rewrite H.
    destruct (Custom data); [|reflexivity].
    destruct (isNil _); reflexivity.
Qed.

Lemma malformed_event_is_noop_witness :
  let o := observer0 in
  onEvent o (mkEventData EventPlayerSanityChanged PlayerPtr Nil Nil (Str "-5") 0%Z
               (Some {[ "oldValue" := Float64 50; "newValue" := Float64 45 ]}))
  = Some o.
Proof.
  intros o. apply malformed_event_is_noop. reflexivity.
Defined.

Lemma addPlayerAction_fold (l : list PlayerAction) (o : ObserverSystem) :
  l <> [] ->
  playerActions (fold_left addPlayerAction l o)
  = lastN maxActions (playerActions o ++ l).
Proof.
  induction l as [|a l IH] using rev_ind; [congruence|]. intros _.
  rewrite fold_left_app. cbn [fold_left]. rewrite addPlayerAction_actions.
  destruct l as [|b l].
  - reflexivity.
  - rewrite IH by discriminate.
    change maxActions with (S 999). rewrite lastN_lastN_snoc.
    rewrite <- app_assoc. reflexivity.
Qed.

Lemma recordFearResponse_lookup (o : ObserverSystem) (r : FearResponse)
    (k : FearType) :
  fearResponses (recordFearResponse o r) !! k
  = if decide (RFearType r = k)
    then Some (lastN maxResponses (responsesOf (fearResponses o) k ++ [r]))
    else fearResponses o !! k.
Proof.
  unfold recordFearResponse, responsesOf. simpl.
  destruct (decide (RFearType r = k)) as [->|Hne].
  - destruct (fearResponses o !! k) as [h|] eqn:Hk.
    + rewrite Hk.
      destruct (maxResponses <? length (h ++ [r]))%nat eqn:E.
      * rewrite lookup_insert_eq. reflexivity.
      * rewrite lookup_insert_eq. apply Nat.ltb_ge in E.
        rewrite lastN_all by exact E. reflexivity.
    + rewrite lookup_insert_eq.
      destruct (maxResponses <? length ([] ++ [r]))%nat eqn:E;
        rewrite lookup_insert_eq; reflexivity.
  - destruct (fearResponses o !! RFearType r) as [h|] eqn:Hk.
    + rewrite Hk.
      destruct (maxResponses <? length (h ++ [r]))%nat;
        rewrite ?lookup_insert_ne by exact Hne; reflexivity.
    + rewrite lookup_insert_eq.
      destruct (maxResponses <? length ([] ++ [r]))%nat;
        rewrite ?lookup_insert_ne by exact Hne; reflexivity.
Qed.

Lemma recordFearResponse_fold (l : list FearResponse) (o : ObserverSystem)
    (k : FearType) :
  fearResponses (fold_left recordFearResponse l o) !! k
  = match filter (fun r => RFearType r = k) l with
    | [] => fearResponses o !! k
    | rs => Some (lastN maxResponses (responsesOf (fearResponses o) k ++ rs))
    end.
Proof.
  induction l as [|a l IH] using rev_ind; [reflexivity|].
  rewrite fold_left_app. cbn [fold_left]. rewrite recordFearResponse_lookup.
  rewrite filter_app.
  destruct (decide (RFearType a = k)) as [Ha|Ha].
  - rewrite filter_cons_True by exact Ha. simpl.
    unfold responsesOf at 1. rewrite IH.
    destruct (filter (fun r => RFearType r = k) l) as [|b rs] eqn:Hf.
    + reflexivity.
    + change maxResponses with (S 19). rewrite lastN_lastN_snoc.
      rewrite <- app_assoc. reflexivity.
  - rewrite filter_cons_False by exact Ha. simpl. rewrite app_nil_r.
    exact IH.
Qed.

(** C2.  After more than 1000 actions have been added, the action history
    holds the last 1000 of them, in the order of their insertion; after
    more than 20 responses of one kind of fear have been recorded, among
    responses of any kinds, the history of that kind holds the last 20 of
    them, in order.  Both insertions are total functions: nothing fails
    when a history is full. *)
Theorem bounded_histories :
  (forall (o : ObserverSystem) (l : list PlayerAction),
      (1000 < length l)%nat ->
      playerActions (fold_left addPlayerAction l o) = drop (length l - 1000) l
      /\ length (playerActions (fold_left addPlayerAction l o)) = 1000%nat)
  /\ (forall (o : ObserverSystem) (l : list FearResponse) (k : FearType),
         (20 < length (filter (fun r => RFearType r = k) l))%nat ->
         exists h,
           fearResponses (fold_left recordFearResponse l o) !! k = Some h
           /\ h = drop (length (filter (fun r => RFearType r = k) l) - 20)
                    (filter (fun r => RFearType r = k) l)
           /\ length h = 20%nat).
Proof.
  split.
  - intros o l Hl.
    assert (E : playerActions (fold_left addPlayerAction l o)
                = drop (length l - 1000) l).
    { rewrite addPlayerAction_fold by (intros ->; simpl in Hl; lia).
      apply lastN_app_long. unfold maxActions. lia. }
    split; [exact E|]. rewrite E, length_drop. lia.
  - intros o l k Hl. rewrite recordFearResponse_fold.
    destruct (filter (fun r => RFearType r = k) l) as [|b rs] eqn:Hf;
      [simpl in Hl; lia|].
    eexists. split; [reflexivity|].
    assert (E : lastN maxResponses (responsesOf (fearResponses o) k ++ b :: rs)
                = drop (length (b :: rs) - 20) (b :: rs)).
    { apply lastN_app_long. unfold maxResponses. lia. }
    split; [exact E|]. rewrite E, length_drop. lia.
Qed.

Lemma bounded_histories_witness :
  (playerActions (fold_left addPlayerAction (sampleActions 1001) observer0)
   = drop (length (sampleActions 1001) - 1000) (sampleActions 1001)
   /\ length (playerActions (fold_left addPlayerAction (sampleActions 1001) observer0))
      = 1000%nat)
  /\ (exists h,
         fearResponses (fold_left recordFearResponse (sampleResponses 42) observer0)
           !! FearGore = Some h
         /\ h = drop (length (filter (fun r => RFearType r = FearGore)
                                (sampleResponses 42)) - 20)
                  (filter (fun r => RFearType r = FearGore) (sampleResponses 42))
         /\ length h = 20%nat).
Proof.
  split.
  - apply (proj1 bounded_histories observer0 (sampleActions 1001)).
    apply Nat.ltb_lt. vm_compute. reflexivity.
  - apply (proj2 bounded_histories observer0 (sampleResponses 42) FearGore).
    apply Nat.ltb_lt. vm_compute. reflexivity.
Defined.

(** ** The fear profile *)

Lemma updateFearType_lookup_other (rs : gmap FearType (list FearResponse))
    (fp : gmap FearType Q) (f k : FearType) :
  f <> k \/ responsesOf rs k = [] ->
  updateFearType rs fp f !! k = fp !! k.
Proof.
  intros H. unfold updateFearType.
  destruct (rs !! f) as [responses|] eqn:Hf; [|reflexivity].
  destruct (length responses =? 0)%nat eqn:El; [reflexivity|].
  destruct (decide (f = k)) as [->|Hne].
  - destruct H as [H|H]; [congruence|].
    unfold responsesOf in H. rewrite Hf in H. subst responses.
    discriminate El.
  - apply lookup_insert_ne. exact Hne.
Qed.

Lemma analyzeFearProfile_fold_other (rs : gmap FearType (list FearResponse))
    (l : list FearType) (fp : gmap FearType Q) (k : FearType) :
  responsesOf rs k = [] ->
  fold_left (updateFearType rs) l fp !! k = fp !! k.
Proof.
  intros H. revert fp. induction l as [|f l IH]; intros fp; [reflexivity|].
  simpl. rewrite IH. apply updateFearType_lookup_other. right. exact H.
Qed.

(** C3, as the code has it.  A kind of fear whose history of responses is
    empty keeps its value in the fear profile through an analysis cycle:
    the entry of the map is not written. *)
Theorem analyzeFearProfile_keeps_kinds_without_responses (o : ObserverSystem)
    (k : FearType) :
  responsesOf (fearResponses o) k = [] ->
  fearProfile (analyzeFearProfile o) !! k = fearProfile o !! k.
Proof.
  intros H. unfold analyzeFearProfile.
  destruct (size (fearResponses o) =? 0)%nat; [reflexivity|].
  cbn [fearProfile set_fearProfile].
  apply analyzeFearProfile_fold_other. exact H.
Qed.

Lemma analyzeFearProfile_keeps_kinds_without_responses_witness :
  match onEvent observer0 sampleScare with
  | Some o =>
      fearProfile (analyzeFearProfile o) !! FearGore = fearProfile o !! FearGore
  | None => False
  end.
Proof.
  change (onEvent observer0 sampleScare)
    with (Some (match onEvent observer0 sampleScare with
                | Some o => o | None => observer0 end)).
  apply analyzeFearProfile_keeps_kinds_without_responses.
  vm_compute. reflexivity.
Defined.

(** C3, as the specification has it, fails: after a scare that a creature
    causes, a first cycle moves the value of the fear of creatures from 0.5
    to 0.65; a second cycle, with no response recorded in between, moves it
    to 0.755. *)
Lemma analyzeFearProfile_not_idempotent :
  match onEvent observer0 sampleScare with
  | Some o =>
      let cycle1 := analyzeFearProfile o in
      let cycle2 := analyzeFearProfile cycle1 in
      fearResponses cycle1 = fearResponses o
      /\ profileGet (fearProfile cycle1) FearCreatures == 65 # 100
      /\ profileGet (fearProfile cycle2) FearCreatures == 755 # 1000
      /\ ~ profileGet (fearProfile cycle2) FearCreatures
           == profileGet (fearProfile cycle1) FearCreatures
  | None => False
  end.
Proof.
  vm_compute. repeat split. discriminate.
Qed.

(** With strengths between 0 and 1, as the comments of the sources say they
    are, the moving average stays between 0 and 1. *)

Lemma totalStrength_bounds (l : list FearResponse) (acc : Q) :
  Forall (fun r => 0 <= StrengthOfFear r /\ StrengthOfFear r <= 1) l ->
  acc <= fold_left (fun total response => total + StrengthOfFear response) l acc
  /\ fold_left (fun total response => total + StrengthOfFear response) l acc
     <= acc + inject_Z (Z.of_nat (length l)).
Proof.
  intros H. revert acc. induction H as [|r l [Hr0 Hr1] Hl IH]; intros acc.
  - cbn [fold_left length]. change (inject_Z (Z.of_nat 0)) with 0. split; lra.
  - cbn [fold_left length]. destruct (IH (acc + StrengthOfFear r)) as [H0 H1].
    rewrite Nat2Z.inj_succ, <- Z.add_1_r, inject_Z_plus.
    change (inject_Z 1) with 1. split; lra.
Qed.

Lemma updateFearType_in_range (rs : gmap FearType (list FearResponse))
    (fp : gmap FearType Q) (f : FearType) :
  unit_strengths rs -> unit_profile fp -> unit_profile (updateFearType rs fp f).
Proof.
  intros Hrs Hfp. unfold updateFearType.
  destruct (rs !! f) as [responses|] eqn:Hf; [|exact Hfp].
  destruct (length responses =? 0)%nat eqn:El; [exact Hfp|].
  apply Nat.eqb_neq in El.
  intros k v Hk. destruct (decide (f = k)) as [->|Hne].
  - rewrite lookup_insert_eq in Hk. injection Hk as <-.
    destruct (totalStrength_bounds responses 0 (Hrs k responses Hf)) as [H0 H1].
    fold (totalStrength responses) in H0, H1.
    assert (Hn : 0 < inject_Z (Z.of_nat (length responses))).
    { change 0 with (inject_Z 0). rewrite <- Zlt_Qlt. lia. }
    assert (Ha : 0 <= totalStrength responses / float64_of_int (Z.of_nat (length responses))
                 /\ totalStrength responses / float64_of_int (Z.of_nat (length responses)) <= 1).
    { unfold float64_of_int. split.
      - apply Qle_shift_div_l; [exact Hn | lra].
      - apply Qle_shift_div_r; [exact Hn | lra]. }
    assert (Hg : 0 <= profileGet fp k /\ profileGet fp k <= 1).
    { unfold profileGet. destruct (fp !! k) as [w|] eqn:Hw; [apply (Hfp k w Hw) | lra]. }
    split; lra.
  - rewrite lookup_insert_ne in Hk by exact Hne. apply (Hfp k v Hk).
Qed.

Lemma analyzeFearProfile_in_range (o : ObserverSystem) :
  unit_strengths (fearResponses o) -> unit_profile (fearProfile o) ->
  unit_profile (fearProfile (analyzeFearProfile o)).
Proof.
  intros Hrs Hfp. unfold analyzeFearProfile.
  destruct (size (fearResponses o) =? 0)%nat; [exact Hfp|].
  cbn [fearProfile set_fearProfile].
  generalize (fearProfile o) Hfp. generalize allFearTypes.
  induction l as [|f l IH]; intros fp Hp; [exact Hp|].
  cbn [fold_left]. apply IH, updateFearType_in_range; assumption.
Qed.

(** C4 fails in the code.  The strength of a response to a fall of the
    sanity is the fall divided by 20, without a bound: a fall from 80 to 30
    is recorded with strength 2.5, and the next cycle moves the value of the
    unknown fear from 0.5 to 1.1, above 1. *)
Theorem fearProfile_exceeds_one :
  (forall k, fearProfile observer0 !! k = Some (1 # 2))
  /\ match onEvent observer0 sampleSanityDrop with
     | Some o =>
         Forall (fun r => StrengthOfFear r == 25 # 10)
           (responsesOf (fearResponses o) FearUnknown)
         /\ responsesOf (fearResponses o) FearUnknown <> []
         /\ profileGet (fearProfile (analyzeFearProfile o)) FearUnknown == 11 # 10
         /\ 1 < profileGet (fearProfile (analyzeFearProfile o)) FearUnknown
     | None => False
     end.
Proof.
  split.
  - intros k. destruct k; vm_compute; reflexivity.
  - vm_compute. repeat split; try discriminate.
    constructor; [reflexivity | constructor].
Qed.

(** ** Sorting *)

Lemma insertDesc_Permutation {A} (key : A -> Q) (x : A) (l : list A) :
  Permutation (insertDesc key x l) (x :: l).
Proof.
  induction l as [|y l IH]; simpl; [reflexivity|].
  destruct (Qgtb (key x) (key y)); [reflexivity|].
  rewrite IH. apply perm_swap.
Qed.

Lemma sortSliceDesc_Permutation {A} (key : A -> Q) (l : list A) :
  Permutation (sortSliceDesc key l) l.
Proof.
  induction l as [|x l IH]; simpl; [reflexivity|].
  rewrite insertDesc_Permutation, IH. reflexivity.
Qed.

(** ** Recommendations *)

Lemma clamp_intensity (x : Q) :
  math_Max (3 # 10) (math_Min 1 x) == spec_clamp x (3 # 10) 1
  /\ 3 # 10 <= math_Max (3 # 10) (math_Min 1 x)
  /\ math_Max (3 # 10) (math_Min 1 x) <= 1.
Proof.
  split.
  - unfold spec_clamp. rewrite math_Max_spec.
    apply Q.max_compat; [reflexivity | apply math_Min_spec].
  - unfold math_Max, math_Min.
    case_Qltb x 1; case_Qltb (3 # 10) x; try lra;
      case_Qltb (3 # 10) 1; lra.
Qed.

Section RecommendationProperties.

Variable math_Exp : Q -> Q.

Lemma generateRecommendation_sound (o : ObserverSystem) (fearType : FearType)
    (rnd : Z) (rec : ScareRecommendation) :
  generateRecommendationForFearType math_Exp o fearType rnd = Some rec ->
  FearTarget rec = fearType /\ intensity_ok o rec.
Proof.
  unfold generateRecommendationForFearType, intensity_ok.
  destruct (chooseScareTypeForFearType fearType rnd); [|discriminate].
  destruct (player o); [|discriminate].
  intros [= <-]. simpl. split; [reflexivity|].
  apply clamp_intensity.
Qed.

Lemma chooseScareType_total (fearType : FearType) (rnd : Z) :
  (0 <= rnd < 6)%Z -> is_Some (chooseScareTypeForFearType fearType rnd).
Proof.
  intros H. destruct fearType; simpl; try (eexists; reflexivity).
  destruct (rnd <? 0)%Z eqn:E; [apply Z.ltb_lt in E; lia|].
  apply lookup_lt_is_Some. simpl. lia.
Qed.

Lemma generateRecommendation_total (o : ObserverSystem) (fearType : FearType)
    (rnd : Z) :
  is_Some (player o) -> (0 <= rnd < 6)%Z ->
  is_Some (generateRecommendationForFearType math_Exp o fearType rnd).
Proof.
  intros [p Hp] Hr. unfold generateRecommendationForFearType.
  destruct (chooseScareType_total fearType rnd Hr) as [s ->].
  rewrite Hp. eexists. reflexivity.
Qed.

Lemma recommendAll_spec (o : ObserverSystem) (fears : list FearType) (rnd : Z) :
  is_Some (player o) -> (0 <= rnd < 6)%Z ->
  exists l,
    recommendAll math_Exp o fears rnd = Some l
    /\ Forall (intensity_ok o) l.
Proof.
  intros Hp Hr. induction fears as [|f fears (l & El & IH)]; simpl.
  - exists []. split; [reflexivity | constructor].
  - rewrite El.
    destruct (generateRecommendation_total o f rnd Hp Hr) as [rec Hrec].
    rewrite Hrec. exists (rec :: l). split; [reflexivity|].
    constructor; [|exact IH].
    apply (generateRecommendation_sound o f rnd rec Hrec).
Qed.

End RecommendationProperties.

(** C5.  The intensity of a recommendation is
    [clamp(fearProfile * (1 + (1 - sanity / 100)), 0.3, 1.0)], hence between
    0.3 and 1.0, whatever the value of the fear profile and the sanity; with
    a player and a draw within the six kinds of scare, the recommendation
    pass produces its list, and every recommendation of the list is so. *)
Theorem recommendation_intensity_bounds (math_Exp : Q -> Q) :
  (forall o fearType rnd rec,
      generateRecommendationForFearType math_Exp o fearType rnd = Some rec ->
      Intensity rec
      == spec_intensity (profileGet (fearProfile o) fearType)
           (CurrentSanity (context o))
      /\ 3 # 10 <= Intensity rec /\ Intensity rec <= 1)
  /\ (forall o rnd,
         is_Some (player o) -> (0 <= rnd < 6)%Z ->
         exists o',
           GenerateScareRecommendations math_Exp o rnd = Some o'
           /\ Forall (intensity_ok o) (recommendedScares o')).
Proof.
  split.
  - intros o fearType rnd rec H.
    destruct (generateRecommendation_sound math_Exp o fearType rnd rec H)
      as [<- Hok].
    exact Hok.
  - intros o rnd Hp Hr. unfold GenerateScareRecommendations.
    destruct (recommendAll_spec math_Exp (set_recommendedScares o [])
                (getEffectiveFearTypes (set_recommendedScares o [])) rnd Hp Hr)
      as (l & -> & Hl).
    eexists. split; [reflexivity|]. simpl.
    rewrite sortSliceDesc_Permutation. exact Hl.
Qed.

Lemma recommendation_intensity_bounds_witness :
  let o :=
    set_context
      (set_fearProfile observer0 (<[FearGore := 1000]> (fearProfile observer0)))
      (mkObservationContext (1 # 2) (1 # 2) 2 (60 * Second)%Z (-500) 0) in
  exists o',
    GenerateScareRecommendations (fun _ => 1 # 3) o 4 = Some o'
    /\ Forall (intensity_ok o) (recommendedScares o').
Proof.
  intros o.
  apply (proj2 (recommendation_intensity_bounds (fun _ => 1 # 3)) o 4%Z).
  - eexists. reflexivity.
  - lia.
Defined.

(** ** Patterns *)

Lemma addPatternTo_merge (l1 l2 : list PlayerPattern) (p q : PlayerPattern) :
  Name p = Name q ->
  Forall (fun x => Name x <> Name q) l1 ->
  addPatternTo (l1 ++ p :: l2) q
  = l1 ++ mkPlayerPattern (Name p) (Description p) ((Weight p + Weight q) / 2) :: l2.
Proof.
  intros Hp Hl. induction Hl as [|x l1 Hx Hl IH]; simpl.
  - rewrite Hp, String.eqb_refl. reflexivity.
  - apply String.eqb_neq in Hx. rewrite Hx, IH. reflexivity.
Qed.

Lemma addPatternTo_names (l : list PlayerPattern) (q : PlayerPattern) (n : string) :
  n ∈ Name <$> addPatternTo l q -> n ∈ Name <$> l \/ n = Name q.
Proof.
  induction l as [|p l IH]; simpl.
  - rewrite list_elem_of_singleton. auto.
  - destruct (String.eqb (Name p) (Name q)); simpl; [auto|].
    rewrite !elem_of_cons. intros [H|H]; [auto|].
    destruct (IH H); auto.
Qed.

Lemma addPatternTo_NoDup (l : list PlayerPattern) (q : PlayerPattern) :
  NoDup (Name <$> l) -> NoDup (Name <$> addPatternTo l q).
Proof.
  induction l as [|p l IH]; simpl; intros H.
  - apply NoDup_singleton.
  - destruct (String.eqb_spec (Name p) (Name q)) as [E|E]; simpl; [exact H|].
    apply NoDup_cons in H as [Hp Hl]. apply NoDup_cons. split; [|auto].
    intros Hin. apply addPatternTo_names in Hin as [Hin|Hin];
      [exact (Hp Hin) | exact (E Hin)].
Qed.

Lemma addPatternTo_keeps (l : list PlayerPattern) (p q : PlayerPattern) :
  p ∈ l -> Name p <> Name q -> p ∈ addPatternTo l q.
Proof.
  intros Hin Hne. induction l as [|x l IH]; simpl;
    [apply elem_of_nil in Hin; contradiction|].
  apply elem_of_cons in Hin as [->|Hin].
  - apply String.eqb_neq in Hne. rewrite Hne. apply list_elem_of_here.
  - destruct (String.eqb (Name x) (Name q)).
    + apply list_elem_of_further. exact Hin.
    + apply list_elem_of_further. auto.
Qed.

(** The detectors: each adds patterns by [addPattern] only. *)
Ltac detector_cases :=
  cbv zeta;
  repeat match goal with
    | |- context [if ?c then _ else _] => destruct c
    | |- context [match ?m !! ?k with _ => _ end] => destruct (m !! k)
    end.

Lemma detectMovementPatterns_NoDup (a : Analyzer) :
  NoDup (Name <$> detectedPatterns a) ->
  NoDup (Name <$> detectedPatterns (detectMovementPatterns a)).
Proof.
  intros H. unfold detectMovementPatterns. detector_cases;
    unfold addPattern; simpl; repeat apply addPatternTo_NoDup; exact H.
Qed.

Lemma detectInteractionPatterns_NoDup (a : Analyzer) :
  NoDup (Name <$> detectedPatterns a) ->
  NoDup (Name <$> detectedPatterns (detectInteractionPatterns a)).
Proof.
  intros H. unfold detectInteractionPatterns. detector_cases;
    unfold addPattern; simpl; repeat apply addPatternTo_NoDup; exact H.
Qed.

Lemma detectFearResponsePatterns_NoDup (a : Analyzer) :
  NoDup (Name <$> detectedPatterns a) ->
  NoDup (Name <$> detectedPatterns (detectFearResponsePatterns a)).
Proof.
  intros H. unfold detectFearResponsePatterns. detector_cases;
    unfold addPattern; simpl; repeat apply addPatternTo_NoDup; exact H.
Qed.

Ltac keep_explorer :=
  unfold addPattern; simpl;
  repeat (apply addPatternTo_keeps; [|simpl; congruence]).

Lemma detectInteractionPatterns_keeps (a : Analyzer) (p : PlayerPattern) :
  Name p = "explorer" -> p ∈ detectedPatterns a ->
  p ∈ detectedPatterns (detectInteractionPatterns a).
Proof.
  intros Hn H. unfold detectInteractionPatterns.
  detector_cases; keep_explorer; exact H.
Qed.

Lemma detectFearResponsePatterns_keeps (a : Analyzer) (p : PlayerPattern) :
  Name p = "explorer" -> p ∈ detectedPatterns a ->
  p ∈ detectedPatterns (detectFearResponsePatterns a).
Proof.
  intros Hn H. unfold detectFearResponsePatterns.
  detector_cases; keep_explorer; exact H.
Qed.

Lemma detectMovementPatterns_explorer (a : Analyzer) :
  detectedPatterns a = [] ->
  Qgtb (ExplorationArea (movementAnalysis a)) 500
  && Qltb (PathRepetition (movementAnalysis a)) 2 = true ->
  exists p,
    p ∈ detectedPatterns (detectMovementPatterns a)
    /\ Name p = "explorer"
    /\ Weight p = (8 # 10) - PathRepetition (movementAnalysis a) / 10.
Proof.
  intros Hnil Hc.
  exists (mkPlayerPattern "explorer"
            "Игрок активно исследует мир, не задерживаясь на одном месте"
            ((8 # 10) - PathRepetition (movementAnalysis a) / 10)).
  split; [|split; reflexivity].
  unfold detectMovementPatterns. rewrite Hc.
  detector_cases; keep_explorer;
    rewrite Hnil; apply list_elem_of_here.
Qed.

(** C7, as the code has it.  [addPattern] gives an entry of the same name
    the mean of the two weights and adds no entry; but a detection cycle
    starts from the empty list, whatever the previous cycle has left, and
    the names of the list it makes are distinct: when the movement analysis
    of the cycle shows an explorer, the one entry of that name has the
    weight of this cycle, [0.8 - PathRepetition / 10]. *)
Theorem detectPatterns_merge :
  (forall l1 l2 p q,
      Name p = Name q ->
      Forall (fun x => Name x <> Name q) l1 ->
      addPatternTo (l1 ++ p :: l2) q
      = l1 ++ mkPlayerPattern (Name p) (Description p)
                ((Weight p + Weight q) / 2) :: l2)
  /\ (forall a previous,
         detectPatterns (set_detectedPatterns a previous) = detectPatterns a)
  /\ (forall a, NoDup (Name <$> detectedPatterns (detectPatterns a)))
  /\ (forall a,
         Qgtb (ExplorationArea (movementAnalysis a)) 500
         && Qltb (PathRepetition (movementAnalysis a)) 2 = true ->
         exists p,
           p ∈ detectedPatterns (detectPatterns a)
           /\ Name p = "explorer"
           /\ Weight p = (8 # 10) - PathRepetition (movementAnalysis a) / 10).
Proof.
  split; [exact addPatternTo_merge|].
  split; [reflexivity|].
  split.
  - intros a. unfold detectPatterns. cbn [detectedPatterns set_detectedPatterns].
    rewrite sortSliceDesc_Permutation.
    apply detectFearResponsePatterns_NoDup, detectInteractionPatterns_NoDup,
      detectMovementPatterns_NoDup.
    simpl. apply NoDup_nil_2.
  - intros a Hc.
    destruct (detectMovementPatterns_explorer (set_detectedPatterns a [])
                eq_refl Hc) as (p & Hin & Hn & Hw).
    exists p. split; [|split; assumption].
    unfold detectPatterns. cbn [detectedPatterns set_detectedPatterns].
    rewrite sortSliceDesc_Permutation.
    apply detectFearResponsePatterns_keeps, detectInteractionPatterns_keeps;
      assumption.
Qed.

Lemma detectPatterns_merge_witness :
  let a := set_movementAnalysis (detectPatterns sampleAnalyzer) sampleNextMovement in
  exists p,
    p ∈ detectedPatterns (detectPatterns a)
    /\ Name p = "explorer"
    /\ Weight p = (8 # 10) - PathRepetition (movementAnalysis a) / 10.
Proof.
  intros a.
  apply (proj2 (proj2 (proj2 detectPatterns_merge)) a). reflexivity.
Defined.

(** C7, as the specification has it, fails: an explorer that is detected
    with weight 0.8 in one cycle and with weight 0.7 in the next is, after
    the second cycle, the only entry of the list, and its weight is 0.7,
    not the mean 0.75. *)
Lemma detectPatterns_no_merge_across_cycles :
  let cycle1 := detectPatterns sampleAnalyzer in
  let cycle2 := detectPatterns (set_movementAnalysis cycle1 sampleNextMovement) in
  match detectedPatterns cycle1, detectedPatterns cycle2 with
  | [p1], [p2] =>
      Name p1 = "explorer" /\ Weight p1 == 8 # 10
      /\ Name p2 = "explorer" /\ Weight p2 == 7 # 10
      /\ ~ Weight p2 == (Weight p1 + (7 # 10)) / 2
  | _, _ => False
  end.
Proof.
  vm_compute. repeat split. discriminate.
Qed.

(** ** Normalization of the reactor profile *)

Lemma MaxFloat64_ge_2 : 2 <= MaxFloat64.
Proof.
  unfold MaxFloat64. change 2 with (inject_Z 2). rewrite <- Zle_Qle.
  vm_compute. discriminate.
Qed.

Lemma profileMin_spec (m : gmap ReactorType Q) :
  (forall k v, m !! k = Some v -> v <= MaxFloat64) ->
  (forall k v, m !! k = Some v -> profileMin m <= v)
  /\ (m = ∅ /\ profileMin m = MaxFloat64
      \/ exists k v, m !! k = Some v /\ profileMin m == v).
Proof.
  unfold profileMin.
  apply (map_fold_weak_ind
           (fun r (m : gmap ReactorType Q) =>
              (forall k v, m !! k = Some v -> v <= MaxFloat64) ->
              (forall k v, m !! k = Some v -> r <= v)
              /\ (m = ∅ /\ r = MaxFloat64
                  \/ exists k v, m !! k = Some v /\ r == v))).
  - intros _. split; [|left; split; reflexivity].
    intros k v H. rewrite lookup_empty in H. discriminate.
  - intros i x m' r Hi IH Hb.
    assert (Hx : x <= MaxFloat64) by (apply (Hb i); apply lookup_insert_eq).
    destruct IH as (Hlow & Hatt).
    { intros k v Hk. apply (Hb k). rewrite lookup_insert_ne; [exact Hk|].
      intros ->. congruence. }
    case_Qltb x r.
    + split.
      * intros k v Hk. destruct (decide (i = k)) as [->|Hne].
        -- rewrite lookup_insert_eq in Hk. injection Hk as ->. lra.
        -- rewrite lookup_insert_ne in Hk by exact Hne.
           specialize (Hlow k v Hk). lra.
      * right. exists i, x. split; [apply lookup_insert_eq | reflexivity].
    + split.
      * intros k v Hk. destruct (decide (i = k)) as [->|Hne].
        -- rewrite lookup_insert_eq in Hk. injection Hk as ->. exact E.
        -- rewrite lookup_insert_ne in Hk by exact Hne. exact (Hlow k v Hk).
      * right. destruct Hatt as [[_ ->]|(k & v & Hk & Hv)].
        -- exists i, x. split; [apply lookup_insert_eq | lra].
        -- exists k, v. split; [|exact Hv].
           rewrite lookup_insert_ne; [exact Hk|]. intros ->. congruence.
Qed.

Lemma profileMax_spec (m : gmap ReactorType Q) :
  (forall k v, m !! k = Some v -> - MaxFloat64 <= v) ->
  (forall k v, m !! k = Some v -> v <= profileMax m)
  /\ (m = ∅ /\ profileMax m = - MaxFloat64
      \/ exists k v, m !! k = Some v /\ profileMax m == v).
Proof.
  unfold profileMax.
  apply (map_fold_weak_ind
           (fun r (m : gmap ReactorType Q) =>
              (forall k v, m !! k = Some v -> - MaxFloat64 <= v) ->
              (forall k v, m !! k = Some v -> v <= r)
              /\ (m = ∅ /\ r = - MaxFloat64
                  \/ exists k v, m !! k = Some v /\ r == v))).
  - intros _. split; [|left; split; reflexivity].
    intros k v H. rewrite lookup_empty in H. discriminate.
  - intros i x m' r Hi IH Hb.
    assert (Hx : - MaxFloat64 <= x) by (apply (Hb i); apply lookup_insert_eq).
    destruct IH as (Hup & Hatt).
    { intros k v Hk. apply (Hb k). rewrite lookup_insert_ne; [exact Hk|].
      intros ->. congruence. }
    unfold Qgtb. case_Qltb r x.
    + split.
      * intros k v Hk. destruct (decide (i = k)) as [->|Hne].
        -- rewrite lookup_insert_eq in Hk. injection Hk as ->. lra.
        -- rewrite lookup_insert_ne in Hk by exact Hne.
           specialize (Hup k v Hk). lra.
      * right. exists i, x. split; [apply lookup_insert_eq | reflexivity].
    + split.
      * intros k v Hk. destruct (decide (i = k)) as [->|Hne].
        -- rewrite lookup_insert_eq in Hk. injection Hk as ->. exact E.
        -- rewrite lookup_insert_ne in Hk by exact Hne. exact (Hup k v Hk).
      * right. destruct Hatt as [[_ ->]|(k & v & Hk & Hv)].
        -- exists i, x. split; [apply lookup_insert_eq | lra].
        -- exists k, v. split; [|exact Hv].
           rewrite lookup_insert_ne; [exact Hk|]. intros ->. congruence.
Qed.

Lemma rawReactorProfile_lookup (l : list PlayerAction) (m : gmap ReactorType Q)
    (r : ReactorType) :
  rawReactorProfile l m !! r = Some (rawReactorScore l r).
Proof.
  unfold rawReactorProfile, allReactorTypes. cbn [fold_left].
  destruct r;
    repeat first [ rewrite lookup_insert_eq
                 | rewrite lookup_insert_ne by discriminate ];
    reflexivity.
Qed.

Lemma countActions_bounds (t : ActionType) (l : list PlayerAction) :
  (0 <= countActions t l <= Z.of_nat (length l))%Z.
Proof.
  unfold countActions.
  pose proof (length_filter (fun a => AType a = t) l). lia.
Qed.

Lemma ratio_bounds (n t : Z) :
  (0 < t)%Z -> (- t <= n <= 2 * t)%Z ->
  - (1) <= float64_of_int n / float64_of_int t
  /\ float64_of_int n / float64_of_int t <= 2.
Proof.
  intros Ht [Hl Hu]. unfold float64_of_int.
  assert (Ht' : 0 < inject_Z t) by (change 0 with (inject_Z 0); rewrite <- Zlt_Qlt; exact Ht).
  rewrite Zle_Qle, inject_Z_opp in Hl.
  rewrite Zle_Qle, inject_Z_mult in Hu. change (inject_Z 2) with 2 in Hu.
  split.
  - apply Qle_shift_div_l; [exact Ht'|]. lra.
  - apply Qle_shift_div_r; [exact Ht'|]. lra.
Qed.

Lemma rawReactorScore_bounds (l : list PlayerAction) (r : ReactorType) :
  l <> [] ->
  - (1) <= rawReactorScore l r /\ rawReactorScore l r <= 2.
Proof.
  intros Hl.
  assert (Ht : (0 < Z.of_nat (length l))%Z) by (destruct l; [congruence | simpl; lia]).
  pose proof (countActions_bounds ActionRun l).
  pose proof (countActions_bounds ActionHide l).
  pose proof (countActions_bounds ActionInteract l).
  pose proof (countActions_bounds ActionAttack l).
  pose proof (countActions_bounds ActionInvestigate l).
  pose proof (countActions_bounds ActionRetreat l).
  pose proof (countActions_bounds ActionFreeze l).
  destruct r; cbv zeta beta iota delta [rawReactorScore];
    apply ratio_bounds; lia.
Qed.

Lemma rawReactorProfile_extrema (l : list PlayerAction) (m : gmap ReactorType Q) :
  l <> [] ->
  let p := rawReactorProfile l m in
  (forall r, profileMin p <= rawReactorScore l r
             /\ rawReactorScore l r <= profileMax p)
  /\ (exists r, profileMin p == rawReactorScore l r)
  /\ (exists r, profileMax p == rawReactorScore l r).
Proof.
  intros Hl p.
  pose proof MaxFloat64_ge_2 as HM.
  assert (Hb : forall k v, p !! k = Some v ->
                           - MaxFloat64 <= v /\ v <= MaxFloat64).
  { intros k v Hk. unfold p in Hk. rewrite rawReactorProfile_lookup in Hk.
    injection Hk as <-.
    destruct (rawReactorScore_bounds l k Hl). split; lra. }
  destruct (profileMin_spec p) as (Hlow & Hmin); [intros k v Hk; apply (Hb k v Hk)|].
  destruct (profileMax_spec p) as (Hup & Hmax); [intros k v Hk; apply (Hb k v Hk)|].
  assert (Hne : p <> ∅).
  { intros He. pose proof (rawReactorProfile_lookup l m ReactorCautious) as Hc.
    fold p in Hc. rewrite He, lookup_empty in Hc. discriminate. }
  split; [|split].
  - intros r. split; [apply (Hlow r) | apply (Hup r)];
      apply rawReactorProfile_lookup.
  - destruct Hmin as [[He _]|(k & v & Hk & Hv)]; [contradiction|].
    exists k. unfold p in Hk. rewrite rawReactorProfile_lookup in Hk.
    injection Hk as <-. exact Hv.
  - destruct Hmax as [[He _]|(k & v & Hk & Hv)]; [contradiction|].
    exists k. unfold p in Hk. rewrite rawReactorProfile_lookup in Hk.
    injection Hk as <-. exact Hv.
Qed.

Lemma normalizeProfile_lookup (l : list PlayerAction) (m : gmap ReactorType Q)
    (r : ReactorType) :
  let p := rawReactorProfile l m in
  normalizeProfile p !! r
  = Some (if Qgtb (profileMax p) (profileMin p)
          then (rawReactorScore l r - profileMin p) / (profileMax p - profileMin p)
          else 1 # 2).
Proof.
  intros p. unfold normalizeProfile. rewrite lookup_fmap.
  unfold p. rewrite rawReactorProfile_lookup. reflexivity.
Qed.

(** C6.  With fewer than 10 actions the reactor profile is left as it is.
    With 10 or more it is recomputed, and then: when the six raw scores are
    not all equal, the six normalized scores are between 0 and 1, one of
    them is 0 and one of them is 1; when they are all equal, every
    normalized score is exactly 0.5. *)
Theorem reactor_profile_normalized (o : ObserverSystem) :
  ((length (playerActions o) < 10)%nat -> analyzeReactorProfile o = o)
  /\ ((10 <= length (playerActions o))%nat ->
      let raw := rawReactorScore (playerActions o) in
      let profile := reactorProfile (analyzeReactorProfile o) in
      ((exists r1 r2, ~ raw r1 == raw r2) ->
       (forall r, exists v, profile !! r = Some v /\ 0 <= v /\ v <= 1)
       /\ (exists r v, profile !! r = Some v /\ v == 0)
       /\ (exists r v, profile !! r = Some v /\ v == 1))
      /\ ((forall r1 r2, raw r1 == raw r2) ->
          forall r, profile !! r = Some (1 # 2))).
Proof.
  split.
  - intros H. unfold analyzeReactorProfile.
    apply Nat.ltb_lt in H. rewrite H. reflexivity.
  - intros H raw profile.
    assert (Hl : playerActions o <> []) by (intros E; rewrite E in H; simpl in H; lia).
    assert (Hp : forall r,
               profile !! r
               = Some (let p := rawReactorProfile (playerActions o) (reactorProfile o) in
                       if Qgtb (profileMax p) (profileMin p)
                       then (raw r - profileMin p) / (profileMax p - profileMin p)
                       else 1 # 2)).
    { intros r. unfold profile, analyzeReactorProfile.
      apply Nat.ltb_ge in H. rewrite H.
      cbn [reactorProfile set_reactorProfile]. apply normalizeProfile_lookup. }
    destruct (rawReactorProfile_extrema (playerActions o) (reactorProfile o) Hl)
      as (Hb & (kmin & Hmin) & (kmax & Hmax)).
    cbv zeta in Hp, Hb, Hmin, Hmax. fold raw in Hb, Hmin, Hmax.
    set (mn := profileMin _) in *. set (mx := profileMax _) in *.
    split.
    + intros (r1 & r2 & Hne).
      assert (Hlt : mn < mx).
      { destruct (Qlt_le_dec mn mx) as [Hlt|Hge]; [exact Hlt|].
        exfalso. apply Hne.
        destruct (Hb r1), (Hb r2). lra. }
      assert (Hg : Qgtb mx mn = true) by (apply Qltb_true; exact Hlt).
      rewrite Hg in Hp.
      split; [|split].
      * intros r. eexists. split; [apply Hp|]. destruct (Hb r). split.
        -- apply Qle_shift_div_l; lra.
        -- apply Qle_shift_div_r; lra.
      * exists kmin. eexists. split; [apply Hp|].
        rewrite <- Hmin. field. lra.
      * exists kmax. eexists. split; [apply Hp|].
        rewrite <- Hmax. field. lra.
    + intros Heq r.
      assert (Hg : Qgtb mx mn = false).
      { apply Qltb_false. rewrite Hmin, Hmax. rewrite (Heq kmax kmin). lra. }
      rewrite Hp, Hg. reflexivity.
Qed.

Lemma reactor_profile_normalized_witness :
  let o := set_playerActions observer0 sampleMixedActions in
  let raw := rawReactorScore (playerActions o) in
  let profile := reactorProfile (analyzeReactorProfile o) in
  (forall r, exists v, profile !! r = Some v /\ 0 <= v /\ v <= 1)
  /\ (exists r v, profile !! r = Some v /\ v == 0)
  /\ (exists r v, profile !! r = Some v /\ v == 1).
Proof.
  intros o raw profile.
  apply (proj1 (proj2 (reactor_profile_normalized o)
                  ltac:(vm_compute; lia))).
  exists ReactorCautious, ReactorBold. vm_compute. discriminate.
Defined.


(** * Further properties *)

(** ** The event queue and the handlers *)

Lemma onEvent_cases (o o' : ObserverSystem) (data : EventData) :
  onEvent o data = Some o' ->
  o' = o
  \/ (exists a, o' = addPlayerAction o a)
  \/ (exists r c, o' = set_context (recordFearResponse o r) c
                  /\ recordableFear (RFearType r)).
Proof.
  unfold onEvent. destruct (Type_ data); try (intros [= <-]; left; reflexivity).
  - unfold recordMovement. destruct (isNil (EPosition data)); [intros [= <-]; auto|].
    destruct (asVector2D (EPosition data)); intros [= <-]; eauto.
  - unfold recordDamage. destruct (isNil (Source data)); [intros [= <-]; auto|].
    destruct (player o); [|discriminate]. intros [= <-]. eauto.
  - unfold recordInteraction. destruct (isNil (Target data)); [intros [= <-]; auto|].
    destruct (player o); [|discriminate]. intros [= <-]. eauto.
  - unfold recordSanityChange. destruct (isNil (Value data)); [intros [= <-]; auto|].
    destruct (asFloat64 (Value data)) as [change|]; [|intros [= <-]; auto].
    destruct (Qltb change 0); [|intros [= <-]; auto].
    intros [= <-]. right. right.
    eexists. exists (context o). split; [reflexivity|]. simpl.
    unfold recordableFear.
    destruct (isNil (Source data)); [auto|].
    destruct (Source data); simpl; auto.
  - unfold recordScareResponse. destruct (Custom data); [|intros [= <-]; auto].
    destruct (isNil _); [intros [= <-]; auto|].
    destruct (asScareEventType _) as [scareType|]; [|intros [= <-]; auto].
    intros [= <-]. right. right. eexists. eexists. split; [reflexivity|].
    simpl. unfold recordableFear. destruct scareType; simpl; auto.
Qed.

Lemma dispatchEvents_invariant (P : ObserverSystem -> Prop) :
  (forall o data o', P o -> onEvent o data = Some o' -> P o') ->
  forall events o o', P o -> dispatchEvents o events = Some o' -> P o'.
Proof.
  intros Hstep events. induction events as [|data rest IH]; intros o o' Ho; simpl.
  - intros [= <-]. exact Ho.
  - destruct (onEvent o data) as [o1|] eqn:E; [|discriminate].
    apply IH. exact (Hstep o data o1 Ho E).
Qed.

Lemma addPlayerAction_length (o : ObserverSystem) (a : PlayerAction) :
  (length (playerActions (addPlayerAction o a)) <= maxActions)%nat.
Proof. rewrite addPlayerAction_actions, lastN_length. lia. Qed.

Lemma recordFearResponse_length (o : ObserverSystem) (r : FearResponse) (k : FearType) :
  (length (responsesOf (fearResponses o) k) <= maxResponses)%nat ->
  (length (responsesOf (fearResponses (recordFearResponse o r)) k) <= maxResponses)%nat.
Proof.
  intros H. unfold responsesOf at 1. rewrite recordFearResponse_lookup.
  destruct (decide (RFearType r = k)); [rewrite lastN_length; lia | exact H].
Qed.

Lemma onEvent_bounded (o o' : ObserverSystem) (data : EventData) :
  historiesBounded o -> onEvent o data = Some o' -> historiesBounded o'.
Proof.
  intros [Ha Hr] H.
  destruct (onEvent_cases o o' data H) as [->|[[a ->]|(r & c & -> & _)]].
  - split; assumption.
  - split; [apply addPlayerAction_length | exact Hr].
  - split; [exact Ha|]. intros k. apply (recordFearResponse_length o r k (Hr k)).
Qed.

(** X1.  Processing a batch of events empties the queue and keeps both
    histories within their bounds: at most 1000 actions and at most 20
    responses for each kind of fear. *)
Theorem ProcessEvents_bounded (em em' : EventManager) (o o' : ObserverSystem) :
  historiesBounded o ->
  ProcessEvents em o = Some (em', o') ->
  queuedEvents em' = [] /\ historiesBounded o'.
Proof.
  intros Hb. unfold ProcessEvents.
  destruct (dispatchEvents o (queuedEvents em)) as [o1|] eqn:E; [|discriminate].
  intros [= <- <-]. split; [reflexivity|].
  apply (dispatchEvents_invariant historiesBounded) with (3 := E); [|exact Hb].
  intros x data x'. apply onEvent_bounded.
Qed.

Lemma ProcessEvents_bounded_witness :
  let em :=
    TriggerWithData
      (TriggerWithData (Trigger NewEventManager EventPlayerInteracted PlayerPtr
                          (Str "door") Nil Nil 0%Z)
         sampleScare)
      sampleSanityDrop in
  exists em' o',
    ProcessEvents em observer0 = Some (em', o')
    /\ queuedEvents em' = [] /\ historiesBounded o'.
Proof.
  intros em.
  destruct (ProcessEvents em observer0) as [[em' o']|] eqn:E;
    [|vm_compute in E; discriminate].
  exists em', o'. split; [reflexivity|].
  apply (ProcessEvents_bounded em em' observer0 o'); [|exact E].
  split; [vm_compute; lia|]. intros k. destruct k; vm_compute; lia.
Defined.

Lemma onEvent_profiles (o o' : ObserverSystem) (data : EventData) :
  onEvent o data = Some o' ->
  fearProfile o' = fearProfile o /\ reactorProfile o' = reactorProfile o
  /\ player o' = player o.
Proof.
  intros H.
  destruct (onEvent_cases o o' data H) as [->|[[a ->]|(r & c & -> & _)]];
    repeat split; reflexivity.
Qed.

Lemma onEvent_other_kinds (k : FearType) (o o' : ObserverSystem) (data : EventData) :
  ~ recordableFear k ->
  onEvent o data = Some o' ->
  fearResponses o' !! k = fearResponses o !! k.
Proof.
  intros Hk H.
  destruct (onEvent_cases o o' data H) as [->|[[a ->]|(r & c & -> & Hr)]];
    try reflexivity.
  change (fearResponses (set_context (recordFearResponse o r) c))
    with (fearResponses (recordFearResponse o r)).
  rewrite recordFearResponse_lookup.
  destruct (decide (RFearType r = k)) as [<-|]; [contradiction | reflexivity].
Qed.

(** X2.  No event adds a response for the fear of darkness, of chases, of
    gore, of closed or of open spaces: a batch of events leaves the history
    of such a kind as it is, and, when that history is empty, the value of
    the kind in the fear profile is still the same after the batch and the
    analysis that follows. *)
Theorem unrecordable_kinds_keep_profile (em em' : EventManager)
    (o o' : ObserverSystem) (k : FearType) :
  ~ recordableFear k ->
  ProcessEvents em o = Some (em', o') ->
  fearResponses o' !! k = fearResponses o !! k
  /\ (responsesOf (fearResponses o) k = [] ->
      fearProfile (analyzeFearProfile o') !! k = fearProfile o !! k).
Proof.
  intros Hk. unfold ProcessEvents.
  destruct (dispatchEvents o (queuedEvents em)) as [o1|] eqn:E; [|discriminate].
  intros [= <- <-].
  assert (H : fearResponses o1 !! k = fearResponses o !! k
              /\ fearProfile o1 = fearProfile o).
  { apply (dispatchEvents_invariant
             (fun x => fearResponses x !! k = fearResponses o !! k
                       /\ fearProfile x = fearProfile o)) with (3 := E).
    - intros x data x' [Hx1 Hx2] Hstep. split.
      + rewrite (onEvent_other_kinds k x x' data Hk Hstep). exact Hx1.
      + destruct (onEvent_profiles x x' data Hstep) as [-> _]. exact Hx2.
    - split; reflexivity. }
  destruct H as [Hr Hp]. split; [exact Hr|].
  intros Hempty. rewrite <- Hp. unfold analyzeFearProfile.
  destruct (size (fearResponses o1) =? 0)%nat; [reflexivity|].
  cbn [fearProfile set_fearProfile].
  apply analyzeFearProfile_fold_other.
  unfold responsesOf in *. rewrite Hr. exact Hempty.
Qed.

Lemma unrecordable_kinds_keep_profile_witness :
  let em := TriggerWithData (TriggerWithData NewEventManager sampleScare)
              sampleSanityDrop in
  exists em' o',
    ProcessEvents em observer0 = Some (em', o')
    /\ fearResponses o' !! FearGore = fearResponses observer0 !! FearGore
    /\ (responsesOf (fearResponses observer0) FearGore = [] ->
        fearProfile (analyzeFearProfile o') !! FearGore
        = fearProfile observer0 !! FearGore).
Proof.
  intros em.
  destruct (ProcessEvents em observer0) as [[em' o']|] eqn:E;
    [|vm_compute in E; discriminate].
  exists em', o'. split; [reflexivity|].
  apply (unrecordable_kinds_keep_profile em em' observer0 o' FearGore); [|exact E].
  unfold recordableFear. intros [H|[H|[H|H]]]; discriminate.
Defined.

(** X3.  A scare event that carries a scare type is recorded as the last
    response of the kind of fear that the type maps to, with the intensity
    of the event, or 0.5 when the event has no numeric value, and with the
    recent loss of sanity; the time since the last scare is set to zero;
    the actions and the sanity of the context are left as they are. *)
Theorem recordScareResponse_effect (o : ObserverSystem) (data : EventData)
    (scareType : ScareEventType) :
  Type_ data = EventScareTriggered ->
  asScareEventType (mapIndex (Custom data) "scareType") = Some scareType ->
  exists o' r,
    onEvent o data = Some o'
    /\ last (responsesOf (fearResponses o') (mapScareEventToFearType scareType))
       = Some r
    /\ RFearType r = mapScareEventToFearType scareType
    /\ StrengthOfFear r
       = match asFloat64 (Value data) with Some v => v | None => 1 # 2 end
    /\ SanityLoss r = RecentSanityLoss (context o)
    /\ TimeSinceLastScare (context o') = 0%Z
    /\ CurrentSanity (context o') = CurrentSanity (context o)
    /\ playerActions o' = playerActions o.
Proof.
  intros Ht Hs. unfold onEvent, recordScareResponse. rewrite Ht.
  destruct (Custom data) as [m|] eqn:Hc; [|discriminate Hs].
  rewrite Hs.
  destruct (mapIndex (Some m) "scareType") eqn:Hi; try discriminate Hs.
  cbn [isNil].
  eexists. eexists. split; [reflexivity|].
  cbn [fearResponses set_context context TimeSinceLastScare CurrentSanity
       playerActions].
  split.
  - unfold responsesOf. rewrite recordFearResponse_lookup.
    cbn [RFearType]. rewrite decide_True by reflexivity.
    change maxResponses with (S 19). rewrite lastN_snoc. apply last_snoc.
  - repeat split. cbn [StrengthOfFear].
    destruct (Value data); reflexivity.
Qed.

Lemma recordScareResponse_effect_witness :
  exists o' r,
    onEvent observer0 sampleScare = Some o'
    /\ last (responsesOf (fearResponses o')
               (mapScareEventToFearType EventCreatureAppearance)) = Some r
    /\ RFearType r = mapScareEventToFearType EventCreatureAppearance
    /\ StrengthOfFear r
       = match asFloat64 (Value sampleScare) with Some v => v | None => 1 # 2 end
    /\ SanityLoss r = RecentSanityLoss (context observer0)
    /\ TimeSinceLastScare (context o') = 0%Z
    /\ CurrentSanity (context o') = CurrentSanity (context observer0)
    /\ playerActions o' = playerActions observer0.
Proof.
  apply (recordScareResponse_effect observer0 sampleScare EventCreatureAppearance);
    reflexivity.
Defined.

(** ** Ticks *)

Lemma wrap64_small (z : Z) :
  (minDuration <= z <= maxDuration)%Z -> wrap64 z = z.
Proof.
  unfold wrap64, minDuration, maxDuration.
  change (2 ^ 63)%Z with 9223372036854775808%Z.
  change (2 ^ 64)%Z with 18446744073709551616%Z.
  intros H. rewrite Z.mod_small by lia. lia.
Qed.

Lemma updateContext_time (o : ObserverSystem) :
  TimeSinceLastScare (context (updateContext o))
  = wrap64 (TimeSinceLastScare (context o) + Second).
Proof. unfold updateContext. destruct (player o); reflexivity. Qed.

Lemma updateContext_loss (o : ObserverSystem) :
  is_Some (player o) -> 0 <= RecentSanityLoss (context (updateContext o)).
Proof.
  intros [p Hp]. unfold updateContext. rewrite Hp. simpl.
  case_Qltb (CurrentSanity (context o) - Sanity p) 0; [lra | exact E].
Qed.

Lemma updateContext_frame (o : ObserverSystem) :
  player (updateContext o) = player o
  /\ playerActions (updateContext o) = playerActions o
  /\ fearResponses (updateContext o) = fearResponses o
  /\ fearProfile (updateContext o) = fearProfile o
  /\ reactorProfile (updateContext o) = reactorProfile o
  /\ recommendedScares (updateContext o) = recommendedScares o.
Proof. repeat split. Qed.

Lemma updateContext_iter_time (n : nat) (o : ObserverSystem) :
  (0 <= TimeSinceLastScare (context o))%Z ->
  (TimeSinceLastScare (context o) + Z.of_nat n * Second <= maxDuration)%Z ->
  TimeSinceLastScare (context (Nat.iter n updateContext o))
  = (TimeSinceLastScare (context o) + Z.of_nat n * Second)%Z.
Proof.
  intros H0. induction n as [|n IH]; intros Hn.
  - simpl. lia.
  - rewrite Nat.iter_succ, updateContext_time.
    unfold Second in *. rewrite IH by lia.
    rewrite wrap64_small; [lia|].
    unfold minDuration, maxDuration in *.
    change (2 ^ 63)%Z with 9223372036854775808%Z in *. lia.
Qed.

(** X4.  Each tick of the context adds one second to the time since the
    last scare: after [n] ticks it is [n] seconds more, as long as that fits
    a [Duration]; a recommendation that is generated then is to be played
    after 30 seconds when that time is below 30 seconds, and after 10
    seconds otherwise; with a player, the recent loss of sanity is not
    negative after a tick. *)
Theorem ticks_and_timing (math_Exp : Q -> Q) (o : ObserverSystem) (n : nat) :
  (0 <= TimeSinceLastScare (context o))%Z ->
  (TimeSinceLastScare (context o) + Z.of_nat n * Second <= maxDuration)%Z ->
  let o' := Nat.iter n updateContext o in
  TimeSinceLastScare (context o')
  = (TimeSinceLastScare (context o) + Z.of_nat n * Second)%Z
  /\ (forall fearType rnd rec,
         generateRecommendationForFearType math_Exp o' fearType rnd = Some rec ->
         Timing rec
         = if (TimeSinceLastScare (context o) + Z.of_nat n * Second <? 30 * Second)%Z
           then (30 * Second)%Z else (10 * Second)%Z)
  /\ (is_Some (player o) -> (0 < n)%nat -> 0 <= RecentSanityLoss (context o')).
Proof.
  intros H0 Hn o'.
  assert (Ht := updateContext_iter_time n o H0 Hn). fold o' in Ht.
  split; [exact Ht|]. split.
  - intros fearType rnd rec. unfold generateRecommendationForFearType.
    destruct (chooseScareTypeForFearType fearType rnd); [|discriminate].
    destruct (player o'); [|discriminate].
    intros [= <-]. cbn [Timing]. rewrite Ht. reflexivity.
  - intros Hp Hpos. unfold o'. destruct n as [|m]; [lia|].
    rewrite Nat.iter_succ. apply updateContext_loss.
    clear -Hp. induction m as [|m IH]; [exact Hp|].
    rewrite Nat.iter_succ.
    destruct (updateContext_frame (Nat.iter m updateContext o)) as [-> _].
    exact IH.
Qed.

Lemma ticks_and_timing_witness :
  let o := Nat.iter 29 updateContext
             (match onEvent observer0 sampleScare with
              | Some o => o | None => observer0 end) in
  exists rec,
    generateRecommendationForFearType (fun _ => 1 # 3) o FearCreatures 0 = Some rec
    /\ Timing rec = (30 * Second)%Z.
Proof.
  intros o.
  destruct (generateRecommendationForFearType (fun _ => 1 # 3) o FearCreatures 0)
    as [rec|] eqn:E; [|vm_compute in E; discriminate].
  exists rec. split; [reflexivity|].
  apply (proj1 (proj2 (ticks_and_timing (fun _ => 1 # 3)
                         (match onEvent observer0 sampleScare with
                          | Some o => o | None => observer0 end) 29
                         ltac:(vm_compute; discriminate)
                         ltac:(vm_compute; discriminate)))
           FearCreatures 0%Z rec E).
Defined.

(** ** Dominant kinds and predicted actions *)

Lemma dominantOf_fold {K} (start : K) (l : list (K * Q)) :
  let r := fold_left dominantStep l (- (1), start) in
  (fst r = - (1) /\ snd r = start /\ Forall (fun e => snd e <= - (1)) l)
  \/ ((snd r, fst r) ∈ l /\ - (1) < fst r /\ Forall (fun e => snd e <= fst r) l).
Proof.
  induction l as [|[k v] l IH] using rev_ind.
  - left. repeat split. constructor.
  - rewrite fold_left_app. cbn [fold_left].
    set (r := fold_left dominantStep l (- (1), start)) in *. cbv zeta in IH.
    unfold dominantStep, Qgtb. cbn [fst snd].
    destruct (Qltb (fst r) v) eqn:E;
      [apply Qltb_true in E | apply Qltb_false in E]; cbn [fst snd].
    + right. split; [apply elem_of_app; right; apply list_elem_of_here|].
      destruct IH as [(H1 & _ & H3)|(_ & H2 & H3)].
      * rewrite H1 in E. split; [exact E|].
        apply Forall_app. split.
        -- eapply Forall_impl; [exact H3|]. cbv beta. intros e He. lra.
        -- constructor; [cbn [snd]; lra | constructor].
      * split; [lra|]. apply Forall_app. split.
        -- eapply Forall_impl; [exact H3|]. cbv beta. intros e He. lra.
        -- constructor; [cbn [snd]; lra | constructor].
    + destruct IH as [(H1 & H2 & H3)|(H1 & H2 & H3)].
      * left. split; [exact H1|]. split; [exact H2|].
        apply Forall_app. split; [exact H3|].
        constructor; [cbn [snd]; rewrite <- H1; exact E | constructor].
      * right. split; [apply elem_of_app; left; exact H1|].
        split; [exact H2|]. apply Forall_app. split; [exact H3|].
        constructor; [exact E | constructor].
Qed.

Lemma elem_of_rangeMap {K V} `{Countable K} (order : list K) (m : gmap K V)
    (k : K) (v : V) :
  (k, v) ∈ rangeMap order m <-> k ∈ order /\ m !! k = Some v.
Proof.
  unfold rangeMap. rewrite list_elem_of_omap. split.
  - intros (k' & Hin & Hk). destruct (m !! k') as [v'|] eqn:E; [|discriminate].
    injection Hk as -> ->. auto.
  - intros [Hin Hk]. exists k. split; [exact Hin|]. rewrite Hk. reflexivity.
Qed.

Lemma dominantOf_rangeMap {K} `{Countable K} (start : K) (order : list K)
    (m : gmap K Q) :
  (forall k, is_Some (m !! k) -> k ∈ order) ->
  let d := dominantOf start (rangeMap order m) in
  (d = start /\ forall k v, m !! k = Some v -> v <= - (1))
  \/ (exists top, m !! d = Some top /\ - (1) < top
                  /\ forall k v, m !! k = Some v -> v <= top).
Proof.
  intros Hall d. unfold d, dominantOf.
  destruct (dominantOf_fold start (rangeMap order m)) as [(_ & H2 & H3)|(H1 & H2 & H3)].
  - left. split; [exact H2|]. intros k v Hk.
    rewrite Forall_forall in H3. apply (H3 (k, v)).
    apply elem_of_rangeMap. split; [apply Hall; eexists; exact Hk | exact Hk].
  - right. eexists. split; [apply elem_of_rangeMap in H1 as [_ H1]; exact H1|].
    split; [exact H2|]. intros k v Hk.
    rewrite Forall_forall in H3. apply (H3 (k, v)).
    apply elem_of_rangeMap. split; [apply Hall; eexists; exact Hk | exact Hk].
Qed.

(** X5.  Whatever the order in which Go ranges over the profile, the
    dominant reactor type and the dominant fear have the greatest value of
    their profile, when some value is above -1; when none is, and in
    particular when the profile is empty, they are [ReactorCautious] and
    [FearUnknown]. *)
Theorem dominant_has_greatest_value (o : ObserverSystem)
    (reactors : list ReactorType) (fears : list FearType) :
  (forall r, is_Some (reactorProfile o !! r) -> r ∈ reactors) ->
  (forall f, is_Some (fearProfile o !! f) -> f ∈ fears) ->
  ((getDominantReactorType reactors o = ReactorCautious
    /\ forall r v, reactorProfile o !! r = Some v -> v <= - (1))
   \/ (exists top,
         reactorProfile o !! getDominantReactorType reactors o = Some top
         /\ - (1) < top
         /\ forall r v, reactorProfile o !! r = Some v -> v <= top))
  /\ ((GetDominantFear fears o = FearUnknown
       /\ forall f v, fearProfile o !! f = Some v -> v <= - (1))
      \/ (exists top,
            fearProfile o !! GetDominantFear fears o = Some top
            /\ - (1) < top
            /\ forall f v, fearProfile o !! f = Some v -> v <= top)).
Proof.
  intros Hr Hf. split.
  - apply (dominantOf_rangeMap ReactorCautious reactors (reactorProfile o) Hr).
  - apply (dominantOf_rangeMap FearUnknown fears (fearProfile o) Hf).
Qed.

Lemma dominant_has_greatest_value_witness :
  let o := set_fearProfile observer0 (<[FearGore := 9 # 10]> (fearProfile observer0)) in
  exists top,
    fearProfile o !! GetDominantFear (reverse allFearTypes) o = Some top
    /\ - (1) < top
    /\ forall f v, fearProfile o !! f = Some v -> v <= top.
Proof.
  intros o.
  destruct (proj2 (dominant_has_greatest_value o allReactorTypes
                     (reverse allFearTypes)
                     ltac:(intros r _; destruct r; vm_compute; set_solver)
                     ltac:(intros f _; destruct f; vm_compute; set_solver)))
    as [[_ H]|H]; [|exact H].
  exfalso. specialize (H FearGore (9 # 10) eq_refl). vm_compute in H.
  apply H. reflexivity.
Defined.

(** X6.  The predicted actions are a distribution over the eight kinds of
    action: every kind has a probability, none is negative and they add up
    to 1; the previous predictions have no part in the new ones. *)
Theorem predictActions_distribution (order : list ReactorType)
    (o : ObserverSystem) (predicted : gmap ActionType Q) :
  let p := predictActions order o predicted in
  p = predictActions order o ∅
  /\ (forall a, exists v, p !! a = Some v /\ 0 <= v)
  /\ profileGet p ActionMove + profileGet p ActionRun + profileGet p ActionHide
     + profileGet p ActionInteract + profileGet p ActionAttack
     + profileGet p ActionInvestigate + profileGet p ActionRetreat
     + profileGet p ActionFreeze == 1.
Proof.
  intros p.
  assert (E : p = predictActions order o ∅).
  { unfold p, predictActions. apply map_eq. intros a.
    destruct (getDominantReactorType order o); cbn [fold_left allActionTypes];
      destruct a;
      repeat first [ rewrite lookup_insert_eq
                   | rewrite lookup_insert_ne by discriminate ];
      reflexivity. }
  split; [exact E|]. rewrite E. clear E p. unfold predictActions.
  destruct (getDominantReactorType order o); split;
    try (intros a; destruct a; vm_compute; eexists;
         (split; [reflexivity | discriminate]));
    vm_compute; reflexivity.
Qed.

(** ** Ranking *)

Lemma insertDesc_sorted {A} (key : A -> Q) (x : A) (l : list A) :
  StronglySorted (fun a b => key b <= key a) l ->
  StronglySorted (fun a b => key b <= key a) (insertDesc key x l).
Proof.
  induction 1 as [|y l Hs IH Hy]; simpl.
  - repeat constructor.
  - unfold Qgtb. case_Qltb (key y) (key x).
    + constructor; [constructor; assumption|].
      constructor; [lra|].
      eapply Forall_impl; [exact Hy|]. cbv beta. intros z Hz. lra.
    + constructor; [exact IH|].
      rewrite insertDesc_Permutation. constructor; assumption.
Qed.

Lemma sortSliceDesc_sorted {A} (key : A -> Q) (l : list A) :
  StronglySorted (fun a b => key b <= key a) (sortSliceDesc key l).
Proof.
  induction l as [|x l IH]; simpl; [constructor|].
  apply insertDesc_sorted. exact IH.
Qed.

Lemma StronglySorted_descendingBy {A} (key : A -> Q) (l : list A) :
  StronglySorted (fun a b => key b <= key a) l -> descendingBy key l.
Proof.
  induction 1 as [|z l Hs IH Hz]; intros i j x y Hij Hi Hj.
  - rewrite lookup_nil in Hi. discriminate.
  - destruct i as [|i], j as [|j]; simpl in Hi, Hj; try lia.
    + injection Hi as <-. injection Hj as <-. lra.
    + injection Hi as <-. rewrite Forall_forall in Hz.
      apply Hz. eapply list_elem_of_lookup_2. exact Hj.
    + apply (IH i j x y); [lia | assumption | assumption].
Qed.

Lemma sortSliceDesc_descending {A} (key : A -> Q) (l : list A) :
  descendingBy key (sortSliceDesc key l).
Proof. apply StronglySorted_descendingBy, sortSliceDesc_sorted. Qed.

(** X7.  The effective kinds of fear are keys of the fear profile, all
    different, three of them or all the keys when there are fewer, and they
    are the best: no key that is left out has a greater value than a kind
    that is returned; they come by decreasing value. *)
Theorem getEffectiveFearTypes_best (o : ObserverSystem) :
  let best := getEffectiveFearTypes o in
  length best = Nat.min 3 (size (fearProfile o))
  /\ NoDup best
  /\ (forall f, f ∈ best -> is_Some (fearProfile o !! f))
  /\ descendingBy (profileGet (fearProfile o)) best
  /\ (forall f g,
         f ∈ best -> is_Some (fearProfile o !! g) -> g ∉ best ->
         profileGet (fearProfile o) g <= profileGet (fearProfile o) f).
Proof.
  unfold getEffectiveFearTypes. cbv zeta.
  set (keys := (map_to_list (fearProfile o)).*1).
  set (sorted := sortSliceDesc (profileGet (fearProfile o)) keys).
  assert (Hperm : Permutation sorted keys) by apply sortSliceDesc_Permutation.
  assert (Hdesc : descendingBy (profileGet (fearProfile o)) sorted)
    by apply sortSliceDesc_descending.
  assert (Hlen : length sorted = size (fearProfile o)).
  { rewrite Hperm. unfold keys. rewrite length_fmap. apply length_map_to_list. }
  assert (Hnd : NoDup sorted).
  { rewrite Hperm. apply NoDup_fst_map_to_list. }
  assert (Hkeys : forall f, f ∈ sorted <-> is_Some (fearProfile o !! f)).
  { intros f. rewrite Hperm. unfold keys. rewrite list_elem_of_fmap. split.
    - intros ([k v] & -> & Hin). apply elem_of_map_to_list in Hin.
      eexists. exact Hin.
    - intros [v Hv]. exists (f, v). split; [reflexivity|].
      apply elem_of_map_to_list. exact Hv. }
  set (count := if (length sorted <? 3)%nat then length sorted else 3%nat).
  assert (Hcount : count = Nat.min 3 (length sorted)).
  { unfold count. destruct (length sorted <? 3)%nat eqn:E;
      [apply Nat.ltb_lt in E | apply Nat.ltb_ge in E]; lia. }
  split; [rewrite length_take, Hcount, Hlen; lia|].
  split; [apply (sublist_NoDup _ sorted); [exact Hnd | apply sublist_take]|].
  split.
  { intros f Hf. apply Hkeys. apply elem_of_take in Hf as (i & Hi & _).
    eapply list_elem_of_lookup_2. exact Hi. }
  split.
  { intros i j x y Hij Hi Hj. apply lookup_take_Some in Hi as [Hi _].
    apply lookup_take_Some in Hj as [Hj _]. exact (Hdesc i j x y Hij Hi Hj). }
  intros f g Hf Hg Hout.
  apply elem_of_take in Hf as (i & Hi & Hlt).
  apply Hkeys in Hg. apply list_elem_of_lookup in Hg as [j Hj].
  destruct (decide (j < count)%nat) as [Hjc|Hjc].
  - exfalso. apply Hout. apply elem_of_take. exists j. split; assumption.
  - apply (Hdesc i j f g); [lia | assumption | assumption].
Qed.

Lemma getEffectiveFearTypes_length (o : ObserverSystem) :
  length (getEffectiveFearTypes o) = Nat.min 3 (size (fearProfile o)).
Proof.
  unfold getEffectiveFearTypes. cbv zeta.
  set (sorted := sortSliceDesc _ _).
  assert (Hlen : length sorted = size (fearProfile o)).
  { unfold sorted. rewrite sortSliceDesc_Permutation, length_fmap.
    apply length_map_to_list. }
  rewrite length_take.
  destruct (length sorted <? 3)%nat eqn:E;
    [apply Nat.ltb_lt in E | apply Nat.ltb_ge in E]; lia.
Qed.

Section RankingProperties.

Variable math_Exp : Q -> Q.

Lemma recommendAll_targets (o : ObserverSystem) (fears : list FearType) (rnd : Z)
    (l : list ScareRecommendation) :
  recommendAll math_Exp o fears rnd = Some l -> FearTarget <$> l = fears.
Proof.
  revert l. induction fears as [|f fears IH]; intros l; simpl.
  - intros [= <-]. reflexivity.
  - destruct (generateRecommendationForFearType math_Exp o f rnd) as [rec|] eqn:E;
      [|discriminate].
    destruct (recommendAll math_Exp o fears rnd) as [l'|]; [|discriminate].
    intros [= <-]. rewrite fmap_cons.
    destruct (generateRecommendation_sound math_Exp o f rnd rec E) as [-> _].
    rewrite (IH l' eq_refl). reflexivity.
Qed.

Lemma recommendAll_nil_player (o : ObserverSystem) (fears : list FearType) (rnd : Z) :
  player o = None -> fears <> [] -> recommendAll math_Exp o fears rnd = None.
Proof.
  intros Hp Hf. destruct fears as [|f fears]; [congruence|]. simpl.
  unfold generateRecommendationForFearType.
  destruct (chooseScareTypeForFearType f rnd); [|reflexivity].
  rewrite Hp. reflexivity.
Qed.

End RankingProperties.

(** X8.  The recommendation pass replaces the list by one recommendation
    for each effective kind of fear, at most three, by priority from the
    greatest to the least, so that the recommendation that
    [GetScareRecommendation] returns has the greatest priority; it returns
    none exactly when the fear profile is empty.  With an empty profile the
    pass only clears the list; with a profile and without a player it
    panics. *)
Theorem GenerateScareRecommendations_ranked (math_Exp : Q -> Q) :
  (forall o rnd o',
      GenerateScareRecommendations math_Exp o rnd = Some o' ->
      descendingBy Priority (recommendedScares o')
      /\ Permutation (FearTarget <$> recommendedScares o') (getEffectiveFearTypes o)
      /\ length (recommendedScares o') = Nat.min 3 (size (fearProfile o))
      /\ (forall best rec,
             GetScareRecommendation o' = Some best ->
             rec ∈ recommendedScares o' -> Priority rec <= Priority best)
      /\ (GetScareRecommendation o' = None <-> fearProfile o = ∅))
  /\ (forall o rnd,
         fearProfile o = ∅ ->
         GenerateScareRecommendations math_Exp o rnd
         = Some (set_recommendedScares o []))
  /\ (forall o rnd,
         player o = None -> fearProfile o <> ∅ ->
         GenerateScareRecommendations math_Exp o rnd = None).
Proof.
  split; [|split].
  - intros o rnd o'. unfold GenerateScareRecommendations.
    change (getEffectiveFearTypes (set_recommendedScares o []))
      with (getEffectiveFearTypes o).
    destruct (recommendAll math_Exp (set_recommendedScares o [])
                (getEffectiveFearTypes o) rnd) as [l|] eqn:E; [|discriminate].
    intros [= <-]. cbn [recommendedScares set_recommendedScares].
    pose proof (recommendAll_targets math_Exp _ _ _ _ E) as Ht.
    pose proof (sortSliceDesc_Permutation Priority l) as Hperm.
    pose proof (sortSliceDesc_descending Priority l) as Hdesc.
    assert (Hlen : length (sortSliceDesc Priority l)
                   = Nat.min 3 (size (fearProfile o))).
    { rewrite Hperm, <- (length_fmap FearTarget), Ht.
      apply getEffectiveFearTypes_length. }
    split; [exact Hdesc|].
    split; [rewrite Hperm, Ht; reflexivity|].
    split; [exact Hlen|].
    unfold GetScareRecommendation. cbn [recommendedScares set_recommendedScares].
    split.
    + intros best rec Hb Hin.
      destruct (sortSliceDesc Priority l) as [|b rest] eqn:Es; [discriminate|].
      injection Hb as ->.
      apply list_elem_of_lookup in Hin as [j Hj].
      apply (Hdesc 0%nat j best rec); [lia | reflexivity | exact Hj].
    + rewrite <- map_size_empty_iff.
      destruct (sortSliceDesc Priority l) as [|b rest]; cbn [length] in Hlen.
      * split; [intros _; lia | reflexivity].
      * split; [discriminate | intros H0; lia].
  - intros o rnd He. unfold GenerateScareRecommendations.
    assert (Hnil : getEffectiveFearTypes (set_recommendedScares o []) = []).
    { apply length_zero_iff_nil.
      change (getEffectiveFearTypes (set_recommendedScares o []))
        with (getEffectiveFearTypes o).
      rewrite getEffectiveFearTypes_length, He, map_size_empty. reflexivity. }
    rewrite Hnil. reflexivity.
  - intros o rnd Hp Hne. unfold GenerateScareRecommendations.
    rewrite recommendAll_nil_player; [reflexivity | exact Hp |].
    intros Hnil. apply Hne. apply map_size_empty_iff.
    pose proof (getEffectiveFearTypes_length o) as Hl.
    change (getEffectiveFearTypes (set_recommendedScares o []))
      with (getEffectiveFearTypes o) in Hnil.
    rewrite Hnil in Hl. cbn [length] in Hl. lia.
Qed.

Lemma GenerateScareRecommendations_ranked_witness :
  let o := set_fearProfile observer0 (<[FearGore := 9 # 10]> (fearProfile observer0)) in
  exists o',
    GenerateScareRecommendations (fun _ => 1 # 3) o 2 = Some o'
    /\ descendingBy Priority (recommendedScares o')
    /\ length (recommendedScares o') = Nat.min 3 (size (fearProfile o)).
Proof.
  intros o.
  destruct (GenerateScareRecommendations (fun _ => 1 # 3) o 2) as [o'|] eqn:E;
    [|vm_compute in E; discriminate].
  exists o'. split; [reflexivity|].
  destruct (proj1 (GenerateScareRecommendations_ranked (fun _ => 1 # 3)) o 2%Z o' E)
    as (H1 & _ & H3 & _).
  split; assumption.
Defined.

(** ** The Director *)

Lemma updateMoodAndTension_frame (d : Director) :
  dplayer (updateMoodAndTension d) = dplayer d
  /\ world (updateMoodAndTension d) = world d
  /\ scareHistory (updateMoodAndTension d) = scareHistory d
  /\ mood (updateMoodAndTension d) = mood d.
Proof. repeat split. Qed.

Lemma updateMoodAndTension_tension (d : Director) :
  tension (updateMoodAndTension d) == Qmin 1 (tension d + (1 # 100)).
Proof.
  unfold updateMoodAndTension. cbn [tension]. unfold Qgtb.
  case_Qltb 1 (tension d + (1 # 100)).
  - symmetry. apply Q.min_l. lra.
  - symmetry. apply Q.min_r. exact E.
Qed.

Lemma tension_iter (n : nat) (d : Director) :
  tension d <= 1 ->
  tension (Nat.iter n updateMoodAndTension d)
  == Qmin 1 (tension d + inject_Z (Z.of_nat n) * (1 # 100)).
Proof.
  intros H. induction n as [|n IH].
  - change (inject_Z (Z.of_nat 0)) with 0. cbn [Nat.iter nat_rect].
    symmetry. rewrite Q.min_r; lra.
  - rewrite Nat.iter_succ, updateMoodAndTension_tension, IH.
    rewrite Nat2Z.inj_succ, <- Z.add_1_r, inject_Z_plus.
    change (inject_Z 1) with 1.
    destruct (Q.min_spec 1 (tension d + inject_Z (Z.of_nat n) * (1 # 100)))
      as [[H1 ->]|[H1 ->]];
      destruct (Q.min_spec 1 (tension d + (inject_Z (Z.of_nat n) + 1) * (1 # 100)))
        as [[H2 ->]|[H2 ->]];
      destruct (Q.min_spec 1 (1 + (1 # 100))) as [[H3 H3']|[H3 H3']];
      destruct (Q.min_spec 1 (tension d + inject_Z (Z.of_nat n) * (1 # 100) + (1 # 100)))
        as [[H4 H4']|[H4 H4']];
      try rewrite H3'; try rewrite H4'; lra.
Qed.

(** X9.  The tension of the Director never decreases and never exceeds 1:
    from a tension of at most 1, [n] updates give
    [min(1, tension + n / 100)]; the mood, the history and the player are
    left as they are. *)
Theorem tension_after_updates (d : Director) (n : nat) :
  tension d <= 1 ->
  let d' := Nat.iter n updateMoodAndTension d in
  tension d' == Qmin 1 (tension d + inject_Z (Z.of_nat n) * (1 # 100))
  /\ tension d <= tension d' /\ tension d' <= 1
  /\ mood d' = mood d /\ scareHistory d' = scareHistory d
  /\ dplayer d' = dplayer d.
Proof.
  intros H d'. pose proof (tension_iter n d H) as Ht. fold d' in Ht.
  assert (Hn : 0 <= inject_Z (Z.of_nat n)).
  { change 0 with (inject_Z 0). rewrite <- Zle_Qle. lia. }
  split; [exact Ht|].
  destruct (Q.min_spec 1 (tension d + inject_Z (Z.of_nat n) * (1 # 100)))
    as [[H1 H2]|[H1 H2]]; rewrite H2 in Ht.
  - split; [lra|]. split; [lra|]. unfold d'. clear.
    induction n as [|n (IH1 & IH2 & IH3)]; [repeat split|].
    rewrite Nat.iter_succ. repeat split; assumption.
  - split; [nra|]. split; [lra|]. unfold d'. clear.
    induction n as [|n (IH1 & IH2 & IH3)]; [repeat split|].
    rewrite Nat.iter_succ. repeat split; assumption.
Qed.

Lemma tension_after_updates_witness :
  let d := NewDirector (Some samplePlayer) (mkWorld true true []) in
  tension (Nat.iter 95 updateMoodAndTension d) == 1.
Proof.
  intros d.
  destruct (tension_after_updates d 95 ltac:(vm_compute; discriminate))
    as (H & _).
  rewrite H. vm_compute. reflexivity.
Defined.

(** X10.  A scare event that is executed becomes the last event of the
    history; as long as it is at most 30 seconds old, the chance of the next
    scare is a tenth of the tension, without a bonus: a scare fires exactly
    when the draw is below it. *)
Theorem executeScareEvent_resets_chance (d d' : Director) (event : ScareEvent) :
  executeScareEvent d event = Some d' ->
  scareHistory d' = scareHistory d ++ [event]
  /\ tension d' = tension d
  /\ forall now draw,
       (Time_Sub now (STimestamp event) <= 30 * Second)%Z ->
       (shouldCreateScareEvent d' now draw = true
        <-> draw < tension d * (1 # 10)).
Proof.
  unfold executeScareEvent. destruct (dplayer d); [|discriminate].
  intros [= <-]. cbn [scareHistory tension]. repeat split.
  - unfold shouldCreateScareEvent. cbn [scareHistory tension].
    rewrite last_snoc.
    destruct (30 * Second <? Time_Sub now (STimestamp event))%Z eqn:E1;
      [apply Z.ltb_lt in E1; lia|].
    destruct (60 * Second <? Time_Sub now (STimestamp event))%Z eqn:E2;
      [apply Z.ltb_lt in E2; unfold Second in *; lia|].
    apply Qltb_true.
  - unfold shouldCreateScareEvent. cbn [scareHistory tension].
    rewrite last_snoc.
    destruct (30 * Second <? Time_Sub now (STimestamp event))%Z eqn:E1;
      [apply Z.ltb_lt in E1; lia|].
    destruct (60 * Second <? Time_Sub now (STimestamp event))%Z eqn:E2;
      [apply Z.ltb_lt in E2; unfold Second in *; lia|].
    apply Qltb_true.
Qed.

Lemma executeScareEvent_resets_chance_witness :
  let d := mkDirector (Some samplePlayer) (mkWorld true true []) [] ∅ (3 # 10) 1 in
  let e := mkScareEvent EventWhisper (1 # 2) zeroVector2D (2 * Second)%Z "" 0%Z in
  exists d',
    executeScareEvent d e = Some d'
    /\ shouldCreateScareEvent d' (20 * Second)%Z (2 # 10) = false.
Proof.
  intros d e.
  destruct (executeScareEvent d e) as [d'|] eqn:E; [|discriminate E].
  exists d'. split; [reflexivity|].
  destruct (executeScareEvent_resets_chance d d' e E) as (_ & _ & H).
  apply not_true_iff_false. intros F.
  apply (H (20 * Second)%Z (2 # 10)) in F; [|vm_compute; discriminate].
  vm_compute in F. discriminate F.
Defined.

Lemma ScareEventType_of_Z_total (n : Z) :
  (0 <= n < 6)%Z -> is_Some (ScareEventType_of_Z n).
Proof.
  intros H. unfold ScareEventType_of_Z.
  destruct (n <? 0)%Z eqn:E; [apply Z.ltb_lt in E; lia|].
  assert (Hn : (Z.to_nat n < 6)%nat) by lia.
  destruct (Z.to_nat n) as [|[|[|[|[|[|k]]]]]]; simpl; try (eexists; reflexivity).
  lia.
Qed.

Lemma chooseCreatureType_total (n : Z) :
  (0 <= n < 6)%Z -> is_Some (chooseCreatureType n).
Proof.
  intros H. unfold chooseCreatureType.
  destruct (n <? 0)%Z eqn:E; [apply Z.ltb_lt in E; lia|].
  apply lookup_lt_is_Some. simpl. lia.
Qed.

Section DirectorEventProperties.

Variables math_Cos math_Sin : Q -> Q.
Variable math_Pi : Q.

Lemma createScareEvent_intensity (d : Director) (m : DirectorMind) (r : ScareDraws)
    (now : Z) (e : ScareEvent) :
  createScareEvent math_Cos math_Sin math_Pi d m r now = Some e ->
  SIntensity e <= 1
  /\ (0 <= mood d -> 0 <= intensityDraw r -> 0 <= SIntensity e).
Proof.
  unfold createScareEvent.
  destruct (chooseEventType d (kindDraw r)) as [eventType|]; [|discriminate].
  destruct (dplayer d) as [p|]; [|discriminate].
  set (i0 := mood d * ((7 # 10) + intensityDraw r * (3 # 10))).
  set (i1 := if Qltb (ReactivityToScares (playerBehavior m)) (3 # 10)
             then i0 * (15 # 10) else i0).
  set (i2 := if Qgtb i1 1 then 1 else i1).
  assert (H : i2 <= 1 /\ (0 <= mood d -> 0 <= intensityDraw r -> 0 <= i2)).
  { unfold i2, Qgtb. case_Qltb 1 i1; [split; lra|]. split; [exact E|].
    intros Hm Hr. unfold i1.
    assert (H0 : 0 <= i0) by (unfold i0; nra).
    destruct (Qltb _ _); lra. }
  destruct eventType;
    try (intros [= <-]; exact H).
  destruct (chooseCreatureType (creatureDraw r)); [|discriminate].
  intros [= <-]. exact H.
Qed.

End DirectorEventProperties.

(** X11.  With a player and with draws that [rand] can make,
    [createScareEvent] makes an event: its intensity is at most 1, and not
    negative when the mood is not; it lasts from 2 to 6 seconds and is
    stamped with the instant of its creation.  An event that is not the
    appearance of a creature is placed at the origin, whatever the position
    of the player; a creature is placed at a distance between 10 and 30 of
    the player, when the cosine and the sine of the angle have squares that
    add up to 1. *)
Theorem createScareEvent_bounds (math_Cos math_Sin : Q -> Q) (math_Pi : Q)
    (d : Director) (m : DirectorMind) (r : ScareDraws) (now : Z) (p : Player) :
  dplayer d = Some p ->
  validDraws r ->
  exists e,
    createScareEvent math_Cos math_Sin math_Pi d m r now = Some e
    /\ ScareEventType_of_Z (kindDraw r) = Some (SType e)
    /\ SIntensity e <= 1
    /\ (0 <= mood d -> 0 <= SIntensity e)
    /\ (2 * Second <= SDuration e <= 6 * Second)%Z
    /\ STimestamp e = now
    /\ (SType e <> EventCreatureAppearance -> SPosition e = zeroVector2D)
    /\ (SType e = EventCreatureAppearance ->
        let angle := angleDraw r * 2 * math_Pi in
        math_Cos angle * math_Cos angle + math_Sin angle * math_Sin angle == 1 ->
        exists distance,
          10 <= distance /\ distance < 30
          /\ (X (SPosition e) - X (Position p)) * (X (SPosition e) - X (Position p))
             + (Y (SPosition e) - Y (Position p)) * (Y (SPosition e) - Y (Position p))
             == distance * distance).
Proof.
  intros Hp (Hk & Hd & Hc & (Hi0 & Hi1) & _ & (Hs0 & Hs1)).
  destruct (ScareEventType_of_Z_total (kindDraw r) Hk) as [eventType Hkind].
  destruct (chooseCreatureType_total (creatureDraw r) Hc) as [creature Hcreature].
  assert (Hchoose : chooseEventType d (kindDraw r) = Some eventType).
  { unfold chooseEventType. destruct (size (scareEffectiveness d) =? 0)%nat;
      exact Hkind. }
  assert (He : is_Some (createScareEvent math_Cos math_Sin math_Pi d m r now)).
  { unfold createScareEvent. rewrite Hchoose, Hp, Hcreature.
    destruct eventType; eexists; reflexivity. }
  destruct He as [e He]. exists e. split; [exact He|].
  destruct (createScareEvent_intensity math_Cos math_Sin math_Pi d m r now e He)
    as [Hle Hge].
  unfold createScareEvent in He. rewrite Hchoose, Hp, Hcreature in He.
  assert (Hdur : (2 * Second <= (2 + durationDraw r) * Second <= 6 * Second)%Z)
    by (unfold Second; lia).
  destruct eventType; injection He as <-; cbn [SType SIntensity SDuration
      STimestamp SPosition VectorFromEntity X Y];
    (split; [exact Hkind|]); (split; [exact Hle|]);
    (split; [intros Hm; apply Hge; assumption|]);
    (split; [exact Hdur|]); (split; [reflexivity|]);
    (split; [intros Hne; try reflexivity; congruence|]);
    try (intros F; discriminate F).
  intros _ Hunit. exists (10 + distanceDraw r * 20).
  split; [lra|]. split; [lra|].
  set (c := math_Cos _) in *. set (s := math_Sin _) in *.
  set (dist := 10 + distanceDraw r * 20).
  transitivity ((c * c + s * s) * (dist * dist)); [ring|].
  rewrite Hunit. ring.
Qed.

Lemma createScareEvent_bounds_witness :
  let d := NewDirector (Some samplePlayer) (mkWorld true true []) in
  let r := mkScareDraws 2 (1 # 2) 3 4 (1 # 4) (1 # 2) in
  exists e,
    createScareEvent (fun _ => 3 # 5) (fun _ => 4 # 5) (355 # 113) d
      (NewDirectorMind 0) r 7 = Some e
    /\ SIntensity e <= 1
    /\ (2 * Second <= SDuration e <= 6 * Second)%Z
    /\ exists distance,
         10 <= distance /\ distance < 30
         /\ (X (SPosition e) - 128) * (X (SPosition e) - 128)
            + (Y (SPosition e) - 128) * (Y (SPosition e) - 128)
            == distance * distance.
Proof.
  intros d r.
  destruct (createScareEvent_bounds (fun _ => 3 # 5) (fun _ => 4 # 5) (355 # 113)
              d (NewDirectorMind 0) r 7 samplePlayer eq_refl)
    as (e & He & Hk & Hi & _ & Hd & _ & _ & Hpos).
  { unfold validDraws. vm_compute. intuition discriminate. }
  exists e. split; [exact He|]. split; [exact Hi|]. split; [exact Hd|].
  apply Hpos.
  - assert (E : ScareEventType_of_Z (kindDraw r) = Some EventCreatureAppearance)
      by reflexivity.
    congruence.
  - vm_compute. reflexivity.
Defined.

Lemma createScareEvent_total (math_Cos math_Sin : Q -> Q) (math_Pi : Q)
    (d : Director) (m : DirectorMind) (r : ScareDraws) (now : Z) :
  is_Some (dplayer d) -> validDraws r ->
  is_Some (createScareEvent math_Cos math_Sin math_Pi d m r now).
Proof.
  intros [p Hp] (Hk & _ & Hc & _).
  destruct (ScareEventType_of_Z_total (kindDraw r) Hk) as [eventType Hkind].
  destruct (chooseCreatureType_total (creatureDraw r) Hc) as [creature Hcreature].
  unfold createScareEvent, chooseEventType.
  destruct (size (scareEffectiveness d) =? 0)%nat;
    rewrite Hkind, Hp, Hcreature; destruct eventType; eexists; reflexivity.
Qed.

Lemma executeScareEvent_effects (d d' : Director) (event : ScareEvent) :
  executeScareEvent d event = Some d' ->
  (length (effects (world d')) <= S (length (effects (world d))))%nat
  /\ (SType event <> EventCreatureAppearance ->
      SType event <> EventEnvironmentChange -> world d' = world d).
Proof.
  unfold executeScareEvent. destruct (dplayer d); [|discriminate].
  intros [= <-]. cbn [world]. split.
  - destruct (SType event); try lia;
      [destruct (hasSpawnCreature (world d)) | destruct (hasModifyEnvironment (world d))];
      cbn [effects]; rewrite ?length_app; simpl; lia.
  - intros H1 H2. destruct (SType event); congruence.
Qed.

(** X12.  One call of [AdjustWorld], with a player whose sanity is not
    negative, a mood that is not negative and draws that [rand] can make,
    returns: without a scare the Director is what it was; with a scare the
    history has one event more, the world at most one effect more, and the
    sanity of the player has gone down by at most 5, and not below 0.  The
    position and the health of the player, the mood and the tension are
    left as they are. *)
Theorem AdjustWorld_step (math_Cos math_Sin : Q -> Q) (math_Pi : Q)
    (d : Director) (m : DirectorMind) (fireDraw : Q) (r : ScareDraws) (now : Z)
    (p : Player) :
  dplayer d = Some p -> validDraws r -> 0 <= mood d -> 0 <= Sanity p ->
  exists d' p',
    AdjustWorld math_Cos math_Sin math_Pi d m fireDraw r now = Some d'
    /\ dplayer d' = Some p'
    /\ 0 <= Sanity p' /\ Sanity p - 5 <= Sanity p' /\ Sanity p' <= Sanity p
    /\ Position p' = Position p /\ Health p' = Health p
    /\ mood d' = mood d /\ tension d' = tension d
    /\ (length (effects (world d')) <= S (length (effects (world d))))%nat
    /\ (shouldCreateScareEvent d now fireDraw = false -> d' = d)
    /\ (shouldCreateScareEvent d now fireDraw = true ->
        exists event, scareHistory d' = scareHistory d ++ [event]
                      /\ STimestamp event = now).
Proof.
  intros Hp Hr Hm Hs. unfold AdjustWorld.
  destruct (shouldCreateScareEvent d now fireDraw) eqn:Hfire.
  - destruct (createScareEvent_total math_Cos math_Sin math_Pi d m r now
                ltac:(eexists; exact Hp) Hr) as [event Hevent].
    rewrite Hevent.
    destruct (createScareEvent_intensity math_Cos math_Sin math_Pi d m r now
                event Hevent) as [Hle Hge].
    assert (H0 : 0 <= SIntensity event).
    { apply Hge; [exact Hm|]. destruct Hr as (_ & _ & _ & (H & _) & _). exact H. }
    destruct (executeScareEvent d event) as [d'|] eqn:He;
      [|unfold executeScareEvent in He; rewrite Hp in He; discriminate].
    destruct (executeScareEvent_effects d d' event He) as [Heff _].
    exists d', (ReduceSanity p (SIntensity event * 5)).
    split; [reflexivity|].
    unfold executeScareEvent in He. rewrite Hp in He. injection He as <-.
    cbn [dplayer mood tension scareHistory world] in *.
    split; [reflexivity|].
    unfold ReduceSanity. cbn [Sanity Position Health].
    assert (Hsan : 0 <= (if Qltb (Sanity p - SIntensity event * 5) 0 then 0
                         else Sanity p - SIntensity event * 5)
                   /\ Sanity p - 5
                      <= (if Qltb (Sanity p - SIntensity event * 5) 0 then 0
                          else Sanity p - SIntensity event * 5)
                   /\ (if Qltb (Sanity p - SIntensity event * 5) 0 then 0
                       else Sanity p - SIntensity event * 5) <= Sanity p).
    { case_Qltb (Sanity p - SIntensity event * 5) 0; repeat split; lra. }
    destruct Hsan as (S1 & S2 & S3).
    repeat (split; [first [assumption | reflexivity]|]).
    split; [discriminate|].
    intros _. exists event. split; [reflexivity|].
    unfold createScareEvent in Hevent.
    destruct (chooseEventType d (kindDraw r)) as [eventType|]; [|discriminate].
    rewrite Hp in Hevent.
    destruct eventType; try (injection Hevent as <-; reflexivity).
    destruct (chooseCreatureType (creatureDraw r)); [|discriminate].
    injection Hevent as <-. reflexivity.
  - exists d, p. split; [reflexivity|]. split; [exact Hp|].
    repeat (split; [first [assumption | reflexivity | lra | lia]|]).
    discriminate.
Qed.

Lemma AdjustWorld_step_witness :
  let d := NewDirector (Some samplePlayer) (mkWorld true true []) in
  let r := mkScareDraws 3 (1 # 2) 3 4 (1 # 4) (1 # 2) in
  exists d' p',
    AdjustWorld (fun _ => 3 # 5) (fun _ => 4 # 5) (355 # 113) d
      (NewDirectorMind 0) (1 # 4) r 7 = Some d'
    /\ dplayer d' = Some p'
    /\ 0 <= Sanity p' /\ Sanity samplePlayer - 5 <= Sanity p'
    /\ Sanity p' <= Sanity samplePlayer.
Proof.
  intros d r.
  destruct (AdjustWorld_step (fun _ => 3 # 5) (fun _ => 4 # 5) (355 # 113)
              d (NewDirectorMind 0) (1 # 4) r 7 samplePlayer eq_refl)
    as (d' & p' & H1 & H2 & H3 & H4 & H5 & _).
  - unfold validDraws. vm_compute. intuition discriminate.
  - vm_compute. discriminate.
  - vm_compute. discriminate.
  - exists d', p'. repeat split; assumption.
Defined.




(** ** The player *)




Lemma damage_fold (l : list Q) (h : Q) :
  0 <= h -> Forall (fun a => 0 <= a) l ->
  fold_left (fun x a => if Qltb (x - a) 0 then 0 else x - a) l h
  == Qmax 0 (h - fold_right Qplus 0 l).
Proof.
  intros Hh Hl. revert h Hh. induction Hl as [|a l Ha Hl IH]; intros h Hh.
  - cbn [fold_left fold_right]. rewrite Q.max_r; lra.
  - cbn [fold_left fold_right].
    assert (Hs : 0 <= fold_right Qplus 0 l).
    { clear -Hl. induction Hl as [|b l Hb Hl IH]; cbn [fold_right]; lra. }
    case_Qltb (h - a) 0.
    + rewrite IH by lra. rewrite !Q.max_l; lra.
    + rewrite IH by exact E.
      apply Q.max_compat; [reflexivity | ring].
Qed.

(** X15.  A sequence of damages, none of them negative, leaves the health
    at [max(0, health - total)], and a sequence of losses of sanity leaves
    the sanity at [max(0, sanity - total)]: what is lost beyond zero is not
    remembered. *)
Theorem damage_accumulates (l : list Q) (p : Player) :
  Forall (fun a => 0 <= a) l ->
  (0 <= Health p ->
   Health (fold_left entity.TakeDamage l p)
   == Qmax 0 (Health p - fold_right Qplus 0 l))
  /\ (0 <= Sanity p ->
      Sanity (fold_left ReduceSanity l p)
      == Qmax 0 (Sanity p - fold_right Qplus 0 l)).
Proof.
  intros Hl. split; intros Hp; rewrite <- (damage_fold l _ Hp Hl); clear.
  - revert p. induction l as [|a l IH]; intros p; [reflexivity|].
    cbn [fold_left]. rewrite IH. reflexivity.
  - revert p. induction l as [|a l IH]; intros p; [reflexivity|].
    cbn [fold_left]. rewrite IH. reflexivity.
Qed.

Lemma damage_accumulates_witness :
  Health (fold_left entity.TakeDamage [60; 70; 5] samplePlayer)
  == Qmax 0 (Health samplePlayer - fold_right Qplus 0 [60; 70; 5]).
Proof.
  apply (proj1 (damage_accumulates [60; 70; 5] samplePlayer
                  ltac:(repeat constructor; discriminate))).
  vm_compute. discriminate.
Defined.

(** ** The Analyzer *)

Lemma RecordScareResponse_step (st : Analyzer * analyzer.Rest) (event : ScareEvent)
    (response : Q) (t : ScareEventType) :
  let st' := RecordScareResponse st event response in
  analyzer.scareHistory (snd st')
  = lastN 50 (analyzer.scareHistory (snd st) ++ [event])
  /\ (SType event = t ->
      analyzer.scareResponses (snd st') !! t
      = Some (scareResponsesOf (snd st) t ++ [response])
      /\ ResponseToScareEvents (interactionAnalysis (fst st')) !! t
         = Some (totalResponse (scareResponsesOf (snd st) t ++ [response])
                 / float64_of_int
                     (Z.of_nat (length (scareResponsesOf (snd st) t ++ [response])))))
  /\ (SType event <> t ->
      analyzer.scareResponses (snd st') !! t = analyzer.scareResponses (snd st) !! t
      /\ ResponseToScareEvents (interactionAnalysis (fst st')) !! t
         = ResponseToScareEvents (interactionAnalysis (fst st)) !! t).
Proof.
  intros st'. unfold st', RecordScareResponse, scareResponsesOf.
  cbn [fst snd analyzer.scareHistory analyzer.scareResponses interactionAnalysis
       set_interactionAnalysis ResponseToScareEvents].
  split; [|split].
  - destruct (50 <? length _)%nat eqn:E; [reflexivity|].
    apply Nat.ltb_ge in E. symmetry. apply lastN_all. exact E.
  - intros <-. rewrite !lookup_insert_eq.
    destruct (analyzer.scareResponses (snd st) !! SType event) as [l|] eqn:El.
    + rewrite El. split; reflexivity.
    + rewrite lookup_insert_eq. split; reflexivity.
  - intros Hne. rewrite !lookup_insert_ne by exact Hne. split; [|reflexivity].
    destruct (analyzer.scareResponses (snd st) !! SType event); [reflexivity|].
    apply lookup_insert_ne. exact Hne.
Qed.

Lemma totalResponse_bounds (l : list Q) (acc : Q) :
  Forall (fun x => 0 <= x /\ x <= 1) l ->
  acc <= fold_left (fun total resp => total + resp) l acc
  /\ fold_left (fun total resp => total + resp) l acc
     <= acc + inject_Z (Z.of_nat (length l)).
Proof.
  intros H. revert acc. induction H as [|x l [H0 H1] Hl IH]; intros acc.
  - cbn [fold_left length]. change (inject_Z (Z.of_nat 0)) with 0. split; lra.
  - cbn [fold_left length]. destruct (IH (acc + x)) as [Ha Hb].
    rewrite Nat2Z.inj_succ, <- Z.add_1_r, inject_Z_plus.
    change (inject_Z 1) with 1. split; lra.
Qed.

(** X16.  After any sequence of recorded scare responses, the Analyzer
    holds, for every type of scare, all the responses to that type in the
    order of their recording, and no mean for a type without a response;
    the mean response of a type with responses is their sum divided by
    their number, and lies between 0 and 1 when the responses do; the
    history of scares holds the last 50 events. *)
Theorem RecordScareResponse_means (records : list (ScareEvent * Q))
    (t : ScareEventType) :
  let st :=
    fold_left (fun st r => RecordScareResponse st (fst r) (snd r)) records
      (NewAnalyzer, analyzer.NewRest) in
  let rs := responsesTo t records in
  scareResponsesOf (snd st) t = rs
  /\ analyzer.scareHistory (snd st) = lastN 50 (fst <$> records)
  /\ (rs = [] -> ResponseToScareEvents (interactionAnalysis (fst st)) !! t = None)
  /\ (rs <> [] ->
      ResponseToScareEvents (interactionAnalysis (fst st)) !! t
      = Some (totalResponse rs / float64_of_int (Z.of_nat (length rs)))
      /\ (Forall (fun x => 0 <= x /\ x <= 1) rs ->
          0 <= totalResponse rs / float64_of_int (Z.of_nat (length rs))
          /\ totalResponse rs / float64_of_int (Z.of_nat (length rs)) <= 1)).
Proof.
  cbv zeta. unfold responsesTo.
  induction records as [|[event response] records IH] using rev_ind.
  - cbn [fold_left]. split; [reflexivity|]. split; [reflexivity|].
    split; [reflexivity|]. intros Hne. exfalso. apply Hne. reflexivity.
  - rewrite fold_left_app. cbn [fold_left fst snd].
    set (st := fold_left _ records _) in *.
    destruct IH as (IH1 & IH2 & IH3 & IH4).
    destruct (RecordScareResponse_step st event response t) as (S1 & S2 & S3).
    cbv zeta in S1, S2, S3.
    rewrite filter_app, !fmap_app.
    assert (Hhist : analyzer.scareHistory (snd (RecordScareResponse st event response))
                    = lastN 50 ((fst <$> records) ++ [event])).
    { rewrite S1, IH2. change 50%nat with (S 49). apply lastN_lastN_snoc. }
    destruct (decide (SType event = t)) as [Ht|Ht].
    + rewrite filter_cons_True by exact Ht. rewrite filter_nil.
      cbn [fmap list_fmap snd].
      destruct (S2 Ht) as [R1 R2]. rewrite IH1 in R1, R2.
      split; [unfold scareResponsesOf; rewrite R1; reflexivity|].
      split; [exact Hhist|].
      split; [intros H; apply app_eq_nil in H as [_ H']; discriminate H'|].
      intros _. split; [exact R2|].
      intros Hall.
      set (l := (snd <$> filter _ records) ++ [response]) in *.
      destruct (totalResponse_bounds l 0 Hall) as [B0 B1].
      fold (totalResponse l) in B0, B1.
      assert (Hn : 0 < inject_Z (Z.of_nat (length l))).
      { change 0 with (inject_Z 0). rewrite <- Zlt_Qlt.
        unfold l. rewrite length_app. simpl. lia. }
      unfold float64_of_int. split.
      * apply Qle_shift_div_l; [exact Hn | lra].
      * apply Qle_shift_div_r; [exact Hn | lra].
    + rewrite filter_cons_False by exact Ht. rewrite filter_nil.
      cbn [fmap list_fmap]. rewrite app_nil_r.
      destruct (S3 Ht) as [R1 R2].
      split; [unfold scareResponsesOf in *; rewrite R1; exact IH1|].
      split; [exact Hhist|].
      split; [intros H; rewrite R2; apply IH3; exact H|].
      intros H. rewrite R2. apply IH4. exact H.
Qed.

Lemma RecordScareResponse_means_witness :
  let e1 := mkScareEvent EventSuddenNoise (1 # 2) zeroVector2D (2 * Second)%Z "" 1%Z in
  let e2 := mkScareEvent EventWhisper (1 # 2) zeroVector2D (2 * Second)%Z "" 2%Z in
  let records : list (ScareEvent * Q) := [(e1, (9 # 10)); (e2, (1 # 10)); (e1, 1)] in
  let st :=
    fold_left (fun st r => RecordScareResponse st (fst r) (snd r)) records
      (NewAnalyzer, analyzer.NewRest) in
  ResponseToScareEvents (interactionAnalysis (fst st)) !! EventSuddenNoise
  = Some (totalResponse [9 # 10; 1] / float64_of_int 2).
Proof.
  intros e1 e2 records st.
  destruct (RecordScareResponse_means records EventSuddenNoise) as (_ & _ & _ & H).
  apply H. discriminate.
Defined.

(** ** Detected patterns *)

Lemma addPatternTo_names_iff (l : list PlayerPattern) (q : PlayerPattern) (n : string) :
  n ∈ Name <$> addPatternTo l q <-> n ∈ Name <$> l \/ n = Name q.
Proof.
  split; [apply addPatternTo_names|].
  induction l as [|p l IH]; simpl.
  - intros [H | ->]; [apply elem_of_nil in H; contradiction | apply list_elem_of_here].
  - destruct (String.eqb_spec (Name p) (Name q)) as [E|E]; simpl.
    + intros [H | ->]; [exact H|]. rewrite <- E. apply list_elem_of_here.
    + rewrite !elem_of_cons. intros [[H|H]|H]; auto.
Qed.

Lemma addPattern_length (a : Analyzer) (q : PlayerPattern) :
  (length (detectedPatterns (addPattern a q)) <= S (length (detectedPatterns a)))%nat.
Proof.
  unfold addPattern. cbn [detectedPatterns set_detectedPatterns].
  induction (detectedPatterns a) as [|p l IH]; simpl; [lia|].
  destruct (String.eqb (Name p) (Name q)); simpl; lia.
Qed.

Lemma addPattern_names (a : Analyzer) (q : PlayerPattern) (n : string) :
  n ∈ Name <$> detectedPatterns (addPattern a q)
  <-> n ∈ Name <$> detectedPatterns a \/ n = Name q.
Proof. apply addPatternTo_names_iff. Qed.

Lemma addPattern_analyses (a : Analyzer) (q : PlayerPattern) :
  movementAnalysis (addPattern a q) = movementAnalysis a
  /\ interactionAnalysis (addPattern a q) = interactionAnalysis a.
Proof. split; reflexivity. Qed.

Ltac count_adds :=
  repeat match goal with
    | |- context [length (detectedPatterns (addPattern ?x ?q))] =>
        let H := fresh "H" in
        pose proof (addPattern_length x q) as H; revert H;
        generalize (length (detectedPatterns (addPattern x q)))
    end;
  intros; lia.

Lemma Qltb_Qgtb_exclusive (x lo hi : Q) :
  lo <= hi -> Qltb x lo && Qgtb x hi = false.
Proof.
  intros H. unfold Qgtb. destruct (Qltb x lo) eqn:E1; [|reflexivity].
  destruct (Qltb hi x) eqn:E2; [|reflexivity].
  apply Qltb_true in E1, E2. lra.
Qed.

Lemma detectMovementPatterns_length (a : Analyzer) :
  (length (detectedPatterns (detectMovementPatterns a))
   <= length (detectedPatterns a) + 2)%nat.
Proof.
  unfold detectMovementPatterns. cbv zeta.
  set (m := movementAnalysis a).
  pose proof (Qltb_Qgtb_exclusive (ExplorationArea m) 200 500 ltac:(lra)) as X1.
  pose proof (Qltb_Qgtb_exclusive (AverageSpeed m) (3 # 2) 2 ltac:(lra)) as X2.
  destruct (Qgtb (ExplorationArea m) 500), (Qltb (PathRepetition m) 2),
    (Qltb (AverageSpeed m) (3 # 2)), (30 <? DirectionChanges m)%Z,
    (Qgtb (AverageSpeed m) 2), (DirectionChanges m <? 15)%Z,
    (Qltb (ExplorationArea m) 200), (Qgtb (PathRepetition m) 3);
    cbn [andb] in *; try discriminate; count_adds.
Qed.

Lemma detectInteractionPatterns_length (a : Analyzer) :
  (length (detectedPatterns (detectInteractionPatterns a))
   <= length (detectedPatterns a) + 1)%nat.
Proof.
  unfold detectInteractionPatterns. cbv zeta.
  set (r := InteractionRate (interactionAnalysis a)).
  pose proof (Qltb_Qgtb_exclusive r (1 # 10) (3 # 10) ltac:(lra)) as X1.
  destruct (Qgtb r (3 # 10)), (Qltb r (1 # 10));
    cbn [andb] in *; try discriminate; count_adds.
Qed.

Lemma detectFearResponsePatterns_length (a : Analyzer) :
  (length (detectedPatterns (detectFearResponsePatterns a))
   <= length (detectedPatterns a) + 3)%nat.
Proof.
  unfold detectFearResponsePatterns. cbv zeta.
  set (responses := ResponseToScareEvents (interactionAnalysis a)).
  set (avg := _ / _).
  pose proof (Qltb_Qgtb_exclusive avg (3 # 10) (7 # 10) ltac:(lra)) as X1.
  destruct (0 <? size responses)%nat, (Qltb avg (3 # 10)), (Qgtb avg (7 # 10)),
    (responses !! EventSuddenNoise) as [r1|],
    (responses !! EventCreatureAppearance) as [r2|];
    cbn [andb] in *; try discriminate;
    try destruct (Qgtb r1 (8 # 10)); try destruct (Qgtb r2 (8 # 10));
    count_adds.
Qed.

Ltac names_cases :=
  cbv zeta;
  repeat match goal with
    | |- context [if ?c then _ else _] => destruct c
    | |- context [match ?m !! ?k with _ => _ end] => destruct (m !! k)
    end;
  rewrite ?addPattern_names; cbn [Name];
  intuition (try discriminate; auto).

Lemma detectMovementPatterns_names (a : Analyzer) (n : string) :
  let m := movementAnalysis a in
  n ∈ Name <$> detectedPatterns (detectMovementPatterns a)
  <-> n ∈ Name <$> detectedPatterns a
      \/ (n = "explorer"
          /\ Qgtb (ExplorationArea m) 500 && Qltb (PathRepetition m) 2 = true)
      \/ (n = "cautious"
          /\ Qltb (AverageSpeed m) (3 # 2) && (30 <? DirectionChanges m)%Z = true)
      \/ (n = "determined"
          /\ Qgtb (AverageSpeed m) 2 && (DirectionChanges m <? 15)%Z = true)
      \/ (n = "indecisive"
          /\ Qltb (ExplorationArea m) 200 && Qgtb (PathRepetition m) 3 = true).
Proof. unfold detectMovementPatterns. names_cases. Qed.

Lemma detectInteractionPatterns_names (a : Analyzer) (n : string) :
  let r := InteractionRate (interactionAnalysis a) in
  n ∈ Name <$> detectedPatterns (detectInteractionPatterns a)
  <-> n ∈ Name <$> detectedPatterns a
      \/ (n = "interactive" /\ Qgtb r (3 # 10) = true)
      \/ (n = "passive" /\ Qltb r (1 # 10) = true).
Proof. unfold detectInteractionPatterns. names_cases. Qed.

Lemma detectFearResponsePatterns_names (a : Analyzer) (n : string) :
  let responses := ResponseToScareEvents (interactionAnalysis a) in
  let avgResponse :=
    map_fold (fun _ response acc => acc + response) 0 responses
    / float64_of_int (Z.of_nat (size responses)) in
  n ∈ Name <$> detectedPatterns (detectFearResponsePatterns a)
  <-> n ∈ Name <$> detectedPatterns a
      \/ (n = "fearless"
          /\ (0 <? size responses)%nat && Qltb avgResponse (3 # 10) = true)
      \/ (n = "easily_scared"
          /\ (0 <? size responses)%nat && Qgtb avgResponse (7 # 10) = true)
      \/ (n = "startles_easily"
          /\ match responses !! EventSuddenNoise with
             | Some response => Qgtb response (8 # 10)
             | None => false
             end = true)
      \/ (n = "monster_phobia"
          /\ match responses !! EventCreatureAppearance with
             | Some response => Qgtb response (8 # 10)
             | None => false
             end = true).
Proof. unfold detectFearResponsePatterns. names_cases. Qed.

Lemma detectMovementPatterns_analyses (a : Analyzer) :
  movementAnalysis (detectMovementPatterns a) = movementAnalysis a
  /\ interactionAnalysis (detectMovementPatterns a) = interactionAnalysis a.
Proof.
  unfold detectMovementPatterns. cbv zeta.
  repeat match goal with |- context [if ?c then _ else _] => destruct c end;
    split; reflexivity.
Qed.

Lemma detectInteractionPatterns_analyses (a : Analyzer) :
  movementAnalysis (detectInteractionPatterns a) = movementAnalysis a
  /\ interactionAnalysis (detectInteractionPatterns a) = interactionAnalysis a.
Proof.
  unfold detectInteractionPatterns. cbv zeta.
  repeat match goal with |- context [if ?c then _ else _] => destruct c end;
    split; reflexivity.
Qed.

Lemma patternRule_spec (a : Analyzer) (n : string) :
  let m := movementAnalysis a in
  let r := InteractionRate (interactionAnalysis a) in
  let responses := ResponseToScareEvents (interactionAnalysis a) in
  let avgResponse :=
    map_fold (fun _ response acc => acc + response) 0 responses
    / float64_of_int (Z.of_nat (size responses)) in
  patternRule a n = true
  <-> (n = "explorer"
       /\ Qgtb (ExplorationArea m) 500 && Qltb (PathRepetition m) 2 = true)
      \/ (n = "cautious"
          /\ Qltb (AverageSpeed m) (3 # 2) && (30 <? DirectionChanges m)%Z = true)
      \/ (n = "determined"
          /\ Qgtb (AverageSpeed m) 2 && (DirectionChanges m <? 15)%Z = true)
      \/ (n = "indecisive"
          /\ Qltb (ExplorationArea m) 200 && Qgtb (PathRepetition m) 3 = true)
      \/ (n = "interactive" /\ Qgtb r (3 # 10) = true)
      \/ (n = "passive" /\ Qltb r (1 # 10) = true)
      \/ (n = "fearless"
          /\ (0 <? size responses)%nat && Qltb avgResponse (3 # 10) = true)
      \/ (n = "easily_scared"
          /\ (0 <? size responses)%nat && Qgtb avgResponse (7 # 10) = true)
      \/ (n = "startles_easily"
          /\ match responses !! EventSuddenNoise with
             | Some response => Qgtb response (8 # 10)
             | None => false
             end = true)
      \/ (n = "monster_phobia"
          /\ match responses !! EventCreatureAppearance with
             | Some response => Qgtb response (8 # 10)
             | None => false
             end = true).
Proof.
  unfold patternRule. cbv zeta.
  repeat match goal with
    | |- context [String.eqb n ?s] =>
        destruct (String.eqb_spec n s) as [->|?]
    end;
    intuition (try discriminate; try congruence; auto).
Qed.

(** X17.  A detection cycle leaves at most six patterns, by weight from the
    greatest to the least, with different names; a pattern is in the list
    exactly when the rule of its name holds for the analyses of the cycle,
    which the cycle does not change. *)
Theorem detectPatterns_shape (a : Analyzer) :
  let l := detectedPatterns (detectPatterns a) in
  (length l <= 6)%nat
  /\ descendingBy Weight l
  /\ NoDup (Name <$> l)
  /\ (forall n, n ∈ Name <$> l <-> patternRule a n = true)
  /\ movementAnalysis (detectPatterns a) = movementAnalysis a
  /\ interactionAnalysis (detectPatterns a) = interactionAnalysis a.
Proof.
  unfold detectPatterns. cbv zeta.
  cbn [detectedPatterns set_detectedPatterns movementAnalysis interactionAnalysis].
  set (a0 := set_detectedPatterns a []).
  set (a1 := detectMovementPatterns a0).
  set (a2 := detectInteractionPatterns a1).
  set (a3 := detectFearResponsePatterns a2).
  destruct (detectMovementPatterns_analyses a0) as [M1 I1]. fold a1 in M1, I1.
  destruct (detectInteractionPatterns_analyses a1) as [M2 I2]. fold a2 in M2, I2.
  assert (M3 : movementAnalysis a3 = movementAnalysis a2
               /\ interactionAnalysis a3 = interactionAnalysis a2).
  { unfold a3, detectFearResponsePatterns. cbv zeta.
    repeat match goal with
      | |- context [if ?c then _ else _] => destruct c
      | |- context [match ?m !! ?k with _ => _ end] => destruct (m !! k)
      end; split; reflexivity. }
  destruct M3 as [M3 I3].
  split; [|split; [|split; [|split; [|split]]]].
  - rewrite sortSliceDesc_Permutation.
    pose proof (detectMovementPatterns_length a0) as L1.
    pose proof (detectInteractionPatterns_length a1) as L2.
    pose proof (detectFearResponsePatterns_length a2) as L3.
    fold a1 in L1. fold a2 in L2. fold a3 in L3.
    change (length (detectedPatterns a0)) with 0%nat in L1. lia.
  - apply sortSliceDesc_descending.
  - rewrite sortSliceDesc_Permutation.
    apply detectFearResponsePatterns_NoDup, detectInteractionPatterns_NoDup,
      detectMovementPatterns_NoDup.
    apply NoDup_nil_2.
  - intros n. rewrite sortSliceDesc_Permutation.
    unfold a3. rewrite detectFearResponsePatterns_names. cbv zeta.
    unfold a2 at 1. rewrite detectInteractionPatterns_names. cbv zeta.
    unfold a1 at 1. rewrite detectMovementPatterns_names. cbv zeta.
    rewrite patternRule_spec. cbv zeta.
    rewrite I2, I1, ?M1.
    change (movementAnalysis a0) with (movementAnalysis a).
    change (interactionAnalysis a0) with (interactionAnalysis a).
    change (Name <$> detectedPatterns a0) with (@nil string).
    rewrite elem_of_nil. tauto.
  - rewrite M3, M2, M1. reflexivity.
  - rewrite I3, I2, I1. reflexivity.
Qed.

(** X18.  [GetTopPatterns] panics for a negative count; for another count
    it returns that many patterns from the head of the list, or the whole
    list when it is shorter.  After a detection cycle these are the
    heaviest: no pattern that is left out weighs more than one that is
    returned. *)
Theorem GetTopPatterns_heaviest (a : Analyzer) (count : Z) :
  ((count < 0)%Z -> GetTopPatterns a count = None)
  /\ ((0 <= count)%Z ->
      GetTopPatterns a count = Some (take (Z.to_nat count) (detectedPatterns a)))
  /\ ((0 <= count)%Z ->
      forall top,
        GetTopPatterns (detectPatterns a) count = Some top ->
        length top = Nat.min (Z.to_nat count)
                       (length (detectedPatterns (detectPatterns a)))
        /\ forall p q,
             p ∈ top -> q ∈ detectedPatterns (detectPatterns a) ->
             Name q ∉ Name <$> top -> Weight q <= Weight p).
Proof.
  assert (G : forall b, (0 <= count)%Z ->
              GetTopPatterns b count = Some (take (Z.to_nat count) (detectedPatterns b))).
  { intros b H. unfold GetTopPatterns.
    destruct (Z.of_nat (length (detectedPatterns b)) <? count)%Z eqn:E.
    - apply Z.ltb_lt in E.
      destruct (Z.of_nat (length (detectedPatterns b)) <? 0)%Z eqn:E0;
        [apply Z.ltb_lt in E0; lia|].
      rewrite Nat2Z.id. rewrite !take_ge by lia. reflexivity.
    - destruct (count <? 0)%Z eqn:E0; [apply Z.ltb_lt in E0; lia | reflexivity]. }
  split; [|split].
  - intros H. unfold GetTopPatterns.
    destruct (Z.of_nat (length (detectedPatterns a)) <? count)%Z eqn:E;
      [apply Z.ltb_lt in E; lia|].
    apply Z.ltb_lt in H. rewrite H. reflexivity.
  - apply G.
  - intros H top. rewrite (G _ H). intros [= <-].
    split; [apply length_take|].
    intros p q Hp Hq Hout.
    apply elem_of_take in Hp as (i & Hi & Hlt).
    apply list_elem_of_lookup in Hq as [j Hj].
    destruct (decide (j < Z.to_nat count)%nat) as [Hjc|Hjc].
    + exfalso. apply Hout. apply list_elem_of_fmap. exists q.
      split; [reflexivity|]. apply elem_of_take. exists j. split; assumption.
    + unfold detectPatterns in Hi, Hj.
      cbn [detectedPatterns set_detectedPatterns] in Hi, Hj.
      refine (sortSliceDesc_descending Weight _ i j p q _ Hi Hj). lia.
Qed.

Lemma GetTopPatterns_heaviest_witness :
  exists top,
    GetTopPatterns (detectPatterns sampleAnalyzer) 1 = Some top
    /\ length top = Nat.min (Z.to_nat 1)
                      (length (detectedPatterns (detectPatterns sampleAnalyzer))).
Proof.
  destruct (GetTopPatterns (detectPatterns sampleAnalyzer) 1) as [top|] eqn:E;
    [|vm_compute in E; discriminate].
  exists top. split; [reflexivity|].
  apply (proj2 (proj2 (GetTopPatterns_heaviest sampleAnalyzer 1))
           ltac:(lia) top E).
Defined.

(** ** Interactions *)

Lemma countInteraction_fold (log : list entity.PlayerActionRecord) (c : Z)
    (m : gmap string Z) :
  (0 <= c)%Z -> (c + Z.of_nat (length log) <= maxDuration)%Z ->
  fst (fold_left countInteraction log (c, m))
  = (c + Z.of_nat (length (filter (fun r => entity.Action r = entity.ActionInteract)
                             log)))%Z.
Proof.
  revert c m. induction log as [|r log IH]; intros c m H0 H1.
  - cbn [fold_left fst]. rewrite filter_nil. simpl. lia.
  - cbn [fold_left]. cbn [length] in H1.
    pose proof (length_filter (fun r => entity.Action r = entity.ActionInteract) log)
      as Hf.
    unfold countInteraction at 2.
    destruct (entity.Action r) eqn:Ea; cbn [fst snd].
    + rewrite filter_cons_False by congruence. apply IH; lia.
    + rewrite filter_cons_True by exact Ea.
      rewrite wrap64_small
        by (unfold minDuration, maxDuration in *;
            change (2 ^ 63)%Z with 9223372036854775808%Z in *; lia).
      rewrite IH by lia. cbn [length]. lia.
    + rewrite filter_cons_False by congruence. apply IH; lia.
    + rewrite filter_cons_False by congruence. apply IH; lia.
Qed.

(** X19.  The analysis of the interactions panics without a player and
    changes nothing for an empty action log; for another log, of at most
    1000 actions, the interaction rate becomes the share of interactions
    among the actions, a number between 0 and 1, and the analysis of the
    movement, the responses to scares and the detected patterns are left as
    they are. *)
Theorem analyzeInteractions_rate (st : Analyzer * analyzer.Rest) :
  analyzeInteractions st None = None
  /\ analyzeInteractions st (Some []) = Some st
  /\ forall log,
       log <> [] -> (length log <= 1000)%nat ->
       exists st',
         analyzeInteractions st (Some log) = Some st'
         /\ InteractionRate (interactionAnalysis (fst st'))
            = float64_of_int
                (Z.of_nat (length (filter (fun r => entity.Action r = entity.ActionInteract)
                                     log)))
              / float64_of_int (Z.of_nat (length log))
         /\ 0 <= InteractionRate (interactionAnalysis (fst st'))
         /\ InteractionRate (interactionAnalysis (fst st')) <= 1
         /\ ResponseToScareEvents (interactionAnalysis (fst st'))
            = ResponseToScareEvents (interactionAnalysis (fst st))
         /\ movementAnalysis (fst st') = movementAnalysis (fst st)
         /\ detectedPatterns (fst st') = detectedPatterns (fst st)
         /\ analyzer.scareResponses (snd st') = analyzer.scareResponses (snd st).
Proof.
  split; [reflexivity|]. split; [reflexivity|].
  intros log Hne Hlen. unfold analyzeInteractions.
  destruct (length log =? 0)%nat eqn:E;
    [apply Nat.eqb_eq in E; destruct log; [congruence | discriminate E]|].
  eexists. split; [reflexivity|].
  cbn [fst snd interactionAnalysis set_interactionAnalysis InteractionRate
       ResponseToScareEvents movementAnalysis detectedPatterns
       analyzer.scareResponses].
  rewrite countInteraction_fold;
    [|lia|unfold maxDuration; change (2 ^ 63)%Z with 9223372036854775808%Z; lia].
  rewrite Z.add_0_l.
  pose proof (length_filter (fun r => entity.Action r = entity.ActionInteract) log)
    as Hf.
  set (k := length (filter _ log)) in *.
  assert (Hn : 0 < inject_Z (Z.of_nat (length log))).
  { change 0 with (inject_Z 0). rewrite <- Zlt_Qlt.
    apply Nat.eqb_neq in E. lia. }
  assert (Hk : 0 <= inject_Z (Z.of_nat k)
               /\ inject_Z (Z.of_nat k) <= inject_Z (Z.of_nat (length log))).
  { split; [change 0 with (inject_Z 0)|]; rewrite <- Zle_Qle; lia. }
  split; [reflexivity|]. unfold float64_of_int.
  split; [apply Qle_shift_div_l; [exact Hn | lra]|].
  split; [apply Qle_shift_div_r; [exact Hn | lra]|].
  repeat split.
Qed.

Lemma analyzeInteractions_rate_witness :
  let log :=
    [entity.mkPlayerActionRecord entity.ActionMove 5 (mkVector2D 131 128) "";
     entity.mkPlayerActionRecord entity.ActionInteract 6 (mkVector2D 131 128) "door"] in
  exists st',
    analyzeInteractions (NewAnalyzer, analyzer.NewRest) (Some log) = Some st'
    /\ InteractionRate (interactionAnalysis (fst st')) == 1 # 2.
Proof.
  intros log.
  destruct (proj2 (proj2 (analyzeInteractions_rate (NewAnalyzer, analyzer.NewRest)))
              log ltac:(discriminate) ltac:(vm_compute; lia))
    as (st' & H1 & H2 & _).
  exists st'. split; [exact H1|]. rewrite H2. vm_compute. reflexivity.
Defined.

(** ** Sector keys *)

Lemma commaFree_uint (d : Decimal.uint) : commaFree (NilEmpty.string_of_uint d).
Proof.
  induction d; simpl; try exact I; split; try exact IHd; discriminate.
Qed.

Lemma commaFree_formatInt (n : Z) : commaFree (formatInt n).
Proof.
  unfold formatInt, NilZero.string_of_int, NilZero.string_of_uint.
  destruct (Z.to_int n) as [d|d].
  - destruct d; try apply commaFree_uint. simpl. split; [discriminate | exact I].
  - simpl. split; [discriminate|].
    destruct d; try apply commaFree_uint. simpl. split; [discriminate | exact I].
Qed.

Lemma formatInt_inj (x y : Z) : formatInt x = formatInt y -> x = y.
Proof.
  unfold formatInt. intros H.
  assert (Hn : forall z, Z.to_int z <> Decimal.Pos Decimal.Nil
                         /\ Z.to_int z <> Decimal.Neg Decimal.Nil).
  { intros z. destruct z as [|p|p]; simpl; split; try discriminate;
      intros [= E]; exact (DecimalPos.Unsigned.to_uint_nonnil p E). }
  assert (E : Some (Z.to_int x) = Some (Z.to_int y)).
  { rewrite <- (NilZero.isi (Z.to_int x)) by apply Hn.
    rewrite <- (NilZero.isi (Z.to_int y)) by apply Hn.
    rewrite H. reflexivity. }
  injection E as E. rewrite <- (DecimalZ.of_to x), <- (DecimalZ.of_to y), E.
  reflexivity.
Qed.

Lemma append_comma_inj (a a' b b' : string) :
  commaFree a -> commaFree a' ->
  String.append a (String.append "," b) = String.append a' (String.append "," b') ->
  a = a' /\ b = b'.
Proof.
  revert a'. induction a as [|c a IH]; intros [|c' a'] Ha Ha'; simpl.
  - intros [= E]. auto.
  - intros [= E _]. destruct Ha' as [Hc _]. congruence.
  - intros [= E _]. destruct Ha as [Hc _]. congruence.
  - intros [= -> E]. destruct Ha as [_ Ha]. destruct Ha' as [_ Ha'].
    destruct (IH a' Ha Ha' E) as [-> ->]. auto.
Qed.

(** X20.  Two sectors have the same key only when they are the same
    sector; a key is the decimal writing of the two coordinates, with a
    comma between them. *)
Theorem makeKey_injective (x y x' y' : Z) :
  makeKey x y = makeKey x' y' -> x = x' /\ y = y'.
Proof.
  unfold makeKey. intros H.
  apply append_comma_inj in H as [Hx Hy]; try apply commaFree_formatInt.
  split; apply formatInt_inj; assumption.
Qed.

Lemma makeKey_injective_witness :
  makeKey 25 (-7) = "25,-7"%string /\ (25 = 25 /\ (-7) = (-7))%Z.
Proof.
  split; [reflexivity|].
  apply (makeKey_injective 25 (-7) 25 (-7)). reflexivity.
Defined.

(** ** Reports of the game *)

Lemma lastN_lastN_app {A} (n : nat) (h l : list A) :
  lastN n (lastN n h ++ l) = lastN n (h ++ l).
Proof.
  destruct (decide (length h <= n)%nat) as [H|H].
  - rewrite (lastN_all n h) by exact H. reflexivity.
  - unfold lastN. rewrite !length_app, length_drop.
    replace (length h - (length h - n) + length l - n)%nat with (length l) by lia.
    replace (length h + length l - n)%nat with ((length h - n) + length l)%nat by lia.
    rewrite <- drop_drop. rewrite (drop_app_le h l (length h - n)) by lia.
    reflexivity.
Qed.

Lemma triggerAll_queue (reports : list Report) (em : EventManager) :
  queuedEvents (triggerAll em reports) = queuedEvents em ++ (eventOf <$> reports).
Proof.
  revert em. induction reports as [|r rs IH]; intros em.
  - simpl. rewrite app_nil_r. reflexivity.
  - unfold triggerAll in *. cbn [fold_left]. rewrite IH. rewrite fmap_cons.
    unfold TriggerWithData. cbn [queuedEvents]. rewrite <- app_assoc. reflexivity.
Qed.

Lemma onEvent_report (o : ObserverSystem) (p : Player) (r : Report) :
  player o = Some p -> reportable r ->
  onEvent o (eventOf r)
  = Some match actionOf (Position p) r, responseOf r with
         | Some a, _ => addPlayerAction o a
         | None, Some f => recordFearResponse o f
         | None, None => o
         end.
Proof.
  intros Hp Hr. destruct r as [pl old new t|pl src amt t|pl tgt pos t|pl old new t];
    cbn [eventOf actionOf responseOf reportable] in *.
  - reflexivity.
  - unfold NewPlayerDamagedEvent, onEvent, recordDamage. cbn [Type_ Source].
    destruct src; try contradiction; cbn [isNil]; rewrite Hp; reflexivity.
  - unfold NewPlayerInteractedEvent, onEvent, recordInteraction. cbn [Type_ Target].
    destruct tgt; try contradiction; cbn [isNil]; rewrite Hp; reflexivity.
  - unfold NewPlayerSanityChangedEvent, onEvent, recordSanityChange.
    cbn [Type_ Value isNil asFloat64 Source Custom].
    assert (E : Qltb (new - old) 0 = Qltb new old).
    { case_Qltb (new - old) 0; case_Qltb new old; try reflexivity; lra. }
    rewrite E. destruct (Qltb new old); [|reflexivity].
    unfold mapIndex, mapGet.
    rewrite lookup_insert_eq.
    rewrite lookup_insert_ne by discriminate. rewrite lookup_singleton_eq.
    cbn [asFloat64]. destruct pl; reflexivity.
Qed.

Lemma recordFearResponse_responsesOf (o : ObserverSystem) (f : FearResponse)
    (k : FearType) :
  responsesOf (fearResponses (recordFearResponse o f)) k
  = if decide (RFearType f = k)
    then lastN maxResponses (responsesOf (fearResponses o) k ++ [f])
    else responsesOf (fearResponses o) k.
Proof.
  unfold responsesOf at 1. rewrite recordFearResponse_lookup.
  destruct (decide (RFearType f = k)); reflexivity.
Qed.

Lemma dispatch_reports (reports : list Report) (p : Player) :
  forall o : ObserverSystem,
    player o = Some p -> historiesBounded o -> Forall reportable reports ->
    exists o',
      dispatchEvents o (eventOf <$> reports) = Some o'
      /\ playerActions o'
         = lastN maxActions
             (playerActions o ++ omap (actionOf (Position p)) reports)
      /\ (forall k,
             responsesOf (fearResponses o') k
             = lastN maxResponses
                 (responsesOf (fearResponses o) k
                  ++ filter (fun f => RFearType f = k) (omap responseOf reports)))
      /\ context o' = context o /\ player o' = player o.
Proof.
  induction reports as [|r rs IH]; intros o Hp Hb Hr.
  - exists o. split; [reflexivity|]. destruct Hb as [Ha Hf].
    cbn [omap list_omap]. split; [|split; [|split; reflexivity]].
    + rewrite app_nil_r. symmetry. apply lastN_all. exact Ha.
    + intros k. rewrite filter_nil, app_nil_r. symmetry. apply lastN_all. apply Hf.
  - apply Forall_cons in Hr. destruct Hr as [Hr Hrs].
    rewrite fmap_cons. cbn [dispatchEvents].
    pose proof (onEvent_report o p r Hp Hr) as E. rewrite E.
    pose proof (onEvent_bounded _ _ _ Hb E) as Hb1.
    cbn [omap list_omap].
    destruct (actionOf (Position p) r) as [a|] eqn:Ea.
    + assert (Hnone : responseOf r = None) by (destruct r; try reflexivity; discriminate Ea).
      rewrite Hnone.
      destruct (IH (addPlayerAction o a) Hp Hb1 Hrs) as (o' & Hd & Hacts & Hresp & Hc & Hpl).
      exists o'. split; [exact Hd|]. split; [|split; [|split]].
      * rewrite Hacts, addPlayerAction_actions, lastN_lastN_app, <- app_assoc.
        reflexivity.
      * exact Hresp.
      * exact Hc.
      * exact Hpl.
    + destruct (responseOf r) as [f|] eqn:Ef.
      * destruct (IH (recordFearResponse o f) Hp Hb1 Hrs)
          as (o' & Hd & Hacts & Hresp & Hc & Hpl).
        exists o'. split; [exact Hd|]. split; [exact Hacts|].
        split; [|split; [exact Hc | exact Hpl]].
        intros k. rewrite Hresp, recordFearResponse_responsesOf.
        destruct (decide (RFearType f = k)) as [Hk|Hk].
        -- rewrite filter_cons_True by exact Hk.
           rewrite lastN_lastN_app, <- app_assoc. reflexivity.
        -- rewrite filter_cons_False by exact Hk. reflexivity.
      * exact (IH o Hp Hb1 Hrs).
Qed.

(** X21.  Reports made with the constructors of the events, queued and then
    processed, are recorded in their order: the actions are the last 1000
    of the old ones followed by one action for each movement, damage and
    interaction; a movement is recorded as a move, never as a run, with
    the direction from the old to the new position; damage and
    interactions are recorded at the position of the player, whatever
    position the report names; of the changes of sanity only the losses
    are recorded, each with a strength of a twentieth of the loss, as a
    fear of creatures when the report names a creature and as a fear of
    the unknown otherwise. *)
Theorem reports_are_recorded (o : ObserverSystem) (p : Player)
    (reports : list Report) :
  player o = Some p -> historiesBounded o -> Forall reportable reports ->
  exists o',
    ProcessEvents (triggerAll NewEventManager reports) o
    = Some (NewEventManager, o')
    /\ playerActions o'
       = lastN maxActions
           (playerActions o ++ omap (actionOf (Position p)) reports)
    /\ (forall k,
           responsesOf (fearResponses o') k
           = lastN maxResponses
               (responsesOf (fearResponses o) k
                ++ filter (fun f => RFearType f = k) (omap responseOf reports)))
    /\ Forall (fun f => 0 < SanityLoss f /\ StrengthOfFear f == SanityLoss f / 20)
         (omap responseOf reports)
    /\ Forall (fun a => AType a <> ActionRun)
         (omap (actionOf (Position p)) reports)
    /\ context o' = context o.
Proof.
  intros Hp Hb Hr.
  destruct (dispatch_reports reports p o Hp Hb Hr) as (o' & Hd & Ha & Hf & Hc & _).
  exists o'. unfold ProcessEvents. rewrite triggerAll_queue. cbn [queuedEvents NewEventManager app].
  rewrite Hd. split; [reflexivity|]. split; [exact Ha|]. split; [exact Hf|].
  split; [|split; [|exact Hc]].
  - clear. induction reports as [|r rs IH]; [constructor|].
    cbn [omap list_omap]. destruct (responseOf r) as [f|] eqn:E; [|exact IH].
    constructor; [|exact IH].
    destruct r as [| | |pl old new t]; try discriminate E.
    cbn [responseOf] in E. case_Qltb new old; [|discriminate E].
    injection E as <-. cbn [SanityLoss StrengthOfFear]. split; [lra|].
    unfold math_Abs. rewrite (Qabs_neg (new - old)) by lra. field.
  - clear. induction reports as [|r rs IH]; [constructor|].
    cbn [omap list_omap]. destruct (actionOf (Position p) r) as [a|] eqn:E; [|exact IH].
    constructor; [|exact IH].
    destruct r; try discriminate E; injection E as <-; discriminate.
Qed.

Lemma reports_are_recorded_witness :
  let reports :=
    [Moved PlayerPtr (mkVector2D 128 128) (mkVector2D 131 128) 1%Z;
     SanityChanged PlayerPtr 100 90 2%Z;
     Damaged PlayerPtr (CreaturePtr 7) 5 3%Z;
     SanityChanged (CreaturePtr 7) 90 95 4%Z;
     Interacted PlayerPtr (Str "door") Nil 5%Z] in
  exists o',
    ProcessEvents (triggerAll NewEventManager reports) observer0
    = Some (NewEventManager, o')
    /\ playerActions o'
       = lastN maxActions
           (playerActions observer0
            ++ omap (actionOf (Position samplePlayer)) reports)
    /\ (forall k,
           responsesOf (fearResponses o') k
           = lastN maxResponses
               (responsesOf (fearResponses observer0) k
                ++ filter (fun f => RFearType f = k) (omap responseOf reports)))
    /\ Forall (fun f => 0 < SanityLoss f /\ StrengthOfFear f == SanityLoss f / 20)
         (omap responseOf reports)
    /\ Forall (fun a => AType a <> ActionRun)
         (omap (actionOf (Position samplePlayer)) reports)
    /\ context o' = context observer0.
Proof.
  intros reports.
  apply (reports_are_recorded observer0 samplePlayer reports).
  - reflexivity.
  - split; [vm_compute; lia|]. intros k. destruct k; vm_compute; lia.
  - unfold reports. repeat constructor; discriminate.
Defined.

(** ** Updates of the Observer *)

Lemma analysis_frame (o : ObserverSystem) :
  let o1 := analyzeFearProfile (analyzeReactorProfile o) in
  player o1 = player o /\ playerActions o1 = playerActions o
  /\ fearResponses o1 = fearResponses o /\ context o1 = context o.
Proof.
  unfold analyzeFearProfile, analyzeReactorProfile.
  destruct (length (playerActions o) <? 10)%nat;
    cbn [fearResponses set_reactorProfile];
    destruct (size (fearResponses o) =? 0)%nat; repeat split.
Qed.

Section UpdateProperties.

Variable math_Exp : Q -> Q.

Lemma GenerateScareRecommendations_frame (o o' : ObserverSystem) (rnd : Z) :
  GenerateScareRecommendations math_Exp o rnd = Some o' ->
  player o' = player o /\ playerActions o' = playerActions o
  /\ fearResponses o' = fearResponses o /\ context o' = context o.
Proof.
  unfold GenerateScareRecommendations.
  destruct (recommendAll _ _ _ _) as [l|]; [|discriminate].
  intros [= <-]. repeat split.
Qed.

Lemma GenerateScareRecommendations_total (o : ObserverSystem) (rnd : Z) :
  is_Some (player o) -> (0 <= rnd < 6)%Z ->
  is_Some (GenerateScareRecommendations math_Exp o rnd).
Proof.
  intros Hp Hr. unfold GenerateScareRecommendations.
  destruct (recommendAll_spec math_Exp (set_recommendedScares o [])
              (getEffectiveFearTypes (set_recommendedScares o [])) rnd Hp Hr)
    as (l & -> & _).
  eexists. reflexivity.
Qed.

Lemma Update_step (order : list ReactorType) (rnd now : Z)
    (st : ObserverSystem * ObserverClock) :
  is_Some (player (fst st)) -> (0 <= rnd < 6)%Z ->
  exists st',
    Update math_Exp order rnd now st = Some st'
    /\ player (fst st') = player (fst st)
    /\ playerActions (fst st') = playerActions (fst st)
    /\ fearResponses (fst st') = fearResponses (fst st)
    /\ TimeSinceLastScare (context (fst st'))
       = wrap64 (TimeSinceLastScare (context (fst st)) + Second)
    /\ observationInterval (snd st') = observationInterval (snd st)
    /\ (earlyCall (snd st) (order, rnd, now) ->
        snd st' = snd st
        /\ reactorProfile (fst st') = reactorProfile (fst st)
        /\ fearProfile (fst st') = fearProfile (fst st)
        /\ recommendedScares (fst st') = recommendedScares (fst st))
    /\ (~ earlyCall (snd st) (order, rnd, now) ->
        lastObservationTime (snd st') = now).
Proof.
  intros Hp Hr. unfold Update, earlyCall. cbn [snd fst].
  destruct (observationInterval (snd st) <=? Time_Sub now (lastObservationTime (snd st)))%Z
    eqn:Hdue.
  - apply Z.leb_le in Hdue.
    destruct (analysis_frame (fst st)) as (Fp & Fa & Ff & Fc).
    cbv zeta in Fp, Fa, Ff, Fc.
    unfold AnalyzePlayerBehavior. cbn [fst snd].
    set (o1 := analyzeFearProfile (analyzeReactorProfile (fst st))) in *.
    assert (Hp1 : is_Some (player o1)) by (rewrite Fp; exact Hp).
    destruct (GenerateScareRecommendations_total o1 rnd Hp1 Hr) as [o2 Ho2].
    rewrite Ho2.
    destruct (GenerateScareRecommendations_frame o1 o2 rnd Ho2) as (Gp & Ga & Gf & Gc).
    eexists. split; [reflexivity|]. cbn [fst snd observationInterval lastObservationTime].
    destruct (updateContext_frame o2) as (Up & Ua & Uf & _).
    rewrite Up, Ua, Uf, updateContext_time, Gp, Ga, Gf, Gc, Fp, Fa, Ff, Fc.
    repeat split; try reflexivity; lia.
  - apply Z.leb_gt in Hdue.
    eexists. split; [reflexivity|]. cbn [fst snd].
    destruct (updateContext_frame (fst st)) as (Up & Ua & Uf & Ufp & Urp & Ur).
    rewrite Up, Ua, Uf, Ufp, Urp, Ur, updateContext_time.
    repeat split; try reflexivity; contradiction.
Qed.

End UpdateProperties.

(** X23.  Calls of the Observer's [Update], with a player and draws that
    [RangeInt(0, 6)] makes, all return; they leave the histories of actions
    and of responses as they are, and each adds one second to the time since
    the last scare, whatever the instants of the calls; when every call
    comes before the interval of observation has passed since the last
    analysis, the profiles, the predictions, the recommendations and the
    time of the last analysis are unchanged. *)
Theorem Updates_spec (math_Exp : Q -> Q)
    (calls : list (list ReactorType * Z * Z))
    (st : ObserverSystem * ObserverClock) :
  is_Some (player (fst st)) ->
  Forall validCall calls ->
  (0 <= TimeSinceLastScare (context (fst st)))%Z ->
  (TimeSinceLastScare (context (fst st)) + Z.of_nat (length calls) * Second
   <= maxDuration)%Z ->
  exists st',
    Updates math_Exp calls st = Some st'
    /\ player (fst st') = player (fst st)
    /\ playerActions (fst st') = playerActions (fst st)
    /\ fearResponses (fst st') = fearResponses (fst st)
    /\ TimeSinceLastScare (context (fst st'))
       = (TimeSinceLastScare (context (fst st))
          + Z.of_nat (length calls) * Second)%Z
    /\ observationInterval (snd st') = observationInterval (snd st)
    /\ (Forall (earlyCall (snd st)) calls ->
        snd st' = snd st
        /\ reactorProfile (fst st') = reactorProfile (fst st)
        /\ fearProfile (fst st') = fearProfile (fst st)
        /\ recommendedScares (fst st') = recommendedScares (fst st)).
Proof.
  revert st. induction calls as [|[[order rnd] now] calls IH]; intros st Hp Hv H0 Hmax.
  - exists st. cbn [Updates length]. repeat split; try reflexivity. lia.
  - apply Forall_cons in Hv. destruct Hv as [Hr Hv]. unfold validCall in Hr.
    cbn [fst snd] in Hr. cbn [length] in Hmax.
    destruct (Update_step math_Exp order rnd now st Hp Hr)
      as (st1 & E1 & P1 & A1 & F1 & T1 & I1 & Early1 & _).
    assert (T1' : TimeSinceLastScare (context (fst st1))
                  = (TimeSinceLastScare (context (fst st)) + Second)%Z).
    { rewrite T1. apply wrap64_small. unfold minDuration, maxDuration, Second in *.
      change (2 ^ 63)%Z with 9223372036854775808%Z in *. lia. }
    destruct (IH st1) as (st' & E & P & A & F & T & I & Early).
    + rewrite P1. exact Hp.
    + exact Hv.
    + rewrite T1'. unfold Second. lia.
    + rewrite T1'. unfold Second in *. lia.
    + exists st'. cbn [Updates]. rewrite E1. split; [exact E|].
      rewrite P, A, F, T, I, P1, A1, F1, T1', I1.
      repeat split; try reflexivity.
      * cbn [length]. unfold Second. lia.
      * apply Forall_cons in H. destruct H as [He Hes].
        destruct (Early1 He) as (S1 & _). rewrite S1 in Early.
        destruct (Early Hes) as (S2 & _). exact S2.
      * apply Forall_cons in H. destruct H as [He Hes].
        destruct (Early1 He) as (S1 & R1 & _). rewrite S1 in Early.
        destruct (Early Hes) as (_ & R2 & _). rewrite R2. exact R1.
      * apply Forall_cons in H. destruct H as [He Hes].
        destruct (Early1 He) as (S1 & _ & R1 & _). rewrite S1 in Early.
        destruct (Early Hes) as (_ & _ & R2 & _). rewrite R2. exact R1.
      * apply Forall_cons in H. destruct H as [He Hes].
        destruct (Early1 He) as (S1 & _ & _ & R1). rewrite S1 in Early.
        destruct (Early Hes) as (_ & _ & _ & R2). rewrite R2. exact R1.
Qed.

Lemma Updates_spec_witness :
  let st := (observer0, NewObserverClock 0) in
  let calls :=
    [([] : list ReactorType, 0%Z, 1000000000%Z);
     (allReactorTypes, 3%Z, 6000000000%Z)] in
  exists st',
    Updates (fun _ => 0) calls st = Some st'
    /\ player (fst st') = player (fst st)
    /\ playerActions (fst st') = playerActions (fst st)
    /\ fearResponses (fst st') = fearResponses (fst st)
    /\ TimeSinceLastScare (context (fst st'))
       = (TimeSinceLastScare (context (fst st))
          + Z.of_nat (length calls) * Second)%Z
    /\ observationInterval (snd st') = observationInterval (snd st)
    /\ (Forall (earlyCall (snd st)) calls ->
        snd st' = snd st
        /\ reactorProfile (fst st') = reactorProfile (fst st)
        /\ fearProfile (fst st') = fearProfile (fst st)
        /\ recommendedScares (fst st') = recommendedScares (fst st)).
Proof.
  intros st calls.
  apply (Updates_spec (fun _ => 0) calls st).
  - eexists. reflexivity.
  - unfold calls, validCall. repeat constructor; simpl; lia.
  - vm_compute. discriminate.
  - vm_compute. discriminate.
Defined.

(** ** Recommended scares *)

(** X22.  The scare that is chosen for a kind of fear, once it is reported
    as a scare event, is recorded as a response of the kind that the type of
    the scare maps to.  That is the kind it was chosen for only for the fear
    of creatures, of sudden noises and of isolation, and for the fear of the
    unknown when the draw picks the change of the environment; for every
    other kind the responses of the kind itself are left as they are. *)
Theorem recommended_scare_feedback (o : ObserverSystem) (k : FearType) (rnd : Z)
    (scareType : ScareEventType) (source position : Any) (intensity : Q)
    (now : Z) :
  chooseScareTypeForFearType k rnd = Some scareType ->
  exists o',
    onEvent o (NewScareEvent (ScareType scareType) source position intensity now)
    = Some o'
    /\ last (responsesOf (fearResponses o') (mapScareEventToFearType scareType))
       = Some (mkFearResponse (mapScareEventToFearType scareType) intensity []
                 (RecentSanityLoss (context o)) 0 0%Z 0)
    /\ (mapScareEventToFearType scareType = k
        <-> k = FearCreatures \/ k = FearSuddenNoises \/ k = FearIsolation
            \/ (k = FearUnknown /\ rnd = 3%Z))
    /\ (mapScareEventToFearType scareType <> k ->
        fearResponses o' !! k = fearResponses o !! k).
Proof.
  intros Hc. eexists. split; [reflexivity|].
  cbn [fearResponses set_context]. split; [|split].
  - unfold responsesOf. rewrite recordFearResponse_lookup. cbn [RFearType].
    rewrite decide_True by reflexivity.
    change maxResponses with (S 19). rewrite lastN_snoc. apply last_snoc.
  - assert (Hrnd : k = FearUnknown ->
                   (0 <= rnd)%Z
                   /\ [EventAmbientSound; EventSuddenNoise; EventCreatureAppearance;
                       EventEnvironmentChange; EventHallucination; EventWhisper]
                      !! Z.to_nat rnd = Some scareType).
    { intros ->. cbn [chooseScareTypeForFearType] in Hc.
      destruct (rnd <? 0)%Z eqn:Hneg; [discriminate Hc|].
      apply Z.ltb_ge in Hneg. split; [exact Hneg | exact Hc]. }
    split.
    + intros Hk. destruct k; cbn [chooseScareTypeForFearType] in Hc;
        try (injection Hc as <-; first [discriminate Hk | auto]).
      destruct (Hrnd eq_refl) as [Hneg Hl]. right. right. right.
      split; [reflexivity|].
      destruct (Z.to_nat rnd) as [|[|[|[|[|[|n]]]]]] eqn:Hn;
        cbn in Hl; try discriminate Hl; injection Hl as <-;
        first [discriminate Hk | lia].
    + intros [->|[->|[->|[-> ->]]]]; cbn in Hc; injection Hc as <-; reflexivity.
  - intros Hne. rewrite recordFearResponse_lookup. cbn [RFearType].
    rewrite decide_False by exact Hne. reflexivity.
Qed.

Lemma recommended_scare_feedback_witness :
  exists o',
    onEvent observer0
      (NewScareEvent (ScareType EventEnvironmentChange) Nil Nil (7 # 10) 5%Z)
    = Some o'
    /\ last (responsesOf (fearResponses o')
               (mapScareEventToFearType EventEnvironmentChange))
       = Some (mkFearResponse (mapScareEventToFearType EventEnvironmentChange)
                 (7 # 10) [] (RecentSanityLoss (context observer0)) 0 0%Z 0)
    /\ (mapScareEventToFearType EventEnvironmentChange = FearDarkness
        <-> FearDarkness = FearCreatures \/ FearDarkness = FearSuddenNoises
            \/ FearDarkness = FearIsolation
            \/ (FearDarkness = FearUnknown /\ 0%Z = 3%Z))
    /\ (mapScareEventToFearType EventEnvironmentChange <> FearDarkness ->
        fearResponses o' !! FearDarkness = fearResponses observer0 !! FearDarkness).
Proof.
  apply (recommended_scare_feedback observer0 FearDarkness 0 EventEnvironmentChange
           Nil Nil (7 # 10) 5).
  reflexivity.
Defined.

(** ** The world *)

Lemma int_of_float64_ge (q : Q) (n : Z) :
  (0 <= n)%Z -> inject_Z n <= q -> (n <= int_of_float64 q)%Z.
Proof.
  intros Hn H. unfold int_of_float64. destruct q as [a b].
  unfold Qle in H. cbn [Qnum Qden inject_Z] in *.
  assert (Ha : (0 <= a)%Z) by nia.
  rewrite Z.quot_div_nonneg by lia.
  apply Z.div_le_lower_bound; lia.
Qed.

Lemma int_of_float64_le (q : Q) (n : Z) :
  (0 <= n)%Z -> q <= inject_Z n -> (int_of_float64 q <= n)%Z.
Proof.
  intros Hn H. unfold int_of_float64. destruct q as [a b].
  unfold Qle in H. cbn [Qnum Qden inject_Z] in *.
  destruct (Z.le_gt_cases 0 a) as [Ha|Ha].
  - rewrite Z.quot_div_nonneg by lia.
    apply Z.div_le_upper_bound; lia.
  - assert (Z.quot a (Z.pos b) <= 0)%Z; [|lia].
    replace a with (- - a)%Z by lia. rewrite Z.quot_opp_l by lia.
    assert (0 <= Z.quot (- a) (Z.pos b))%Z by (apply Z.quot_pos; lia). lia.
Qed.

Lemma elem_of_rangeZ (lo hi v : Z) : v ∈ rangeZ lo hi <-> (lo <= v <= hi)%Z.
Proof. unfold rangeZ. rewrite elem_of_seqZ. lia. Qed.

Lemma NoDup_rangeZ (lo hi : Z) : NoDup (rangeZ lo hi).
Proof. apply NoDup_seqZ. Qed.

(** A loop over distinct elements, each of which updates the cells that it
    touches, and no two of which touch the same cell. *)
Lemma forEach_cells {S A K V} (inv : S -> Prop) (get : S -> K -> V)
    (upd : K -> V -> V) (touch : A -> K -> bool) (body : S -> A -> option S)
    (l : list A) :
  (forall s a, inv s ->
     exists s', body s a = Some s' /\ inv s'
       /\ forall k, get s' k = if touch a k then upd k (get s k) else get s k) ->
  (forall a b k, touch a k = true -> touch b k = true -> a = b) ->
  NoDup l ->
  forall s, inv s ->
    exists s', forEach body l s = Some s' /\ inv s'
      /\ forall k, get s' k
                   = if existsb (fun a => touch a k) l then upd k (get s k)
                     else get s k.
Proof.
  intros Hbody Hdisj. induction l as [|a l IH]; intros Hnd s Hs.
  - exists s. split; [reflexivity|]. split; [exact Hs|]. reflexivity.
  - apply NoDup_cons in Hnd. destruct Hnd as [Hnotin Hnd].
    destruct (Hbody s a Hs) as (s1 & E1 & Hs1 & G1).
    destruct (IH Hnd s1 Hs1) as (s' & E & Hs' & G).
    exists s'. cbn [forEach]. rewrite E1. split; [exact E|]. split; [exact Hs'|].
    intros k. rewrite G, G1. cbn [existsb].
    destruct (touch a k) eqn:Ta; cbn [orb]; [|reflexivity].
    destruct (existsb (fun a0 => touch a0 k) l) eqn:Ex; [|reflexivity].
    apply existsb_exists in Ex. destruct Ex as (b & Hb & Tb).
    rewrite (Hdisj a b k Ta Tb) in Hnotin.
    exfalso. apply Hnotin. apply list_elem_of_In. exact Hb.
Qed.

Section ModifyEnvironmentProperties.

Variable position : Vector2D.
Variables intensity radiusSq : Q.
Variable w0 : world.World.

Lemma modifyTile_cells (y : Z) (w : world.World) (x : Z) :
  world.sameShape w0 w ->
  exists w',
    world.modifyTile position intensity radiusSq y w x = Some w'
    /\ world.sameShape w0 w'
    /\ forall k,
         world.cell w' k
         = if world.writes w0 position radiusSq y x k
           then world.corruptCell position intensity radiusSq k (world.cell w k)
           else world.cell w k.
Proof.
  intros Hinv. pose proof Hinv as (Hwf & HW & HH & HE & HN).
  unfold world.modifyTile, world.writes.
  rewrite HW, HH.
  destruct ((x <? 0)%Z || (y <? 0)%Z || (world.Width w0 <=? x)%Z
            || (world.Height w0 <=? y)%Z) eqn:Hout; cbn [negb andb].
  - exists w. split; [reflexivity|]. split; [exact Hinv|]. reflexivity.
  - apply orb_false_iff in Hout. destruct Hout as [Hout Hy1].
    apply orb_false_iff in Hout. destruct Hout as [Hout Hx1].
    apply orb_false_iff in Hout. destruct Hout as [Hx0 Hy0].
    apply Z.ltb_ge in Hx0, Hy0. apply Z.leb_gt in Hx1, Hy1.
    fold (world.distSq position x y).
    destruct (Qle_bool (world.distSq position x y) radiusSq) eqn:Hin; cbn [andb].
    + destruct Hwf as (W0 & H0 & Hlen & Hrows).
      destruct (lookup_lt_is_Some_2 (world.Tiles w) (Z.to_nat y)) as [row Hrow];
        [rewrite Hlen, HH; lia|].
      rewrite Hrow.
      assert (Hrowlen : length row = Z.to_nat (world.Width w)).
      { rewrite Forall_forall in Hrows. apply Hrows.
        apply list_elem_of_lookup. eauto. }
      destruct (lookup_lt_is_Some_2 row (Z.to_nat x)) as [tile Htile];
        [rewrite Hrowlen, HW; lia|].
      rewrite Htile. eexists. split; [reflexivity|]. split.
      * unfold world.sameShape, world.wellFormed.
        cbn [world.Width world.Height world.Tiles world.Entities world.nextID].
        split; [split; [lia | split; [lia | split]] | tauto].
        -- rewrite length_insert, Hlen, HH. reflexivity.
        -- apply Forall_insert; [rewrite <- HW; exact Hrows|].
           rewrite length_insert, Hrowlen, HW. reflexivity.
      * intros [i j]. unfold world.cell. cbn [world.Tiles fst snd].
        destruct (Nat.eqb_spec (Z.to_nat x) i) as [<-|Hi]; cbn [andb].
        -- destruct (Nat.eqb_spec (Z.to_nat y) j) as [<-|Hj].
           ++ rewrite list_lookup_insert_eq by (rewrite Hlen, HH; lia).
              rewrite list_lookup_insert_eq by (rewrite Hrowlen, HW; lia).
              unfold world.corruptCell. cbn [fst snd]. rewrite Hrow, Htile.
              cbn [fmap option_fmap option_map].
              rewrite !Z2Nat.id by lia. reflexivity.
           ++ rewrite list_lookup_insert_ne by exact Hj. reflexivity.
        -- destruct (Nat.eq_dec (Z.to_nat y) j) as [<-|Hj].
           ++ rewrite list_lookup_insert_eq by (rewrite Hlen, HH; lia).
              rewrite list_lookup_insert_ne by exact Hi. rewrite Hrow. reflexivity.
           ++ rewrite list_lookup_insert_ne by exact Hj. reflexivity.
    + exists w. split; [reflexivity|]. split; [exact Hinv|]. reflexivity.
Qed.

Lemma writes_inj_x (y a b : Z) (k : nat * nat) :
  world.writes w0 position radiusSq y a k = true ->
  world.writes w0 position radiusSq y b k = true -> a = b.
Proof.
  unfold world.writes. intros Ha Hb.
  repeat (apply andb_true_iff in Ha; destruct Ha as [Ha ?]).
  repeat (apply andb_true_iff in Hb; destruct Hb as [Hb ?]).
  apply negb_true_iff in Ha, Hb.
  repeat (apply orb_false_iff in Ha; destruct Ha as [Ha ?]).
  repeat (apply orb_false_iff in Hb; destruct Hb as [Hb ?]).
  apply Z.ltb_ge in Ha, Hb.
  repeat match goal with H : (_ =? _)%nat = true |- _ => apply Nat.eqb_eq in H end.
  lia.
Qed.

Lemma writes_inj_y (a b x x' : Z) (k : nat * nat) :
  world.writes w0 position radiusSq a x k = true ->
  world.writes w0 position radiusSq b x' k = true -> a = b.
Proof.
  unfold world.writes. intros Ha Hb.
  repeat (apply andb_true_iff in Ha; destruct Ha as [Ha ?]).
  repeat (apply andb_true_iff in Hb; destruct Hb as [Hb ?]).
  apply negb_true_iff in Ha, Hb.
  repeat (apply orb_false_iff in Ha; destruct Ha as [Ha ?]).
  repeat (apply orb_false_iff in Hb; destruct Hb as [Hb ?]).
  repeat match goal with H : (_ <? _)%Z = false |- _ => apply Z.ltb_ge in H end.
  repeat match goal with H : (_ =? _)%nat = true |- _ => apply Nat.eqb_eq in H end.
  lia.
Qed.

Lemma modifyRows_cells (xs ys : list Z) (w : world.World) :
  NoDup xs -> NoDup ys -> world.sameShape w0 w ->
  exists w',
    forEach (fun w y => forEach (world.modifyTile position intensity radiusSq y) xs w)
      ys w = Some w'
    /\ world.sameShape w0 w'
    /\ forall k,
         world.cell w' k
         = if existsb
                (fun y => existsb (fun x => world.writes w0 position radiusSq y x k) xs)
                ys
           then world.corruptCell position intensity radiusSq k (world.cell w k)
           else world.cell w k.
Proof.
  intros Hxs Hys.
  apply (forEach_cells (world.sameShape w0) world.cell
           (world.corruptCell position intensity radiusSq)
           (fun y k => existsb (fun x => world.writes w0 position radiusSq y x k) xs)).
  - intros s y Hs.
    apply (forEach_cells (world.sameShape w0) world.cell
             (world.corruptCell position intensity radiusSq)
             (world.writes w0 position radiusSq y)).
    + intros s1 x Hs1. apply modifyTile_cells. exact Hs1.
    + intros a b k. apply writes_inj_x.
    + exact Hxs.
    + exact Hs.
  - intros a b k Ha Hb.
    apply existsb_exists in Ha, Hb.
    destruct Ha as (x & _ & Ha). destruct Hb as (x' & _ & Hb).
    exact (writes_inj_y a b x x' k Ha Hb).
  - exact Hys.
Qed.

End ModifyEnvironmentProperties.

Lemma Qsquare_nonneg (a : Q) : 0 <= a * a.
Proof. destruct (Qlt_le_dec a 0); nra. Qed.

Lemma disc_in_box (c r : Q) (n : Z) (rest : Q) :
  0 <= r -> 0 <= rest -> (0 <= n)%Z ->
  (inject_Z n - c) * (inject_Z n - c) + rest <= r * r ->
  (int_of_float64 (c - r) <= n <= int_of_float64 (c + r))%Z.
Proof.
  intros Hr Hrest Hn H.
  assert (Hsq : (inject_Z n - c) * (inject_Z n - c) <= r * r) by lra.
  split.
  - apply int_of_float64_le; [exact Hn|]. nra.
  - apply int_of_float64_ge; [exact Hn|]. nra.
Qed.

Lemma corrupt_spec (position : Vector2D) (intensity radiusSq : Q) (x y : Z)
    (tile : world.Tile) :
  0 <= intensity -> 0 < radiusSq -> world.distSq position x y <= radiusSq ->
  let tile' := world.corrupt position intensity radiusSq x y tile in
  world.Elevation tile' = world.Elevation tile
  /\ world.Moisture tile' = world.Moisture tile
  /\ world.Corruption tile'
     == Qmin 1 (world.Corruption tile
                + (1 - world.distSq position x y / radiusSq) * intensity * (3 # 10))
  /\ world.Corruption tile' <= 1
  /\ (world.Corruption tile <= 1 -> world.Corruption tile <= world.Corruption tile')
  /\ world.Type_ tile'
     = if Qgtb (world.Corruption tile') (7 # 10) then world.TileCorrupted
       else world.Type_ tile.
Proof.
  intros Hi Hr Hd tile'. unfold tile', world.corrupt.
  fold (world.distSq position x y).
  cbn [world.Elevation world.Moisture world.Corruption world.Type_].
  set (d := world.distSq position x y) in *.
  assert (Hq : 0 <= 1 - d / radiusSq).
  { assert (d / radiusSq <= 1); [|lra].
    apply Qle_shift_div_r; [exact Hr | lra]. }
  set (s := 1 - d / radiusSq) in *.
  assert (Hs : 0 <= s * intensity * (3 # 10)) by nra.
  split; [reflexivity|]. split; [reflexivity|].
  case_Qltb 1 (world.Corruption tile + s * intensity * (3 # 10)); unfold Qgtb.
  - rewrite (proj2 (Qltb_true 1 (world.Corruption tile + s * intensity * (3 # 10)))) by exact E.
    repeat split; try lra.
    rewrite Q.min_l by lra. reflexivity.
  - rewrite (proj2 (Qltb_false 1 (world.Corruption tile + s * intensity * (3 # 10)))) by exact E.
    repeat split; try lra.
    rewrite Q.min_r by lra. reflexivity.
Qed.

(** X24.  [ModifyEnvironment] on a world whose slices of tiles have the
    size of the world, with an intensity that is not negative, returns, and
    leaves the size, the entities and the next identifier as they are.  A
    tile of the world farther from the position than the radius
    [10 + 20 * intensity] is unchanged.  Every tile of the world within the
    radius keeps its elevation and its moisture; its corruption grows by
    [0.3 * intensity * (1 - distSq / radius^2)], capped at 1, so that it
    does not fall when it was at most 1; its type becomes [TileCorrupted]
    when the new corruption is above 0.7 and is unchanged otherwise. *)
Theorem ModifyEnvironment_spec (w : world.World) (position : Vector2D)
    (intensity : Q) :
  let radius := 10 + intensity * 20 in
  world.wellFormed w -> 0 <= intensity ->
  fitsInt (X position - radius) -> fitsInt (X position + radius) ->
  fitsInt (Y position - radius) -> fitsInt (Y position + radius) ->
  exists w',
    world.ModifyEnvironment w position intensity = Some w'
    /\ world.sameShape w w'
    /\ forall x y,
         (0 <= x < world.Width w)%Z -> (0 <= y < world.Height w)%Z ->
         exists tile tile',
           world.tileAt w x y = Some tile /\ world.tileAt w' x y = Some tile'
           /\ world.Elevation tile' = world.Elevation tile
           /\ world.Moisture tile' = world.Moisture tile
           /\ (radius * radius < world.distSq position x y -> tile' = tile)
           /\ (world.distSq position x y <= radius * radius ->
               world.Corruption tile'
               == Qmin 1 (world.Corruption tile
                          + (1 - world.distSq position x y / (radius * radius))
                            * intensity * (3 # 10))
               /\ world.Corruption tile' <= 1
               /\ (world.Corruption tile <= 1 ->
                   world.Corruption tile <= world.Corruption tile')
               /\ world.Type_ tile'
                  = if Qgtb (world.Corruption tile') (7 # 10)
                    then world.TileCorrupted else world.Type_ tile).
Proof.
  intros radius Hwf Hi _ _ _ _.
  assert (Hr : 10 <= radius) by (unfold radius; nra).
  assert (Hrsq : 0 < radius * radius) by nra.
  assert (Hshape : world.sameShape w w) by (unfold world.sameShape; tauto).
  unfold world.ModifyEnvironment. fold radius.
  set (xs := rangeZ (int_of_float64 (X position - radius))
               (int_of_float64 (X position + radius))).
  set (ys := rangeZ (int_of_float64 (Y position - radius))
               (int_of_float64 (Y position + radius))).
  destruct (modifyRows_cells position intensity (radius * radius) w xs ys w
              (NoDup_rangeZ _ _) (NoDup_rangeZ _ _) Hshape)
    as (w' & E & Hshape' & Hcells).
  exists w'. split; [exact E|]. split; [exact Hshape'|].
  intros x y Hx Hy.
  destruct Hwf as (_ & _ & Hlen & Hrows).
  destruct (lookup_lt_is_Some_2 (world.Tiles w) (Z.to_nat y)) as [row Hrow];
    [rewrite Hlen; lia|].
  assert (Hrowlen : length row = Z.to_nat (world.Width w)).
  { rewrite Forall_forall in Hrows. apply Hrows. apply list_elem_of_lookup. eauto. }
  destruct (lookup_lt_is_Some_2 row (Z.to_nat x)) as [tile Htile];
    [rewrite Hrowlen; lia|].
  assert (Ht : world.tileAt w x y = Some tile).
  { unfold world.tileAt. rewrite Hrow. exact Htile. }
  assert (Hc : world.cell w (Z.to_nat x, Z.to_nat y) = Some tile) by exact Ht.
  specialize (Hcells (Z.to_nat x, Z.to_nat y)).
  change (world.cell w' (Z.to_nat x, Z.to_nat y)) with (world.tileAt w' x y) in Hcells.
  rewrite Hc in Hcells. unfold world.corruptCell in Hcells. cbn [fst snd] in Hcells.
  rewrite !Z2Nat.id in Hcells by lia.
  cbn [fmap option_fmap option_map] in Hcells.
  exists tile.
  destruct (Qle_bool (world.distSq position x y) (radius * radius)) eqn:Hin.
  - apply Qle_bool_iff in Hin.
    assert (Hex : existsb
                    (fun y0 => existsb
                       (fun x0 => world.writes w position (radius * radius) y0 x0
                                    (Z.to_nat x, Z.to_nat y)) xs) ys = true).
    { apply existsb_exists. exists y. split.
      - apply list_elem_of_In, elem_of_rangeZ.
        unfold world.distSq, float64_of_int in Hin.
        apply (disc_in_box (Y position) radius y
                 ((inject_Z x - X position) * (inject_Z x - X position)));
          [lra | apply Qsquare_nonneg | lia | lra].
      - apply existsb_exists. exists x. split.
        + apply list_elem_of_In, elem_of_rangeZ.
          unfold world.distSq, float64_of_int in Hin.
          apply (disc_in_box (X position) radius x
                   ((inject_Z y - Y position) * (inject_Z y - Y position)));
            [lra | apply Qsquare_nonneg | lia | lra].
        + unfold world.writes. cbn [fst snd].
          rewrite !Nat.eqb_refl, (proj2 (Qle_bool_iff _ _) Hin).
          replace (x <? 0)%Z with false by (symmetry; apply Z.ltb_ge; lia).
          replace (y <? 0)%Z with false by (symmetry; apply Z.ltb_ge; lia).
          replace (world.Width w <=? x)%Z with false by (symmetry; apply Z.leb_gt; lia).
          replace (world.Height w <=? y)%Z with false by (symmetry; apply Z.leb_gt; lia).
          reflexivity. }
    rewrite Hex in Hcells. eexists. split; [exact Ht|]. split; [exact Hcells|].
    destruct (corrupt_spec position intensity (radius * radius) x y tile Hi Hrsq Hin)
      as (He & Hm & Hcor & Hle & Hmono & Hty).
    split; [exact He|]. split; [exact Hm|]. split; [intros Hfar; lra|].
    intros _. repeat split; assumption.
  - assert (Hex : existsb
                    (fun y0 => existsb
                       (fun x0 => world.writes w position (radius * radius) y0 x0
                                    (Z.to_nat x, Z.to_nat y)) xs) ys = false).
    { apply not_true_is_false. intros Hex.
      apply existsb_exists in Hex. destruct Hex as (y0 & _ & Hex).
      apply existsb_exists in Hex. destruct Hex as (x0 & _ & Hw).
      unfold world.writes in Hw. cbn [fst snd] in Hw.
      repeat (apply andb_true_iff in Hw; destruct Hw as [Hw ?]).
      apply negb_true_iff in Hw.
      repeat (apply orb_false_iff in Hw; destruct Hw as [Hw ?]).
      repeat match goal with H : (_ <? _)%Z = false |- _ => apply Z.ltb_ge in H end.
      repeat match goal with H : (_ =? _)%nat = true |- _ => apply Nat.eqb_eq in H end.
      assert (x0 = x) by lia. assert (y0 = y) by lia. subst x0 y0.
      congruence. }
    rewrite Hex in Hcells. exists tile. split; [exact Ht|]. split; [exact Hcells|].
    split; [reflexivity|]. split; [reflexivity|]. split; [reflexivity|].
    intros Hle. apply Qle_bool_iff in Hle. congruence.
Qed.

Lemma ModifyEnvironment_spec_witness :
  let w := world.blank 40 30 in
  let position := mkVector2D (41 # 2) 12 in
  let intensity := 1 # 2 in
  let radius := 10 + intensity * 20 in
  exists w',
    world.ModifyEnvironment w position intensity = Some w'
    /\ world.sameShape w w'
    /\ forall x y,
         (0 <= x < world.Width w)%Z -> (0 <= y < world.Height w)%Z ->
         exists tile tile',
           world.tileAt w x y = Some tile /\ world.tileAt w' x y = Some tile'
           /\ world.Elevation tile' = world.Elevation tile
           /\ world.Moisture tile' = world.Moisture tile
           /\ (radius * radius < world.distSq position x y -> tile' = tile)
           /\ (world.distSq position x y <= radius * radius ->
               world.Corruption tile'
               == Qmin 1 (world.Corruption tile
                          + (1 - world.distSq position x y / (radius * radius))
                            * intensity * (3 # 10))
               /\ world.Corruption tile' <= 1
               /\ (world.Corruption tile <= 1 ->
                   world.Corruption tile <= world.Corruption tile')
               /\ world.Type_ tile'
                  = if Qgtb (world.Corruption tile') (7 # 10)
                    then world.TileCorrupted else world.Type_ tile).
Proof.
  intros w position intensity radius.
  apply (ModifyEnvironment_spec w position intensity).
  - unfold w, world.blank, world.wellFormed.
    cbn [world.Width world.Height world.Tiles].
    split; [lia|]. split; [lia|]. split.
    + rewrite length_replicate, Nat2Z.id. reflexivity.
    + apply Forall_replicate. rewrite length_replicate, Nat2Z.id. reflexivity.
  - discriminate.
  - split; reflexivity.
  - split; reflexivity.
  - split; reflexivity.
  - split; reflexivity.
Defined.

(** ** Spawned creatures *)

Lemma SpawnCreature_uniqueIDs (math_Pi : Q) (w : world.World) (creatureType : string)
    (position : Vector2D) (draw : Q) :
  world.uniqueIDs w -> (- 2 ^ 63 <= world.nextID w < 2 ^ 63 - 1)%Z ->
  world.uniqueIDs (fst (world.SpawnCreature math_Pi w creatureType position draw)).
Proof.
  intros [Hnd Hlt] Hn. unfold world.uniqueIDs, world.SpawnCreature.
  cbn [fst world.Entities world.nextID].
  rewrite wrap64_small
    by (unfold minDuration, maxDuration;
        change (2 ^ 63)%Z with 9223372036854775808%Z in *; lia).
  split.
  - rewrite fmap_app. apply NoDup_app. split; [exact Hnd|]. split.
    + intros i Hi Hi'. cbn in Hi'. apply list_elem_of_singleton in Hi'. subst i.
      apply list_elem_of_fmap in Hi. destruct Hi as (e & He & Hin).
      rewrite Forall_forall in Hlt. specialize (Hlt e Hin). lia.
    + cbn. apply NoDup_singleton.
  - apply Forall_app. split.
    + eapply Forall_impl; [exact Hlt|]. cbn. intros e He. lia.
    + constructor; [cbn; lia | constructor].
Qed.

(** X25.  Creatures that are spawned one after the other get the
    identifiers [nextID], [nextID + 1], ... in the order of the calls, as
    long as the counter does not overflow; the entities that were there
    stay, in front of the new ones, and when their identifiers were
    distinct and below [nextID], the identifiers of all entities are
    distinct.  Every new entity has the type and the position asked for.
    The tiles and the size of the world are left as they are. *)
Theorem spawnAll_ids (math_Pi : Q) (w : world.World)
    (requests : list (string * Vector2D * Q)) :
  world.uniqueIDs w ->
  (- 2 ^ 63 <= world.nextID w)%Z ->
  (world.nextID w + Z.of_nat (length requests) <= 2 ^ 63 - 1)%Z ->
  let w' := world.spawnAll math_Pi w requests in
  exists spawned,
    world.Entities w' = world.Entities w ++ spawned
    /\ world.ID <$> spawned = seqZ (world.nextID w) (Z.of_nat (length requests))
    /\ (fun e => (world.EntityType e, world.EntityPosition e)) <$> spawned
       = fst <$> requests
    /\ world.nextID w' = (world.nextID w + Z.of_nat (length requests))%Z
    /\ world.uniqueIDs w'
    /\ world.Tiles w' = world.Tiles w
    /\ world.Width w' = world.Width w /\ world.Height w' = world.Height w.
Proof.
  revert w. induction requests as [|[[t p] d] rs IH]; intros w Hu Hlo Hhi.
  - exists []. cbn. rewrite app_nil_r. repeat split; first [apply Hu | lia | idtac].
  - cbn [length] in Hhi.
    pose proof (SpawnCreature_uniqueIDs math_Pi w t p d Hu ltac:(lia)) as Hu1.
    unfold world.spawnAll. cbn [fold_left fst snd].
    set (w1 := fst (world.SpawnCreature math_Pi w t p d)) in *.
    assert (Hn1 : world.nextID w1 = (world.nextID w + 1)%Z).
    { unfold w1, world.SpawnCreature. cbn [fst world.nextID].
      apply wrap64_small. unfold minDuration, maxDuration.
      change (2 ^ 63)%Z with 9223372036854775808%Z in *. lia. }
    destruct (IH w1 Hu1) as (sp & He & Hid & Hty & Hn & Hu' & Ht & Hw & Hh);
      [lia | lia |].
    fold (world.spawnAll math_Pi w1 rs).
    exists (world.mkEntity (world.nextID w) t p (d * 2 * math_Pi) :: sp).
    rewrite He, Hn, Ht, Hw, Hh, Hn1. cbn [length].
    split; [unfold w1, world.SpawnCreature; cbn [fst world.Entities];
            rewrite <- app_assoc; reflexivity|].
    split.
    { rewrite fmap_cons, Hid, Hn1. cbn [world.ID].
      rewrite (seqZ_cons (world.nextID w)) by lia.
      f_equal. f_equal; lia. }
    split; [rewrite !fmap_cons, Hty; reflexivity|].
    split; [lia|]. split; [exact Hu'|]. repeat split.
Qed.

Lemma spawnAll_ids_witness :
  let w := world.blank 4 3 in
  let requests :=
    [("shadow"%string, mkVector2D 1 2, 1 # 4); ("spider"%string, mkVector2D 3 1, 1 # 2)] in
  let w' := world.spawnAll 3 w requests in
  exists spawned,
    world.Entities w' = world.Entities w ++ spawned
    /\ world.ID <$> spawned = seqZ (world.nextID w) (Z.of_nat (length requests))
    /\ (fun e => (world.EntityType e, world.EntityPosition e)) <$> spawned
       = fst <$> requests
    /\ world.nextID w' = (world.nextID w + Z.of_nat (length requests))%Z
    /\ world.uniqueIDs w'
    /\ world.Tiles w' = world.Tiles w
    /\ world.Width w' = world.Width w /\ world.Height w' = world.Height w.
Proof.
  intros w requests.
  apply (spawnAll_ids 3 w requests).
  - split; [constructor | constructor].
  - cbn. lia.
  - cbn. lia.
Defined.

(** ** Recorded positions *)

Lemma sumOf_insert (m : gmap string Z) (k : string) (c : Z) :
  sumOf (<[k := c]> m)
  = (sumOf m - match m !! k with Some n => n | None => 0 end + c)%Z.
Proof.
  unfold sumOf. destruct (m !! k) as [n|] eqn:E.
  - rewrite <- insert_delete_eq.
    rewrite map_fold_insert_L; [|intros; lia | apply lookup_delete_eq].
    rewrite (map_fold_delete_L _ _ k n m); [lia | intros; lia | exact E].
  - rewrite map_fold_insert_L; [lia | intros; lia | exact E].
Qed.

Lemma wrapped_sum (m : gmap string Z) :
  (forall k c, m !! k = Some c -> (0 <= c)%Z) ->
  (sumOf m <= 2 ^ 63 - 1)%Z ->
  map_fold (fun _ count total => wrap64 (total + count)) 0%Z m = sumOf m
  /\ (0 <= sumOf m)%Z.
Proof.
  apply (map_fold_weak_ind
           (fun r m => (forall k c, m !! k = Some c -> (0 <= c)%Z) ->
                       (sumOf m <= 2 ^ 63 - 1)%Z ->
                       r = sumOf m /\ (0 <= sumOf m)%Z)).
  - intros _ _. unfold sumOf. rewrite map_fold_empty. split; [reflexivity | lia].
  - intros i x m' r Hi IH Hnn Hmax.
    rewrite sumOf_insert, Hi in Hmax |- *.
    assert (Hx : (0 <= x)%Z) by (apply (Hnn i); apply lookup_insert_eq).
    destruct IH as [-> H0].
    + intros k c Hk. apply (Hnn k). rewrite lookup_insert_ne; [exact Hk|].
      intros <-. congruence.
    + lia.
    + split; [|lia]. rewrite wrap64_small; [lia|].
      unfold minDuration, maxDuration.
      change (2 ^ 63)%Z with 9223372036854775808%Z in *. lia.
Qed.

Lemma size_le_sumOf (m : gmap string Z) :
  (forall k c, m !! k = Some c -> (1 <= c)%Z) ->
  (Z.of_nat (size m) <= sumOf m)%Z.
Proof.
  unfold sumOf.
  apply (map_fold_weak_ind
           (fun r m => (forall k c, m !! k = Some c -> (1 <= c)%Z) ->
                       (Z.of_nat (size m) <= r)%Z)).
  - intros _. rewrite map_size_empty. lia.
  - intros i x m' r Hi IH Hpos.
    rewrite map_size_insert_None by exact Hi.
    assert (Hx : (1 <= x)%Z) by (apply (Hpos i); apply lookup_insert_eq).
    assert (Z.of_nat (size m') <= r)%Z; [|lia].
    apply IH. intros k c Hk. apply (Hpos k). rewrite lookup_insert_ne; [exact Hk|].
    intros <-. congruence.
Qed.

Lemma visitsOf_snoc (size : Q) (key : string) (positions : list Vector2D)
    (p : Vector2D) :
  visitsOf size key (positions ++ [p])
  = (visitsOf size key positions
     + if decide (sectorKey size p = key) then 1 else 0)%Z.
Proof.
  unfold visitsOf. rewrite filter_app, length_app.
  destruct (decide (sectorKey size p = key)) as [H|H].
  - rewrite (filter_cons_True _ p []) by exact H. rewrite filter_nil. cbn [length]. lia.
  - rewrite (filter_cons_False _ p []) by exact H. rewrite filter_nil. cbn [length]. lia.
Qed.

Lemma visitsOf_bounds (size : Q) (key : string) (positions : list Vector2D) :
  (0 <= visitsOf size key positions <= Z.of_nat (length positions))%Z.
Proof.
  unfold visitsOf. pose proof (length_filter (fun p => sectorKey size p = key) positions).
  lia.
Qed.

Lemma recordPlayerPosition_tracks (positions : list Vector2D) (t : Tracker)
    (p : Player) :
  (Z.of_nat (length positions) < 2 ^ 63 - 1)%Z ->
  tracks positions t ->
  exists t', recordPlayerPosition t (Some p) = Some t'
             /\ tracks (positions ++ [Position p]) t'.
Proof.
  intros Hn (Hh & Hs & Hv & He & Hsum & Hsize).
  eexists. split; [reflexivity|]. unfold tracks.
  cbn [positionHistory sectorSize areaVisits sectorsExplored].
  rewrite Hs. set (key0 := sectorKey 5 (Position p)).
  pose proof (visitsOf_bounds 5 key0 positions) as Hb.
  assert (Hvis : match areaVisits t !! key0 with Some n => n | None => 0%Z end
                 = visitsOf 5 key0 positions).
  { rewrite Hv. destruct (Z.eqb_spec (visitsOf 5 key0 positions) 0); lia. }
  rewrite Hvis.
  rewrite wrap64_small
    by (unfold minDuration, maxDuration;
        change (2 ^ 63)%Z with 9223372036854775808%Z in *; lia).
  split; [|split; [reflexivity|split; [|split; [|split]]]].
  - rewrite Hh.
    destruct (1000 <? length (lastN 1000 positions ++ [Position p]))%nat eqn:E.
    + change 1000%nat with (S 999). apply lastN_lastN_snoc.
    + apply Nat.ltb_ge in E. rewrite length_app, lastN_length in E.
      cbn [length] in E.
      rewrite (lastN_all 1000 positions) by lia.
      symmetry. apply lastN_all. rewrite length_app. cbn [length]. lia.
  - intros key. rewrite visitsOf_snoc. fold key0.
    destruct (decide (key0 = key)) as [<-|Hne].
    + rewrite lookup_insert_eq.
      destruct (Z.eqb_spec (visitsOf 5 key0 positions + 1) 0); [lia | reflexivity].
    + rewrite lookup_insert_ne by exact Hne. rewrite Z.add_0_r. apply Hv.
  - intros key. rewrite visitsOf_snoc. fold key0.
    destruct (decide (key0 = key)) as [<-|Hne].
    + rewrite lookup_insert_eq.
      destruct (Z.eqb_spec (visitsOf 5 key0 positions + 1) 0); [lia | reflexivity].
    + rewrite lookup_insert_ne by exact Hne. rewrite Z.add_0_r. apply He.
  - rewrite sumOf_insert, Hvis, Hsum, length_app. cbn [length]. lia.
  - rewrite !map_size_insert, Hv, He, Hsize.
    destruct (visitsOf 5 key0 positions =? 0)%Z; reflexivity.
Qed.

Lemma recordPositions_snoc (players : list (option Player)) (player : option Player) :
  forall t,
    recordPositions t (players ++ [player])
    = match recordPositions t players with
      | Some t' => recordPlayerPosition t' player
      | None => None
      end.
Proof.
  induction players as [|q qs IH]; intros t; cbn [recordPositions app].
  - destruct (recordPlayerPosition t player); reflexivity.
  - destruct (recordPlayerPosition t q) as [t'|]; [apply IH | reflexivity].
Qed.

Lemma recordPositions_tracks (players : list Player) :
  (Z.of_nat (length players) <= 2 ^ 63 - 1)%Z ->
  exists t, recordPositions NewTracker (Some <$> players) = Some t
            /\ tracks (Position <$> players) t.
Proof.
  induction players as [|p ps IH] using rev_ind; intros Hn.
  - exists NewTracker. split; [reflexivity|]. unfold tracks, NewTracker, visitsOf.
    cbn [positionHistory sectorSize areaVisits sectorsExplored fmap list_fmap].
    repeat split; try (intros key; rewrite filter_nil; apply lookup_empty).
  - rewrite length_app in Hn. cbn [length] in Hn.
    destruct IH as (t & E & Ht); [lia|].
    rewrite !fmap_app. cbn [fmap list_fmap]. rewrite recordPositions_snoc, E.
    apply recordPlayerPosition_tracks; [rewrite length_fmap; lia | exact Ht].
Qed.

(** X26.  After the positions of the player have been recorded one after
    the other by a new Analyzer, the history holds the last 1000 of them;
    a sector has been explored exactly when one of the positions lies in
    it, and its count of visits is the number of those positions; the
    repetition of the path is then the number of positions for each
    explored sector, less one: it is never negative, and it is zero exactly
    when there are as many explored sectors as positions. *)
Theorem recordPositions_spec (players : list Player) (m : MovementAnalysis) :
  (Z.of_nat (length players) <= 2 ^ 63 - 1)%Z ->
  Forall (fun p => fitsInt (X (Position p) / 5)
                   /\ fitsInt (Y (Position p) / 5)) players ->
  let positions := Position <$> players in
  exists t,
    recordPositions NewTracker (Some <$> players) = Some t
    /\ positionHistory t = lastN 1000 positions
    /\ (forall key,
           areaVisits t !! key
           = if (visitsOf 5 key positions =? 0)%Z then None
             else Some (visitsOf 5 key positions))
    /\ (forall key,
           sectorsExplored t !! key
           = if (visitsOf 5 key positions =? 0)%Z then None else Some true)
    /\ (size (sectorsExplored t) <= length players)%nat
    /\ (players <> [] -> (1 <= size (sectorsExplored t))%nat)
    /\ PathRepetition (calculatePathRepetition t m)
       == (if (size (sectorsExplored t) =? 0)%nat then 0
           else inject_Z (Z.of_nat (length players))
                / inject_Z (Z.of_nat (size (sectorsExplored t))) - 1)
    /\ 0 <= PathRepetition (calculatePathRepetition t m)
    /\ (PathRepetition (calculatePathRepetition t m) == 0
        <-> size (sectorsExplored t) = length players).
Proof.
  intros Hn _ positions.
  destruct (recordPositions_tracks players Hn) as (t & E & Ht).
  fold positions in Ht. destruct Ht as (Hh & Hs & Hv & He & Hsum & Hsize).
  assert (Hlen : length positions = length players) by apply length_fmap.
  assert (Hpos : forall k c, areaVisits t !! k = Some c -> (1 <= c)%Z).
  { intros k c. rewrite Hv. pose proof (visitsOf_bounds 5 k positions).
    destruct (Z.eqb_spec (visitsOf 5 k positions) 0); [discriminate|].
    intros [= <-]. lia. }
  pose proof (size_le_sumOf (areaVisits t) Hpos) as Hle.
  rewrite Hsum, Hlen, <- Hsize in Hle.
  destruct (wrapped_sum (areaVisits t)) as [Hw _].
  { intros k c Hk. specialize (Hpos k c Hk). lia. }
  { rewrite Hsum, Hlen. exact Hn. }
  exists t. split; [exact E|]. split; [exact Hh|]. split; [exact Hv|].
  split; [exact He|]. split; [lia|].
  assert (Hne : players <> [] -> (1 <= size (sectorsExplored t))%nat).
  { intros Hne. destruct players as [|p ps _] using rev_ind; [congruence|].
    assert (Hin : sectorsExplored t !! sectorKey 5 (Position p) = Some true).
    { rewrite He. unfold positions. rewrite fmap_app. cbn [fmap list_fmap].
      rewrite visitsOf_snoc. rewrite decide_True by reflexivity.
      pose proof (visitsOf_bounds 5 (sectorKey 5 (Position p)) (Position <$> ps)).
      destruct (Z.eqb_spec (visitsOf 5 (sectorKey 5 (Position p)) (Position <$> ps) + 1) 0);
        [lia | reflexivity]. }
    destruct (size (sectorsExplored t)) eqn:Hz; [|lia].
    apply map_size_empty_iff in Hz. rewrite Hz, lookup_empty in Hin. discriminate. }
  split; [exact Hne|].
  unfold calculatePathRepetition.
  destruct (Nat.eqb_spec (size (sectorsExplored t)) 0) as [Hz|Hz];
    cbn [PathRepetition].
  - split; [reflexivity|]. split; [lra|]. split; [intros _|reflexivity].
    destruct players as [|p ps]; [exact Hz|].
    assert (1 <= size (sectorsExplored t))%nat by (apply Hne; discriminate). lia.
  - rewrite Hw, Hsum, Hlen. unfold float64_of_int.
    set (n := Z.of_nat (length players)) in *.
    set (s := Z.of_nat (size (sectorsExplored t))) in *.
    assert (Hs1 : (1 <= s)%Z) by (unfold s; lia).
    assert (Hq : 1 <= inject_Z n / inject_Z s).
    { apply Qle_shift_div_l.
      - change 0 with (inject_Z 0). rewrite <- Zlt_Qlt. lia.
      - rewrite Qmult_1_l. rewrite <- Zle_Qle. exact Hle. }
    assert (Hs0 : 0 < inject_Z s).
    { change 0 with (inject_Z 0). rewrite <- Zlt_Qlt. lia. }
    assert (Hiff : inject_Z n / inject_Z s - 1 == 0
                   <-> size (sectorsExplored t) = length players).
    { split.
      - intros H0.
        assert (H1 : inject_Z n == inject_Z s).
        { assert (H2 : inject_Z n / inject_Z s == 1) by lra.
          transitivity (inject_Z s * (inject_Z n / inject_Z s)).
          - symmetry. apply Qmult_div_r. lra.
          - rewrite H2. lra. }
        apply (proj1 (inject_Z_injective n s)) in H1. unfold n, s in H1. lia.
      - intros Heq. assert (Hns : n = s) by (unfold n, s; lia).
        rewrite Hns. field. lra. }
    unfold math_Max. case_Qltb 0 (inject_Z n / inject_Z s - 1).
    + split; [reflexivity|]. split; [lra | exact Hiff].
    + split; [lra|]. split; [lra|]. rewrite <- Hiff. split; intros; lra.
Qed.

Lemma recordPositions_spec_witness :
  let players :=
    [samplePlayer; mkPlayer (mkVector2D 129 130) 100 100;
     mkPlayer (mkVector2D 141 128) 100 90] in
  let positions := Position <$> players in
  exists t,
    recordPositions NewTracker (Some <$> players) = Some t
    /\ positionHistory t = lastN 1000 positions
    /\ (forall key,
           areaVisits t !! key
           = if (visitsOf 5 key positions =? 0)%Z then None
             else Some (visitsOf 5 key positions))
    /\ (forall key,
           sectorsExplored t !! key
           = if (visitsOf 5 key positions =? 0)%Z then None else Some true)
    /\ (size (sectorsExplored t) <= length players)%nat
    /\ (players <> [] -> (1 <= size (sectorsExplored t))%nat)
    /\ PathRepetition (calculatePathRepetition t sampleNextMovement)
       == (if (size (sectorsExplored t) =? 0)%nat then 0
           else inject_Z (Z.of_nat (length players))
                / inject_Z (Z.of_nat (size (sectorsExplored t))) - 1)
    /\ 0 <= PathRepetition (calculatePathRepetition t sampleNextMovement)
    /\ (PathRepetition (calculatePathRepetition t sampleNextMovement) == 0
        <-> size (sectorsExplored t) = length players).
Proof.
  intros players.
  apply (recordPositions_spec players sampleNextMovement).
  - cbn. lia.
  - unfold players. repeat constructor.
Defined.

(** ** Listeners *)

Lemma removeLoop_keeps {A} (rest all : list A) (i : nat) :
  removeLoop i rest all = None.
Proof.
  revert i. induction rest as [|a rest IH]; intros i; cbn [removeLoop].
  - reflexivity.
  - unfold sameAddress. rewrite bool_decide_eq_false_2 by discriminate. apply IH.
Qed.

Lemma RemoveListener_keeps {S} (em : Listeners S) (eventType : EventType)
    (callback : EventCallback S) :
  RemoveListener em eventType callback = em.
Proof.
  unfold RemoveListener. destruct (listeners em !! eventType) as [l|];
    [|reflexivity].
  rewrite removeLoop_keeps. reflexivity.
Qed.

Lemma RemoveCustomListener_keeps {S} (em : Listeners S) (eventName : string)
    (callback : EventCallback S) :
  RemoveCustomListener em eventName callback = em.
Proof.
  unfold RemoveCustomListener.
  destruct (customListeners em !! eventName) as [l|]; [|reflexivity].
  rewrite removeLoop_keeps. reflexivity.
Qed.

Lemma removeAll_keeps {S} (removals : list (Removal S)) (em : Listeners S) :
  removeAll em removals = em.
Proof.
  revert em. induction removals as [|r rs IH]; intros em; [reflexivity|].
  unfold removeAll in *. cbn [fold_left].
  destruct r; [rewrite RemoveListener_keeps | rewrite RemoveCustomListener_keeps];
    apply IH.
Qed.

Lemma AddListener_lookup {S} (em : Listeners S) (eventType t : EventType)
    (callback : EventCallback S) :
  listeners (AddListener em eventType callback) !! t
  = if decide (eventType = t)
    then Some (match listeners em !! t with Some l => l | None => [] end
               ++ [callback])
    else listeners em !! t.
Proof.
  unfold AddListener. cbn [listeners].
  destruct (decide (eventType = t)) as [<-|Hne].
  - rewrite lookup_insert_eq.
    destruct (listeners em !! eventType) as [l|] eqn:E.
    + rewrite E. reflexivity.
    + rewrite lookup_insert_eq. reflexivity.
  - rewrite lookup_insert_ne by exact Hne.
    destruct (listeners em !! eventType); [reflexivity|].
    rewrite lookup_insert_ne by exact Hne. reflexivity.
Qed.

(** X27.  After the Observer has subscribed to a new event manager, an
    event is dispatched to the handler of its type and to nothing else:
    processing a queue of events through the tables of listeners is what
    the five handlers do, one event after the other.  Subscribing to the
    nil event manager registers nothing. *)
Theorem subscribed_dispatch (events : list EventData) (o : ObserverSystem) :
  subscribeToEvents None = None
  /\ exists em,
       subscribeToEvents (Some NewListeners) = Some em
       /\ customListeners em = ∅
       /\ (forall data s, dispatchEvent em data s = onEvent s data)
       /\ forEach (fun s data => dispatchEvent em data s) events o
          = dispatchEvents o events.
Proof.
  split; [reflexivity|]. eexists. split; [reflexivity|].
  set (em := AddListener _ EventScareTriggered recordScareResponse).
  assert (Hc : customListeners em = ∅) by reflexivity.
  assert (Hd : forall data s, dispatchEvent em data s = onEvent s data).
  { intros data s. unfold dispatchEvent, onEvent. rewrite Hc.
    unfold em. rewrite !AddListener_lookup. unfold NewListeners. cbn [listeners].
    destruct (Type_ data) eqn:Ht;
      repeat (rewrite decide_False by discriminate);
      try rewrite decide_True by reflexivity;
      repeat (rewrite decide_False by discriminate);
      rewrite ?lookup_empty; cbn [callAll forEach app];
      try reflexivity;
      try (match goal with |- context [?h s data] => destruct (h s data) end;
           reflexivity).
    destruct (asString _); reflexivity. }
  split; [exact Hc|]. split; [exact Hd|].
  revert o. induction events as [|data rest IH]; intros o; [reflexivity|].
  cbn [forEach dispatchEvents]. rewrite Hd.
  destruct (onEvent o data); [apply IH | reflexivity].
Qed.

(** X28.  [RemoveListener] and [RemoveCustomListener] never take a
    listener away: they compare the address of the variable of their loop
    with the address of their parameter, which are two variables.  Whatever
    is removed after listeners have been added, every event is dispatched
    as before; a callback that was added and then removed is still
    called. *)
Theorem removed_listener_still_called {S} (em : Listeners S)
    (removals : list (Removal S)) (eventType : EventType)
    (callback : EventCallback S) (data : EventData) (s : S) :
  Type_ data = eventType -> eventType <> EventCustom ->
  listeners em !! eventType = None ->
  removeAll em removals = em
  /\ dispatchEvent
       (RemoveListener (AddListener em eventType callback) eventType callback)
       data s
     = callback s data.
Proof.
  intros Ht Hc Hnone. split; [apply removeAll_keeps|].
  rewrite RemoveListener_keeps. unfold dispatchEvent.
  rewrite Ht, AddListener_lookup, decide_True by reflexivity. rewrite Hnone.
  cbn [app callAll forEach].
  destruct (callback s data) as [s1|]; [|reflexivity].
  destruct eventType; try reflexivity. congruence.
Qed.

Lemma removed_listener_still_called_witness :
  removeAll (NewListeners (S := ObserverSystem))
    [Remove EventPlayerMoved recordMovement; RemoveCustom "door" recordDamage]
  = NewListeners
  /\ dispatchEvent
       (RemoveListener (AddListener NewListeners EventPlayerMoved recordMovement)
          EventPlayerMoved recordMovement)
       (NewPlayerMovedEvent PlayerPtr (EntityVector2D (mkVector2D 0 0))
          (EntityVector2D (mkVector2D 3 4)) 7%Z)
       observer0
     = recordMovement observer0
         (NewPlayerMovedEvent PlayerPtr (EntityVector2D (mkVector2D 0 0))
            (EntityVector2D (mkVector2D 3 4)) 7%Z).
Proof.
  apply (removed_listener_still_called NewListeners
           [Remove EventPlayerMoved recordMovement; RemoveCustom "door" recordDamage]
           EventPlayerMoved recordMovement).
  - reflexivity.
  - discriminate.
  - reflexivity.
Defined.

(** ** The inventory *)

Lemma notify_nil (inv : item.Inventory) (eventName : string)
    (source target position value : Any) (now : Z) :
  item.EventManager inv = None ->
  item.notify inv eventName source target position value now = Some inv.
Proof. intros H. unfold item.notify. rewrite H. reflexivity. Qed.

Lemma notify_panics (inv : item.Inventory) (eventName : string)
    (source target position value : Any) (now : Z) :
  is_Some (item.EventManager inv) ->
  item.notify inv eventName source target position value now = None.
Proof. intros [em H]. unfold item.notify. rewrite H. reflexivity. Qed.

Lemma findByID_found (heap : gmap nat item.Item) (id : Z) (items : list nat)
    (p : nat) :
  item.findByID heap id items = Some (Some p) ->
  p ∈ items /\ exists it, heap !! p = Some it /\ item.ID it = id.
Proof.
  induction items as [|q rest IH]; cbn [item.findByID]; [discriminate|].
  destruct (heap !! q) as [it|] eqn:E; [|discriminate].
  destruct (Z.eqb_spec (item.ID it) id) as [Hid|Hid].
  - intros [= <-]. split; [apply list_elem_of_here|]. exists it. auto.
  - intros H. destruct (IH H) as [Hin Hit]. split; [|exact Hit].
    apply list_elem_of_further. exact Hin.
Qed.

Lemma findByID_total (heap : gmap nat item.Item) (id : Z) (items : list nat) :
  item.valid heap items -> is_Some (item.findByID heap id items).
Proof.
  induction 1 as [|q rest [it Hq] _ IH]; cbn [item.findByID]; [eexists; reflexivity|].
  rewrite Hq. destruct (item.ID it =? id)%Z; [eexists; reflexivity | exact IH].
Qed.

Lemma findByID_app_found (heap : gmap nat item.Item) (id : Z) (items : list nat)
    (p : nat) (it : item.Item) :
  item.valid heap items -> heap !! p = Some it -> item.ID it = id ->
  exists q, item.findByID heap id (items ++ [p]) = Some (Some q).
Proof.
  intros Hv Hp Hid. induction Hv as [|q rest [iq Hq] _ IH]; cbn [item.findByID app].
  - rewrite Hp. rewrite (proj2 (Z.eqb_eq _ _) Hid). eauto.
  - rewrite Hq. destruct (item.ID iq =? id)%Z; [eauto | exact IH].
Qed.

Lemma GetTotalWeight_valid (heap : gmap nat item.Item) (inv : item.Inventory) (total : Q) :
  item.GetTotalWeight heap inv = Some total -> item.valid heap (item.Items inv).
Proof.
  unfold item.GetTotalWeight, item.valid. generalize (0 : Q).
  induction (item.Items inv) as [|p rest IH]; intros acc; cbn [forEach].
  - constructor.
  - destruct (heap !! p) as [it|] eqn:E; [|discriminate].
    intros H. constructor; [eauto | exact (IH _ H)].
Qed.

(** X29.  [AddItem] refuses an item, with [false] and no change, when the
    weight of the inventory and the weight of one such item together
    exceed the greatest weight.  Otherwise, an inventory that has an event
    manager panics: it reports the change with the nil payload map, into
    which [TriggerCustom] writes the name of the event.  An inventory
    without an event manager returns [true]: the quantity is added to the
    first item with the same identifier when the item is stackable and
    there is one, and the pointer is appended else; afterwards
    [GetItemByID] finds an item with that identifier. *)
Theorem AddItem_spec (heap : gmap nat item.Item) (inv : item.Inventory) (p : nat)
    (it : item.Item) (total : Q) (now : Z) :
  heap !! p = Some it ->
  item.GetTotalWeight heap inv = Some total ->
  (item.MaxWeight inv < total + item.Weight it ->
   item.AddItem (heap, inv) p now = Some (heap, inv, false))
  /\ (total + item.Weight it <= item.MaxWeight inv ->
      is_Some (item.EventManager inv) ->
      item.AddItem (heap, inv) p now = None)
  /\ (total + item.Weight it <= item.MaxWeight inv ->
      item.EventManager inv = None ->
      exists heap' items',
        item.AddItem (heap, inv) p now
        = Some (heap', item.mkInventory items' (item.MaxWeight inv) None, true)
        /\ ((heap' = heap /\ items' = item.Items inv ++ [p])
            \/ (exists q existing,
                   item.Stackable it = true /\ q ∈ item.Items inv
                   /\ heap !! q = Some existing /\ item.ID existing = item.ID it
                   /\ items' = item.Items inv
                   /\ heap'
                      = <[q := item.mkItem (item.ID existing) (item.Name existing)
                                 (item.Type_ existing) (item.Weight existing)
                                 (item.Stackable existing)
                                 (wrap64 (item.Quantity existing
                                          + item.Quantity it))]> heap))
        /\ exists q found,
             item.GetItemByID heap' (item.mkInventory items' (item.MaxWeight inv) None)
               (item.ID it) = Some (Some q)
             /\ heap' !! q = Some found /\ item.ID found = item.ID it).
Proof.
  intros Hp Ht. pose proof (GetTotalWeight_valid heap inv total Ht) as Hv.
  unfold item.AddItem. cbn [fst snd]. rewrite Ht, Hp.
  split; [|split].
  - intros Hw. unfold Qgtb. rewrite (proj2 (Qltb_true _ _) Hw). reflexivity.
  - intros Hw Hem. unfold Qgtb. rewrite (proj2 (Qltb_false _ _) Hw).
    rewrite !notify_panics by exact Hem.
    destruct (item.Stackable it); [|reflexivity].
    destruct (findByID_total heap (item.ID it) (item.Items inv) Hv) as [[q|] Hf];
      rewrite Hf; [|reflexivity].
    destruct (findByID_found heap _ _ q Hf) as (_ & existing & Hq & _).
    rewrite Hq, notify_panics by exact Hem. reflexivity.
  - intros Hw Hem. unfold Qgtb. rewrite (proj2 (Qltb_false _ _) Hw).
    rewrite !notify_nil by exact Hem.
    assert (Happend :
      exists heap' items',
        Some (heap, item.mkInventory (item.Items inv ++ [p]) (item.MaxWeight inv)
                      (item.EventManager inv), true)
        = Some (heap', item.mkInventory items' (item.MaxWeight inv) None, true)
        /\ ((heap' = heap /\ items' = item.Items inv ++ [p])
            \/ (exists q existing,
                   item.Stackable it = true /\ q ∈ item.Items inv
                   /\ heap !! q = Some existing /\ item.ID existing = item.ID it
                   /\ items' = item.Items inv
                   /\ heap'
                      = <[q := item.mkItem (item.ID existing) (item.Name existing)
                                 (item.Type_ existing) (item.Weight existing)
                                 (item.Stackable existing)
                                 (wrap64 (item.Quantity existing
                                          + item.Quantity it))]> heap))
        /\ exists q found,
             item.GetItemByID heap' (item.mkInventory items' (item.MaxWeight inv) None)
               (item.ID it) = Some (Some q)
             /\ heap' !! q = Some found /\ item.ID found = item.ID it).
    { exists heap, (item.Items inv ++ [p]). rewrite Hem.
      split; [reflexivity|]. split; [left; auto|].
      unfold item.GetItemByID. cbn [item.Items].
      destruct (findByID_app_found heap (item.ID it) (item.Items inv) p it Hv Hp eq_refl)
        as [q Hq].
      destruct (findByID_found heap _ _ q Hq) as (_ & found & Hfound & Hid).
      exists q, found. auto. }
    destruct (item.Stackable it) eqn:Hst; [|exact Happend].
    destruct (findByID_total heap (item.ID it) (item.Items inv) Hv) as [[q|] Hf];
      rewrite Hf; [|exact Happend].
    destruct (findByID_found heap _ _ q Hf) as (Hin & existing & Hq & Hid).
    rewrite Hq, notify_nil by exact Hem.
    eexists. exists (item.Items inv). destruct inv as [items mw em].
    cbn [item.Items item.MaxWeight item.EventManager] in *. subst em.
    split; [reflexivity|]. split.
    + right. exists q, existing. auto 10.
    + unfold item.GetItemByID. cbn [item.Items].
      exists q. eexists. split; [|split; [apply lookup_insert_eq | exact Hid]].
      clear Happend Ht Hw Hv Hin.
      induction items as [|r rest IH]; cbn [item.findByID] in Hf |- *; [discriminate|].
      destruct (decide (r = q)) as [->|Hne].
      * rewrite lookup_insert_eq. cbn [item.ID].
        rewrite (proj2 (Z.eqb_eq _ _) Hid). reflexivity.
      * rewrite lookup_insert_ne by congruence.
        destruct (heap !! r) as [ir|]; [|discriminate].
        destruct (item.ID ir =? item.ID it)%Z; [congruence | exact (IH Hf)].
Qed.

Lemma AddItem_spec_witness :
  let torch := item.mkItem 7 "torch" item.ItemLight 2 false 1 in
  let heap : gmap nat item.Item := {[ 1%nat := torch ]} in
  let inv := item.NewInventory (Some NewEventManager) in
  (item.MaxWeight inv < 0 + item.Weight torch ->
   item.AddItem (heap, inv) 1%nat 5%Z = Some (heap, inv, false))
  /\ (0 + item.Weight torch <= item.MaxWeight inv ->
      is_Some (item.EventManager inv) ->
      item.AddItem (heap, inv) 1%nat 5%Z = None)
  /\ (0 + item.Weight torch <= item.MaxWeight inv ->
      item.EventManager inv = None ->
      exists heap' items',
        item.AddItem (heap, inv) 1%nat 5%Z
        = Some (heap', item.mkInventory items' (item.MaxWeight inv) None, true)
        /\ ((heap' = heap /\ items' = item.Items inv ++ [1%nat])
            \/ (exists q existing,
                   item.Stackable torch = true /\ q ∈ item.Items inv
                   /\ heap !! q = Some existing /\ item.ID existing = item.ID torch
                   /\ items' = item.Items inv
                   /\ heap'
                      = <[q := item.mkItem (item.ID existing) (item.Name existing)
                                 (item.Type_ existing) (item.Weight existing)
                                 (item.Stackable existing)
                                 (wrap64 (item.Quantity existing
                                          + item.Quantity torch))]> heap))
        /\ exists q found,
             item.GetItemByID heap' (item.mkInventory items' (item.MaxWeight inv) None)
               (item.ID torch) = Some (Some q)
             /\ heap' !! q = Some found /\ item.ID found = item.ID torch).
Proof.
  intros torch heap inv.
  apply (AddItem_spec heap inv 1%nat torch 0 5%Z); reflexivity.
Defined.

(** ** Sorting the inventory *)

Lemma forEach_app {S A} (body : S -> A -> option S) (l1 l2 : list A) (s : S) :
  forEach body (l1 ++ l2) s
  = match forEach body l1 s with
    | Some s' => forEach body l2 s'
    | None => None
    end.
Proof.
  revert s. induction l1 as [|a l1 IH]; intros s; cbn [forEach app]; [reflexivity|].
  destruct (body s a); [apply IH | reflexivity].
Qed.

Lemma sortStep_ok (heap : gmap nat item.Item) (items : list nat) (i j a b : nat) :
  item.valid heap items -> items !! i = Some a -> items !! j = Some b ->
  item.sortStep heap i items j
  = Some (if (item.typeOf heap b <? item.typeOf heap a)%Z
          then <[i := b]> (<[j := a]> items) else items).
Proof.
  intros Hv Ha Hb. unfold item.sortStep, item.typeOf. rewrite Ha, Hb.
  unfold item.valid in Hv. rewrite Forall_forall in Hv.
  destruct (Hv a) as [ia Hia]; [apply list_elem_of_lookup; eauto|].
  destruct (Hv b) as [ib Hib]; [apply list_elem_of_lookup; eauto|].
  rewrite Hia, Hib. destruct (_ <? _)%Z; reflexivity.
Qed.

Lemma sortInner_loop (heap : gmap nat item.Item) (i : nat) (items0 : list nat) :
  item.valid heap items0 ->
  forall m, (S i + m <= length items0)%nat ->
    exists items,
      forEach (item.sortStep heap i) (seq (S i) m) items0 = Some items
      /\ sortInner heap i (S i + m) items0 items.
Proof.
  intros Hv0. induction m as [|m IH]; intros Hm.
  - exists items0. split; [reflexivity|]. unfold sortInner.
    split; [exact Hv0|]. split; [reflexivity|]. split; [reflexivity|].
    split; [reflexivity|]. intros b x y Hb. lia.
  - destruct IH as (items1 & E1 & Hv1 & Hlen1 & Hperm1 & Hpre1 & Hord1); [lia|].
    rewrite seq_S, forEach_app, E1. cbn [forEach].
    set (j := (S i + m)%nat) in *.
    destruct (lookup_lt_is_Some_2 items1 i) as [a Ha]; [lia|].
    destruct (lookup_lt_is_Some_2 items1 j) as [b Hb]; [unfold j; lia|].
    rewrite (sortStep_ok heap items1 i j a b Hv1 Ha Hb).
    destruct (Z.ltb_spec (item.typeOf heap b) (item.typeOf heap a)) as [Hlt|Hge].
    + eexists. split; [reflexivity|]. unfold sortInner.
      assert (Hva : is_Some (heap !! a)).
      { unfold item.valid in Hv1. rewrite Forall_forall in Hv1. apply Hv1.
        apply list_elem_of_lookup. eauto. }
      assert (Hvb : is_Some (heap !! b)).
      { unfold item.valid in Hv1. rewrite Forall_forall in Hv1. apply Hv1.
        apply list_elem_of_lookup. eauto. }
      split; [|split; [|split; [|split]]].
      * unfold item.valid. apply Forall_insert; [|exact Hvb].
        apply Forall_insert; [exact Hv1 | exact Hva].
      * rewrite !length_insert. exact Hlen1.
      * rewrite <- Hperm1. apply (Permutation_insert_swap items1 j i b a Hb Ha).
      * intros p Hp. rewrite !list_lookup_insert_ne by (unfold j; lia).
        apply Hpre1. exact Hp.
      * intros b' x y Hb' Hx Hy.
        rewrite list_lookup_insert_eq in Hx by (rewrite length_insert; lia).
        injection Hx as <-.
        rewrite list_lookup_insert_ne in Hy by lia.
        destruct (decide (b' = j)) as [->|Hne].
        -- rewrite list_lookup_insert_eq in Hy by (unfold j; lia).
           injection Hy as <-. lia.
        -- rewrite list_lookup_insert_ne in Hy by congruence.
           assert (item.typeOf heap a <= item.typeOf heap y)%Z; [|lia].
           apply (Hord1 b' a y); [unfold j in *; lia | exact Ha | exact Hy].
    + exists items1. split; [reflexivity|]. unfold sortInner.
      split; [exact Hv1|]. split; [exact Hlen1|]. split; [exact Hperm1|].
      split; [exact Hpre1|].
      intros b' x y Hb' Hx Hy.
      destruct (decide (b' = j)) as [->|Hne].
      * rewrite Ha in Hx. rewrite Hb in Hy. injection Hx as <-. injection Hy as <-. lia.
      * apply (Hord1 b' x y); [unfold j in *; lia | exact Hx | exact Hy].
Qed.

Lemma sortOuter_loop (heap : gmap nat item.Item) (items0 : list nat) :
  item.valid heap items0 ->
  forall k, (k <= length items0)%nat ->
    exists items,
      forEach
        (fun items i =>
           forEach (item.sortStep heap i) (seq (S i) (length items - S i)) items)
        (seq 0 k) items0 = Some items
      /\ sortOuter heap k items0 items.
Proof.
  intros Hv0. induction k as [|i IH]; intros Hk.
  - exists items0. split; [reflexivity|]. unfold sortOuter.
    split; [exact Hv0|]. split; [reflexivity|]. split; [reflexivity|].
    intros a b x y Ha. lia.
  - destruct IH as (items1 & E1 & Hv1 & Hlen1 & Hperm1 & Hord1); [lia|].
    rewrite seq_S, forEach_app, E1. cbn [forEach Nat.add].
    destruct (sortInner_loop heap i items1 Hv1 (length items1 - S i))
      as (items2 & E2 & Hv2 & Hlen2 & Hperm2 & Hpre2 & Hord2); [lia|].
    rewrite E2. exists items2. split; [reflexivity|]. unfold sortOuter.
    split; [exact Hv2|]. split; [congruence|].
    split; [rewrite Hperm2; exact Hperm1|].
    assert (Htake : take i items2 = take i items1).
    { apply list_eq. intros p. destruct (decide (p < i)%nat) as [Hp|Hp].
      - rewrite !lookup_take_lt by exact Hp. apply Hpre2. exact Hp.
      - rewrite !lookup_take_ge by lia. reflexivity. }
    assert (Hdrop : drop i items2 ≡ₚ drop i items1).
    { apply (Permutation_app_inv_l (take i items1)).
      rewrite <- Htake at 1. rewrite !take_drop. exact Hperm2. }
    intros a b x y Ha Hab Hx Hy.
    assert (Hblen : (b < length items2)%nat) by (apply lookup_lt_is_Some; eauto).
    destruct (decide (a = i)) as [->|Hne].
    + apply (Hord2 b x y); [lia | exact Hx | exact Hy].
    + assert (Hai : (a < i)%nat) by lia.
      rewrite (Hpre2 a Hai) in Hx.
      destruct (decide (b < i)%nat) as [Hbi|Hbi].
      * rewrite (Hpre2 b Hbi) in Hy. apply (Hord1 a b x y); assumption.
      * assert (Hin : y ∈ drop i items1).
        { rewrite <- Hdrop. apply list_elem_of_lookup. exists (b - i)%nat.
          rewrite lookup_drop. replace (i + (b - i))%nat with b by lia. exact Hy. }
        apply list_elem_of_lookup in Hin. destruct Hin as [c Hc].
        rewrite lookup_drop in Hc.
        apply (Hord1 a (i + c)%nat x y); [exact Hai | lia | exact Hx | exact Hc].
Qed.

(** X30.  [SortItems] on an inventory without nil pointers sorts the
    pointers by the type of their items: the slice afterwards is a
    permutation of the slice before, and the types do not decrease along
    it; the items themselves are left as they are.  An inventory that has
    an event manager then panics, on the nil payload map of the event that
    reports the sorting; an inventory without one returns. *)
Theorem SortItems_spec (heap : gmap nat item.Item) (inv : item.Inventory) (now : Z) :
  item.valid heap (item.Items inv) ->
  exists items,
    item.sortLoops heap (item.Items inv) = Some items
    /\ items ≡ₚ item.Items inv
    /\ (forall a b x y, (a < b)%nat -> items !! a = Some x -> items !! b = Some y ->
                        (item.typeOf heap x <= item.typeOf heap y)%Z)
    /\ (item.EventManager inv = None ->
        item.SortItems (heap, inv) now
        = Some (heap, item.mkInventory items (item.MaxWeight inv) None))
    /\ (is_Some (item.EventManager inv) -> item.SortItems (heap, inv) now = None).
Proof.
  intros Hv.
  destruct (sortOuter_loop heap (item.Items inv) Hv (length (item.Items inv)))
    as (items & E & _ & Hlen & Hperm & Hord); [lia|].
  exists items. unfold item.SortItems, item.sortLoops. cbn [fst snd]. rewrite E.
  split; [reflexivity|]. split; [exact Hperm|]. split; [|split].
  - intros a b x y Hab Hx Hy. apply (Hord a b x y); [|exact Hab | exact Hx | exact Hy].
    rewrite <- Hlen. apply lookup_lt_is_Some. eauto with lia.
  - intros Hem. rewrite notify_nil by exact Hem. rewrite Hem. reflexivity.
  - intros Hem. rewrite notify_panics by exact Hem. reflexivity.
Qed.

Lemma SortItems_spec_witness :
  let heap : gmap nat item.Item :=
    {[ 1%nat := item.mkItem 7 "note" item.ItemNote 1 false 1;
       2%nat := item.mkItem 8 "torch" item.ItemLight 2 false 1;
       3%nat := item.mkItem 9 "bread" item.ItemFood 1 true 3 ]} in
  let inv := item.mkInventory [1; 2; 3]%nat 50 None in
  exists items,
    item.sortLoops heap (item.Items inv) = Some items
    /\ items ≡ₚ item.Items inv
    /\ (forall a b x y, (a < b)%nat -> items !! a = Some x -> items !! b = Some y ->
                        (item.typeOf heap x <= item.typeOf heap y)%Z)
    /\ (item.EventManager inv = None ->
        item.SortItems (heap, inv) 0%Z
        = Some (heap, item.mkInventory items (item.MaxWeight inv) None))
    /\ (is_Some (item.EventManager inv) -> item.SortItems (heap, inv) 0%Z = None).
Proof.
  intros heap inv.
  apply (SortItems_spec heap inv 0%Z).
  unfold item.valid, inv, heap. cbn [item.Items].
  repeat constructor; eexists; reflexivity.
Defined.
